(** * ngobrol_yuk: the connection hub of controllers/chat.go

    A shallow embedding of the Hub actor ([Hub.run]), the handshake
    ([WebSocketChat]) and the two per-connection pumps ([Client.readPump],
    [Client.writePump]), with the MongoDB collections they touch.

    Conventions.
    - A [*Client] is an index into the append-only list [heap]; two clients
      are the same Go pointer iff they are the same index.
    - A buffered Go channel is its buffer plus its closed flag; closing a
      closed channel and sending on a closed channel abort the process,
      which the outcome [Crashed] records together with the state the
      abort left behind (the database outlives the process).
    - Every reading of the clock, every generated object id and every
      result of a store call is an input of the step that consumes it.
    - [sync.RWMutex] is not modelled: every registry access in this file
      happens inside the single Hub goroutine.
    - The goroutines interleave at the points where they meet: a channel
      operation with the Hub, a frame read, a queue receive, a tick.  The
      Hub's channels are unbuffered, so a sender is blocked until the Hub
      takes its value, and the Hub handles a value to the end before it
      takes the next; one [Event] is one such meeting together with the
      straight-line code that follows it. *)

From stdpp Require Import gmap strings list fin_maps.

(** ** models *)

Abbreviation Time := Z.
Abbreviation ObjectID := N.

Module Message.
Record t := Build {
  ID : ObjectID;
  SenderID : string;
  ReceiverID : string;
  Content : string;
  Type_ : string;
  Read : bool;
  CreatedAt : Time
}.
End Message.

Module SendMessageRequest.
Record t := Build {
  ReceiverID : string;
  Content : string;
  Type_ : string
}.
End SendMessageRequest.

(** The two fields of a [users] document that this controller writes. *)
Module User.
Record t := Build {
  Online : bool;
  LastSeen : Time
}.
End User.

#[global] Instance Message_eq_dec : EqDecision Message.t.
Proof. solve_decision. Defined.
#[global] Instance User_eq_dec : EqDecision User.t.
Proof. solve_decision. Defined.

(** ** Channels: [chan models.Message] *)

Record Chan := MkChan {
  buf : list Message.t;
  cap : nat;
  closed : bool
}.

(** [make(chan models.Message, n)] *)
Definition make_chan (n : nat) : Chan :=
  {| buf := []; cap := n; closed := false |}.

(** [close(ch)]: [None] is the run-time panic on an already closed channel. *)
Definition close (ch : Chan) : option Chan :=
  if closed ch then None
  else Some {| buf := buf ch; cap := cap ch; closed := true |}.

Inductive SendResult :=
  | Sent (ch : Chan)     (* the [case ch <- m] branch ran *)
  | WouldBlock           (* the [default] branch ran *)
  | SendPanic.           (* send on a closed channel *)

(** [select { case ch <- m: default: }] *)
Definition try_send (ch : Chan) (m : Message.t) : SendResult :=
  if closed ch then SendPanic
  else if length (buf ch) <? cap ch
       then Sent {| buf := buf ch ++ [m]; cap := cap ch; closed := false |}
       else WouldBlock.

(** ** The websocket transport *)

Inductive Frame :=
  | JSONFrame (m : Message.t)
  | CloseFrame
  | PingFrame.

Record Conn := MkConn {
  query : gmap string string;
  conn_closed : bool;
  written : list Frame
}.

(** [c.Query(key)]: the empty string when the parameter is absent. *)
Definition Query (c : Conn) (key : string) : string :=
  default ""%string (query c !! key).

(** [c.Close()] *)
Definition Close (c : Conn) : Conn :=
  {| query := query c; conn_closed := true; written := written c |}.

(** [c.WriteJSON] / [c.WriteMessage]; [err] is the transport's verdict. *)
Definition Write (c : Conn) (f : Frame) (err : bool) : Conn :=
  if err then c
  else {| query := query c; conn_closed := conn_closed c;
          written := written c ++ [f] |}.

(** ** Clients and their goroutines *)

(** Where the goroutine running [readPump] stands. *)
Inductive ReadPump :=
  | Reading                        (* in the loop, inside [ReadJSON] *)
  | SendingBroadcast (m : Message.t) (* blocked in [hub.Broadcast <- message] *)
  | SendingUnregister              (* in the deferred call, blocked in
                                      [hub.Unregister <- c] *)
  | Stopped.                       (* not started yet, or returned *)

Record Client := MkClient {
  Conn_ : Conn;
  UserID : string;
  Send : Chan;
  readPump : ReadPump;   (* control state of [go client.readPump()] *)
  writePump : bool       (* [go client.writePump()] still running *)
}.

(** A [*Client]. *)
Abbreviation ptr := nat.

Definition with_Send (ch : Chan) (cl : Client) : Client :=
  {| Conn_ := Conn_ cl; UserID := UserID cl; Send := ch;
     readPump := readPump cl; writePump := writePump cl |}.

Definition with_Conn (c : Conn) (cl : Client) : Client :=
  {| Conn_ := c; UserID := UserID cl; Send := Send cl;
     readPump := readPump cl; writePump := writePump cl |}.

Definition with_readPump (r : ReadPump) (cl : Client) : Client :=
  {| Conn_ := Conn_ cl; UserID := UserID cl; Send := Send cl;
     readPump := r; writePump := writePump cl |}.

Definition with_writePump (w : bool) (cl : Client) : Client :=
  {| Conn_ := Conn_ cl; UserID := UserID cl; Send := Send cl;
     readPump := readPump cl; writePump := w |}.

(** ** The state: the Hub's registry, the heap, the database, the log *)

Record State := MkState {
  Clients : gmap string ptr;        (* [hub.Clients] *)
  heap : list Client;               (* every [&Client{...}] ever built *)
  users : gmap string User.t;       (* [config.DB.Collection("users")] *)
  messages : list Message.t;        (* [config.DB.Collection("messages")] *)
  dispatched : list Message.t;      (* history: what the Hub took from
                                       [hub.Broadcast], oldest first *)
  logs : list string                (* [log.Printf] lines *)
}.

Definition set_Clients (f : gmap string ptr → gmap string ptr) (s : State) :=
  {| Clients := f (Clients s); heap := heap s; users := users s;
     messages := messages s; dispatched := dispatched s; logs := logs s |}.

Definition set_heap (f : list Client → list Client) (s : State) :=
  {| Clients := Clients s; heap := f (heap s); users := users s;
     messages := messages s; dispatched := dispatched s; logs := logs s |}.

Definition set_users (f : gmap string User.t → gmap string User.t) (s : State) :=
  {| Clients := Clients s; heap := heap s; users := f (users s);
     messages := messages s; dispatched := dispatched s; logs := logs s |}.

Definition set_messages (f : list Message.t → list Message.t) (s : State) :=
  {| Clients := Clients s; heap := heap s; users := users s;
     messages := f (messages s); dispatched := dispatched s; logs := logs s |}.

Definition set_dispatched (f : list Message.t → list Message.t) (s : State) :=
  {| Clients := Clients s; heap := heap s; users := users s;
     messages := messages s; dispatched := f (dispatched s); logs := logs s |}.

Definition log_Printf (line : string) (s : State) :=
  {| Clients := Clients s; heap := heap s; users := users s;
     messages := messages s; dispatched := dispatched s;
     logs := logs s ++ [line] |}.

(** In-place update of the client a pointer designates. *)
Definition update_client (p : ptr) (f : Client → Client) (s : State) : State :=
  set_heap (alter f p) s.

Inductive outcome :=
  | Alive (s : State)
  | Crashed (s : State).   (* unrecovered panic: the process is gone *)

Definition outcome_state (o : outcome) : State :=
  match o with Alive s | Crashed s => s end.

(** ** The store calls *)

(** [UpdateOne(ctx, bson.M{"_id": id}, bson.M{"$set": ...})] on [users]:
    no upsert option is passed, so only an existing document changes; the
    caller discards the result, [err] says whether the store failed. *)
Definition UpdateOne (err : bool) (id : string) (set : User.t → User.t)
    (s : State) : State :=
  if err then s else set_users (alter set id) s.

Definition set_online (b : bool) (now : Time) (_ : User.t) : User.t :=
  {| User.Online := b; User.LastSeen := now |}.

Definition set_last_seen (now : Time) (u : User.t) : User.t :=
  {| User.Online := User.Online u; User.LastSeen := now |}.

(** What the Hub reads from its environment while it handles one event. *)
Record HubEnv := MkHubEnv {
  now : Time;          (* [time.Now()] *)
  update_err : bool    (* the [UpdateOne] call failed *)
}.

(** ** Hub.run, one iteration of the [select] loop per event *)

Inductive HubEvent :=
  | RecvRegister (client : ptr)        (* [case client := <-h.Register] *)
  | RecvUnregister (client : ptr)      (* [case client := <-h.Unregister] *)
  | RecvBroadcast (message : Message.t). (* [case message := <-h.Broadcast] *)

Definition on_Register (e : HubEnv) (client : ptr) (s : State) : outcome :=
  match heap s !! client with
  | None => Crashed s
  | Some cl =>
      let s1 := set_Clients <[UserID cl := client]> s in
      let s2 := UpdateOne (update_err e) (UserID cl) (set_online true (now e)) s1 in
      Alive (log_Printf ("User " +:+ UserID cl +:+ " connected") s2)
  end.

Definition on_Unregister (e : HubEnv) (client : ptr) (s : State) : outcome :=
  match heap s !! client with
  | None => Crashed s
  | Some cl =>
      match Clients s !! UserID cl with
      | Some _ =>
          let s1 := set_Clients (delete (UserID cl)) s in
          match close (Send cl) with
          | None => Crashed s1
          | Some ch =>
              let s2 := update_client client (with_Send ch) s1 in
              let s3 := UpdateOne (update_err e) (UserID cl)
                          (set_online false (now e)) s2 in
              Alive (log_Printf ("User " +:+ UserID cl +:+ " disconnected") s3)
          end
      | None => Alive s
      end
  end.

(** One of the two [if c, ok := h.Clients[id]; ok { select ... }] blocks. *)
Definition deliver (id : string) (message : Message.t) (s : State) : outcome :=
  match Clients s !! id with
  | Some p =>
      match heap s !! p with
      | None => Crashed s
      | Some cl =>
          match try_send (Send cl) message with
          | Sent ch => Alive (update_client p (with_Send ch) s)
          | WouldBlock =>
              let s1 := set_Clients (delete id) s in
              match close (Send cl) with
              | None => Crashed s1
              | Some ch => Alive (update_client p (with_Send ch) s1)
              end
          | SendPanic => Crashed s
          end
      end
  | None => Alive s
  end.

(** The three ways one delivery attempt can go when the registry entry, if
    any, designates a client with an open queue. *)
Inductive deliver_case (id : string) (m : Message.t) (s : State) : outcome → Prop :=
  | deliver_offline :
      Clients s !! id = None →
      deliver_case id m s (Alive s)
  | deliver_enqueued p cl :
      Clients s !! id = Some p → heap s !! p = Some cl →
      UserID cl = id → closed (Send cl) = false →
      length (buf (Send cl)) < cap (Send cl) →
      deliver_case id m s
        (Alive (update_client p
                  (with_Send (MkChan (buf (Send cl) ++ [m]) (cap (Send cl)) false)) s))
  | deliver_evicted p cl :
      Clients s !! id = Some p → heap s !! p = Some cl →
      UserID cl = id → closed (Send cl) = false →
      cap (Send cl) ≤ length (buf (Send cl)) →
      deliver_case id m s
        (Alive (update_client p
                  (with_Send (MkChan (buf (Send cl)) (cap (Send cl)) true))
                  (set_Clients (delete id) s))).

Definition on_Broadcast (message : Message.t) (s : State) : outcome :=
  let s0 := set_dispatched (λ l, l ++ [message]) s in
  match deliver (Message.ReceiverID message) message s0 with
  | Alive s1 => deliver (Message.SenderID message) message s1
  | Crashed s1 => Crashed s1
  end.

Definition Hub_run (e : HubEnv) (ev : HubEvent) (s : State) : outcome :=
  match ev with
  | RecvRegister client => on_Register e client s
  | RecvUnregister client => on_Unregister e client s
  | RecvBroadcast message => on_Broadcast message s
  end.

(** ** github.com/golang-jwt/jwt/v5, as far as the handshake looks at it *)

Inductive Value :=
  | VString (s : string)
  | VNumber (z : Z)
  | VBool (b : bool)
  | VNull.

Inductive Claims :=
  | MapClaims (m : gmap string Value)
  | OtherClaims.

Record Token := MkToken {
  Valid : bool;
  Claims_ : Claims
}.

(** ** What a pump reads from its environment during one iteration *)

Inductive ReadJSON :=
  | ReadError                                   (* [err != nil], also a
                                                   passed read deadline *)
  | Decoded (msgReq : SendMessageRequest.t).

Record PumpEnv := MkPumpEnv {
  new_id : ObjectID;            (* [primitive.NewObjectID()] *)
  created_now : Time;           (* [time.Now()] of [CreatedAt] *)
  insert_err : option string;   (* [err] of [InsertOne] *)
  seen_now : Time;              (* [time.Now()] of [last_seen] *)
  seen_err : bool               (* the [UpdateOne] call failed *)
}.

(** How one pass through the body of the [for] loop ends. *)
Inductive Flow :=
  | Break
  | Continue
  | ToBroadcast (message : Message.t).   (* reached [hub.Broadcast <- message] *)

(** What the scheduler can let happen next. *)
Inductive Event :=
  | Connect (e : HubEnv) (c : Conn)
      (* the handler [WebSocketChat(c)] runs; the Hub takes its Register *)
  | Inbound (client : ptr) (e : PumpEnv) (r : ReadJSON)
      (* [ReadJSON] returns in [client]'s read pump *)
  | TakeBroadcast (client : ptr)
      (* the Hub takes the message [client]'s read pump is sending *)
  | TakeUnregister (e : HubEnv) (client : ptr)
      (* the Hub takes the Unregister of [client]'s exiting read pump *)
  | Outbound (client : ptr) (werr : bool)
      (* [case message, ok := <-c.Send] in [client]'s write pump *)
  | Tick (client : ptr) (werr : bool).
      (* [case <-ticker.C] in [client]'s write pump *)

Definition empty_db (U : gmap string User.t) : State :=
  {| Clients := ∅; heap := []; users := U; messages := [];
     dispatched := []; logs := [] |}.

Section Chat.

(** [models.SendMessageRequest.Validate], [jwt.Parse] with the key the
    key function returns, and [os.Getenv] are code outside src/: the
    development is parametric in them. *)
Variable Validate : SendMessageRequest.t → list string.
Variable jwt_Parse : string → string → Token * bool.
Variable Getenv : string → string.

(** *** WebSocketChat *)

Inductive Handled :=
  | Refused (c : Conn)      (* [c.Close(); return] *)
  | Accepted (o : outcome). (* the handler ran to its end *)

Definition new_Client (c : Conn) (userID : string) : Client :=
  {| Conn_ := c; UserID := userID; Send := make_chan 256;
     readPump := Stopped; writePump := false |}.

Definition WebSocketChat (e : HubEnv) (c : Conn) (s : State) : Handled :=
  let tokenStr := Query c "token" in
  if decide (tokenStr = ""%string) then Refused (Close c) else
  let '(token, err) := jwt_Parse tokenStr (Getenv "JWT_SECRET") in
  if err || negb (Valid token) then Refused (Close c) else
  match Claims_ token with
  | OtherClaims => Refused (Close c)
  | MapClaims claims =>
      match claims !! "user_id"%string with
      | Some (VString userID) =>
          if decide (userID = ""%string) then Refused (Close c) else
          let client := length (heap s) in
          let s1 := set_heap (λ h, h ++ [new_Client c userID]) s in
          match on_Register e client s1 with
          | Alive s2 =>
              let s3 := update_client client (with_writePump true) s2 in
              Accepted (Alive (update_client client (with_readPump Reading) s3))
          | Crashed s2 => Accepted (Crashed s2)
          end
      | _ => Refused (Close c)
      end
  end.

(** The client the handler leaves in the heap once both [go] statements
    have run. *)
Definition started (c : Conn) (userID : string) : Client :=
  {| Conn_ := c; UserID := userID; Send := make_chan 256;
     readPump := Reading; writePump := true |}.

(** The state an accepted handshake leaves. *)
Definition joined (e : HubEnv) (c : Conn) (userID : string) (s : State) : State :=
  log_Printf ("User " +:+ userID +:+ " connected")
    (UpdateOne (update_err e) userID (set_online true (now e))
      (set_Clients <[userID := length (heap s)]>
         (set_heap (λ h, h ++ [started c userID]) s))).

(** The token of the request verifies and certifies [userID]. *)
Definition certifies (c : Conn) (userID : string) : Prop :=
  Query c "token" ≠ ""%string ∧
  ∃ token claims,
    jwt_Parse (Query c "token") (Getenv "JWT_SECRET") = (token, false) ∧
    Valid token = true ∧ Claims_ token = MapClaims claims ∧
    claims !! "user_id"%string = Some (VString userID) ∧ userID ≠ ""%string.

(** *** Client.readPump: the body of the loop *)

(** The struct literal [models.Message{...}] of the loop body. *)
Definition message_of (e : PumpEnv) (c_UserID : string)
    (msgReq : SendMessageRequest.t) : Message.t :=
  {| Message.ID := new_id e;
     Message.SenderID := c_UserID;
     Message.ReceiverID := SendMessageRequest.ReceiverID msgReq;
     Message.Content := SendMessageRequest.Content msgReq;
     Message.Type_ := SendMessageRequest.Type_ msgReq;
     Message.Read := false;
     Message.CreatedAt := created_now e |}.

Definition readPump_body (e : PumpEnv) (c_UserID : string) (r : ReadJSON)
    (s : State) : State * Flow :=
  match r with
  | ReadError => (s, Break)
  | Decoded msgReq =>
      if (0 <? length (Validate msgReq))%nat then (s, Continue) else
      if decide (SendMessageRequest.ReceiverID msgReq = c_UserID)
      then (s, Continue) else
      let message := message_of e c_UserID msgReq in
      match insert_err e with
      | Some err =>
          (log_Printf ("Failed to save message: " +:+ err) s, Continue)
      | None =>
          let s1 := set_messages (λ l, l ++ [message]) s in
          let s2 := UpdateOne (seen_err e) c_UserID
                      (set_last_seen (seen_now e)) s1 in
          (s2, ToBroadcast message)
      end
  end.

(** Every way through the body, at once. *)
Inductive body_case (e : PumpEnv) (u : string) (s : State) :
    ReadJSON → State * Flow → Prop :=
  | body_break :
      body_case e u s ReadError (s, Break)
  | body_drop_invalid msgReq :
      Validate msgReq ≠ [] →
      body_case e u s (Decoded msgReq) (s, Continue)
  | body_drop_self msgReq :
      Validate msgReq = [] → SendMessageRequest.ReceiverID msgReq = u →
      body_case e u s (Decoded msgReq) (s, Continue)
  | body_drop_unsaved msgReq err :
      Validate msgReq = [] → SendMessageRequest.ReceiverID msgReq ≠ u →
      insert_err e = Some err →
      body_case e u s (Decoded msgReq)
        (log_Printf ("Failed to save message: " +:+ err) s, Continue)
  | body_saved msgReq :
      Validate msgReq = [] → SendMessageRequest.ReceiverID msgReq ≠ u →
      insert_err e = None →
      body_case e u s (Decoded msgReq)
        (UpdateOne (seen_err e) u (set_last_seen (seen_now e))
           (set_messages (λ l, l ++ [message_of e u msgReq]) s),
         ToBroadcast (message_of e u msgReq)).

Definition after_body (fl : Flow) : ReadPump :=
  match fl with
  | Break => SendingUnregister
  | Continue => Reading
  | ToBroadcast message => SendingBroadcast message
  end.

(** *** Client.writePump: one pass through its [select] *)

(** The deferred [ticker.Stop(); c.Conn.Close()]. *)
Definition writePump_return (cl : Client) : Client :=
  with_writePump false (with_Conn (Close (Conn_ cl)) cl).

Definition writePump_recv (werr : bool) (cl : Client) : Client :=
  match buf (Send cl) with
  | message :: rest =>
      let cl1 := with_Send {| buf := rest; cap := cap (Send cl);
                              closed := closed (Send cl) |} cl in
      if werr then writePump_return cl1
      else with_Conn (Write (Conn_ cl1) (JSONFrame message) false) cl1
  | [] =>
      if closed (Send cl)
      then writePump_return (with_Conn (Write (Conn_ cl) CloseFrame werr) cl)
      else cl   (* nothing to receive: the pump stays suspended *)
  end.

Definition writePump_tick (werr : bool) (cl : Client) : Client :=
  if werr then writePump_return cl
  else with_Conn (Write (Conn_ cl) PingFrame false) cl.

(** *** The whole process, one scheduling decision at a time *)

Definition step (s : State) (ev : Event) : outcome :=
  match ev with
  | Connect e c =>
      match WebSocketChat e c s with
      | Refused _ => Alive s
      | Accepted o => o
      end
  | Inbound client e r =>
      match heap s !! client with
      | Some cl =>
          match readPump cl with
          | Reading =>
              let '(s1, fl) := readPump_body e (UserID cl) r s in
              Alive (update_client client (with_readPump (after_body fl)) s1)
          | _ => Alive s
          end
      | None => Alive s
      end
  | TakeBroadcast client =>
      match heap s !! client with
      | Some cl =>
          match readPump cl with
          | SendingBroadcast message =>
              match on_Broadcast message s with
              | Alive s1 =>
                  Alive (update_client client (with_readPump Reading) s1)
              | Crashed s1 => Crashed s1
              end
          | _ => Alive s
          end
      | None => Alive s
      end
  | TakeUnregister e client =>
      match heap s !! client with
      | Some cl =>
          match readPump cl with
          | SendingUnregister =>
              match on_Unregister e client s with
              | Alive s1 =>
                  let s2 := update_client client (with_readPump Stopped) s1 in
                  Alive (update_client client
                           (λ cl, with_Conn (Close (Conn_ cl)) cl) s2)
              | Crashed s1 => Crashed s1
              end
          | _ => Alive s
          end
      | None => Alive s
      end
  | Outbound client werr =>
      match heap s !! client with
      | Some cl =>
          if writePump cl
          then Alive (update_client client (writePump_recv werr) s)
          else Alive s
      | None => Alive s
      end
  | Tick client werr =>
      match heap s !! client with
      | Some cl =>
          if writePump cl
          then Alive (update_client client (writePump_tick werr) s)
          else Alive s
      | None => Alive s
      end
  end.

Fixpoint run (s : State) (evs : list Event) : outcome :=
  match evs with
  | [] => Alive s
  | ev :: evs' =>
      match step s ev with
      | Alive s' => run s' evs'
      | Crashed s' => Crashed s'
      end
  end.

(** States the process can be in, started on a database holding the
    user documents [U] and no message. *)
Definition reachable (U : gmap string User.t) (s : State) : Prop :=
  ∃ evs, run (empty_db U) evs = Alive s.

(** Along the run of [evs] from [s], no Register for the identity [id]
    is processed: after no step does the registry hold an entry for it. *)
Fixpoint never_registered (id : string) (s : State) (evs : list Event) : bool :=
  match evs with
  | [] => true
  | ev :: evs' =>
      match step s ev with
      | Alive s' =>
          bool_decide (Clients s' !! id = None) && never_registered id s' evs'
      | Crashed _ => true
      end
  end.

End Chat.

(** ** Invariants of the reachable states *)

(** Every registry entry designates a client of that identity whose
    outbound queue is open. *)
Definition registry_ok (s : State) : Prop :=
  ∀ u p, Clients s !! u = Some p →
    ∃ cl, heap s !! p = Some cl ∧ UserID cl = u ∧ closed (Send cl) = false.

Definition not_self (m : Message.t) : Prop :=
  Message.SenderID m ≠ Message.ReceiverID m.

(** A read pump blocked on [hub.Broadcast] holds a message it built
    itself, addressed to someone else, and already inserted. *)
Definition sends_ok (s : State) : Prop :=
  ∀ p cl m, heap s !! p = Some cl → readPump cl = SendingBroadcast m →
    Message.SenderID m = UserID cl ∧ not_self m ∧ m ∈ messages s.

Record inv (s : State) : Prop := MkInv {
  inv_registry : registry_ok s;
  inv_sends : sends_ok s;
  inv_messages : Forall not_self (messages s);
  inv_dispatched : ∀ m, m ∈ dispatched s → m ∈ messages s
}.

(** The queue of the client at [p] in [s], when there is one. *)
Definition queue_of (s : State) (p : ptr) : option Chan :=
  Send <$> heap s !! p.

(** [online_of s id]: the persisted online flag of [id], when [id] has a
    user document. *)
Definition online_of (s : State) (id : string) : option bool :=
  User.Online <$> users s !! id.

(** ** Stand-ins for the code outside src/, to run the model on examples *)

(** Modelled from the spec: [models.SendMessageRequest.Validate] is not
    under src/.  The spec (4.5, step 1) has it collect one failure for a
    missing receiver identity, one for content outside its length bound
    (scenario 5: empty content is refused) and one for a type outside the
    allowed set; it names neither the bound nor the set, which are
    arguments here. *)
Definition Validate_model (max_content : nat) (allowed : list string)
    (msgReq : SendMessageRequest.t) : list string :=
  (if decide (SendMessageRequest.ReceiverID msgReq = ""%string)
   then ["receiver_id is required"%string] else []) ++
  (if decide (SendMessageRequest.Content msgReq = ""%string)
   then ["content is required"%string]
   else if (max_content <? String.length (SendMessageRequest.Content msgReq))%nat
        then ["content is too long"%string] else []) ++
  (if decide (SendMessageRequest.Type_ msgReq ∈ allowed)
   then [] else ["type is not allowed"%string]).

Module Example.

Definition Validate := Validate_model 1000 ["text"; "image"; "file"]%string.

(** A verifier for examples: under the right key, the token is the
    identity it certifies. *)
Definition jwt_Parse (tokenStr key : string) : Token * bool :=
  if decide (key = "s3cret"%string)
  then (MkToken true (MapClaims {[ "user_id"%string := VString tokenStr ]}), false)
  else (MkToken false OtherClaims, true).

Definition Getenv (name : string) : string :=
  if decide (name = "JWT_SECRET"%string) then "s3cret"%string else ""%string.

Definition step := step Validate jwt_Parse Getenv.
Definition run := run Validate jwt_Parse Getenv.

Definition offline : User.t := {| User.Online := false; User.LastSeen := 0%Z |}.

Definition U : gmap string User.t :=
  {[ "alice"%string := offline; "bob"%string := offline ]}.

(** A fresh transport whose request carries [?token=tok]. *)
Definition dial (tok : string) : Conn :=
  {| query := {[ "token"%string := tok ]}; conn_closed := false; written := [] |}.

Definition at_ (t : Time) : HubEnv := {| now := t; update_err := false |}.

Definition ok_env (id : N) (t : Time) : PumpEnv :=
  {| new_id := id; created_now := t; insert_err := None;
     seen_now := t; seen_err := false |}.

Definition say (to content : string) : ReadJSON :=
  Decoded {| SendMessageRequest.ReceiverID := to;
             SendMessageRequest.Content := content;
             SendMessageRequest.Type_ := "text" |}.

(** Alice (client 0) and Bob (client 1) connect. *)
Definition two_online : list Event :=
  [Connect (at_ 1) (dial "alice"); Connect (at_ 2) (dial "bob")].

(** Alice writes to Bob [n] times; the Hub takes each message as it
    comes and Alice's write pump drains her echo, Bob's drains nothing. *)
Definition flood (n : nat) : list Event :=
  concat (replicate n [Inbound 0 (ok_env 7 3) (say "bob" "hi");
                       TakeBroadcast 0; Outbound 0 false]).

Definition state_after (evs : list Event) : State :=
  outcome_state (run (empty_db U) evs).

(** Both online, queues empty. *)
Definition both_idle : State := state_after two_online.

(** Bob's queue holds 256 messages. *)
Definition bob_full : State := state_after (two_online ++ flood 256).

(** ... and Alice's read pump is handing the Hub one more for him. *)
Definition one_more : list Event :=
  two_online ++ flood 256 ++ [Inbound 0 (ok_env 9 5) (say "bob" "one more")].
Definition bob_full_pending : State := state_after one_more.
Definition last_straw : Message.t :=
  {| Message.ID := 9; Message.SenderID := "alice";
     Message.ReceiverID := "bob"; Message.Content := "one more";
     Message.Type_ := "text"; Message.Read := false;
     Message.CreatedAt := 5 |}.

(** ... and the Hub has taken it: Bob is evicted. *)
Definition bob_evicted : State := state_after (one_more ++ [TakeBroadcast 0]).

(** What happens next: Bob's write pump drains a message, his socket
    fails, the Hub takes his Unregister, Alice writes to him again. *)
Definition aftermath : list Event :=
  [Outbound 1 false; Inbound 1 (ok_env 0 6) ReadError;
   TakeUnregister (at_ 7) 1;
   Inbound 0 (ok_env 10 8) (say "bob" "still there?"); TakeBroadcast 0].

(** Or else: Bob, evicted, logs in again (client 2) before the read
    pump of his evicted session (client 1) notices its socket failing. *)
Definition bob_returns : list Event :=
  one_more ++ [TakeBroadcast 0; Connect (at_ 6) (dial "bob");
               Inbound 1 (ok_env 0 7) ReadError].
Definition bob_twice : State := state_after bob_returns.

(** A store that refuses the insert. *)
Definition broken_store : PumpEnv :=
  {| new_id := 8; created_now := 4; insert_err := Some "connection reset"%string;
     seen_now := 4; seen_err := false |}.

(** A transport whose request carries no token. *)
Definition anonymous : Conn :=
  {| query := ∅; conn_closed := false; written := [] |}.

(** Alice logs in a second time (client 1) while her first session
    (client 0) is alive; then the first session's socket fails. *)
Definition second_login : list Event :=
  [Connect (at_ 1) (dial "alice"); Connect (at_ 2) (dial "alice");
   Inbound 0 (ok_env 0 3) ReadError].
Definition stale_leaving : State := state_after second_login.

(** Alice's first session (client 0) has been unregistered; she is back
    with a second one (client 1). *)
Definition back_again : State :=
  state_after [Connect (at_ 1) (dial "alice");
               Inbound 0 (ok_env 0 3) ReadError;
               TakeUnregister (at_ 4) 0;
               Connect (at_ 5) (dial "alice")].

End Example.

From stdpp Require Import sorting.

(** * The rest of the controllers *)

(** ** Sessions of one identity *)

(** The read pump of the client has not returned. *)
Definition live (cl : Client) : bool :=
  match readPump cl with
  | Stopped => false
  | _ => true
  end.

(** The identities of the clients whose read pump has not returned, one
    occurrence per client. *)
Definition live_ids (s : State) : list string :=
  UserID <$> filter (λ cl, live cl = true) (heap s).

(** Every queue is the one [make(chan models.Message, 256)] built and holds
    no more than it can. *)
Definition queues_bounded (s : State) : Prop :=
  ∀ p cl, heap s !! p = Some cl →
    cap (Send cl) = 256 ∧ length (buf (Send cl)) ≤ 256.

(** A registered client has a read pump that has not returned. *)
Definition registered_live (s : State) : Prop :=
  ∀ u p cl, Clients s !! u = Some p → heap s !! p = Some cl → live cl = true.

(** What a client's transport has been sent so far. *)
Definition written_to (s : State) (p : ptr) : option (list Frame) :=
  (λ cl, written (Conn_ cl)) <$> heap s !! p.

Section Sessions.

Variable Validate : SendMessageRequest.t → list string.
Variable jwt_Parse : string → string → Token * bool.
Variable Getenv : string → string.

(** In every state the run of [evs] from [s] passes through, no two
    clients whose read pump has not returned have the same identity. *)
Fixpoint one_session_each (s : State) (evs : list Event) : bool :=
  bool_decide (NoDup (live_ids s)) &&
  match evs with
  | [] => true
  | ev :: evs' =>
      match step Validate jwt_Parse Getenv s ev with
      | Alive s' => one_session_each s' evs'
      | Crashed _ => true
      end
  end.

End Sessions.

(** ** The write pump at work *)

(** The client once its write pump has taken the first [k] messages of its
    queue and written each to the transport. *)
Definition after_sending (k : nat) (cl : Client) : Client :=
  {| Conn_ := {| query := query (Conn_ cl);
                 conn_closed := conn_closed (Conn_ cl);
                 written := written (Conn_ cl)
                            ++ (JSONFrame <$> take k (buf (Send cl))) |};
     UserID := UserID cl;
     Send := {| buf := drop k (buf (Send cl)); cap := cap (Send cl);
                closed := closed (Send cl) |};
     readPump := readPump cl;
     writePump := writePump cl |}.

(** The client once its write pump has found the queue closed and empty,
    sent the close frame and returned. *)
Definition after_closing (cl : Client) : Client :=
  {| Conn_ := {| query := query (Conn_ cl);
                 conn_closed := true;
                 written := written (Conn_ cl) ++ [CloseFrame] |};
     UserID := UserID cl;
     Send := Send cl;
     readPump := readPump cl;
     writePump := false |}.

(** ** The REST handlers of controllers/chat.go *)

(** Go's [int] and [int64]: 64 bits, two's complement. *)
Definition wrap (z : Z) : Z := ((z + 2 ^ 63) `mod` 2 ^ 64 - 2 ^ 63)%Z.

(** [fiber.StatusBadRequest] and the like. *)
Definition StatusBadRequest : Z := 400.
Definition StatusNotFound : Z := 404.
Definition StatusConflict : Z := 409.
Definition StatusInternalServerError : Z := 500.

(** What a handler answers. *)
Inductive Reply (A : Type) :=
  | JSON (body : A)
      (* [return c.JSON(body)], status 200 *)
  | ErrorJSON (status : Z) (error : string)
      (* [return c.Status(status).JSON(fiber.Map{"error": error})] *)
  | Panic.
      (* a run-time panic inside the handler *)
Arguments JSON {A} body.
Arguments ErrorJSON {A} status error.
Arguments Panic {A}.

(** What a [Find] followed by the decoding of its cursor gives. *)
Inductive Found (A : Type) :=
  | FindError            (* [Find] returned an error *)
  | DecodeError          (* [cursor.All] returned an error *)
  | Docs (l : list A).
Arguments FindError {A}.
Arguments DecodeError {A}.
Arguments Docs {A} l.

(** The [Find] of [GetMessages]: the filter
    [$or [{sender_id: a, receiver_id: b}, {sender_id: b, receiver_id: a}]],
    sorted by [created_at] descending, with [SetSkip] and [SetLimit]. *)
Record MessagesQuery := MkMessagesQuery {
  q_current : string;
  q_other : string;
  q_skip : Z;
  q_limit : Z
}.

Record Pagination := MkPagination {
  pg_page : Z;
  pg_limit : Z
}.

Record MessagesBody := MkMessagesBody {
  mb_messages : list Message.t;
  mb_pagination : Pagination
}.

(** [messages[i], messages[opp] = messages[opp], messages[i]]; [None] is
    the index-out-of-range panic. *)
Definition swap {A} (i opp : nat) (messages : list A) : option (list A) :=
  match messages !! i, messages !! opp with
  | Some a, Some b => Some (<[opp := a]> (<[i := b]> messages))
  | _, _ => None
  end.

(** [for i := ...; i >= 0; i-- { opp := len(messages) - 1 - i; swap }],
    entered with [i = k - 1]. *)
Fixpoint reverse_loop {A} (k : nat) (messages : list A) : option (list A) :=
  match k with
  | 0 => Some messages
  | S i =>
      match swap i (length messages - 1 - i) messages with
      | Some messages' => reverse_loop i messages'
      | None => None
      end
  end.

(** The loop as [GetMessages] starts it: [i := len(messages)/2 - 1]. *)
Definition reverse_in_place {A} (messages : list A) : option (list A) :=
  reverse_loop (length messages / 2) messages.

(** The filter [{sender_id: sender, receiver_id: receiver, read: false}]
    of the two [UpdateMany] calls. *)
Definition unread_from (sender receiver : string) (m : Message.t) : bool :=
  bool_decide (Message.SenderID m = sender) &&
  bool_decide (Message.ReceiverID m = receiver) &&
  negb (Message.Read m).

(** [$set {read: true}] *)
Definition set_read (m : Message.t) : Message.t :=
  {| Message.ID := Message.ID m; Message.SenderID := Message.SenderID m;
     Message.ReceiverID := Message.ReceiverID m;
     Message.Content := Message.Content m; Message.Type_ := Message.Type_ m;
     Message.Read := true; Message.CreatedAt := Message.CreatedAt m |}.

(** [UpdateMany(ctx, {sender_id, receiver_id, read: false}, {$set: {read:
    true}})] on [messages]: the collection afterwards and
    [result.ModifiedCount]; [err] says whether the store failed, in which
    case the model leaves the collection alone. *)
Definition UpdateMany_read (err : bool) (sender receiver : string)
    (s : State) : State * Z :=
  if err then (s, 0%Z)
  else (set_messages
          (fmap (λ m, if unread_from sender receiver m then set_read m else m)) s,
        Z.of_nat (length (filter (λ m, unread_from sender receiver m = true)
                            (messages s)))).

(** [CountDocuments(ctx, {receiver_id: receiver, read: false})] *)
Definition count_unread (receiver : string) (s : State) : Z :=
  Z.of_nat (length (filter (λ m, Message.ReceiverID m = receiver
                                 ∧ Message.Read m = false) (messages s))).

Section ChatREST.

(** The store's [Find] on the messages collection is code outside src/. *)
Variable Find_messages : MessagesQuery → list Message.t → Found Message.t.

(** [GetMessages]. Its arguments are what the handler reads from the
    request: [c.Locals("user_id")], [c.Query("user_id")],
    [c.QueryInt("page", 1)], [c.QueryInt("limit", 50)]. The boolean of the
    result says whether the goroutine that marks messages as read was
    started. *)
Definition GetMessages (currentUserID otherUserID : string) (page limit : Z)
    (s : State) : Reply MessagesBody * bool :=
  if decide (otherUserID = ""%string)
  then (ErrorJSON StatusBadRequest "user_id parameter is required", false)
  else
    let limit := if (100 <? limit)%Z then 100%Z else limit in
    let skip := wrap ((page - 1) * limit) in
    match Find_messages
            {| q_current := currentUserID; q_other := otherUserID;
               q_skip := skip; q_limit := limit |} (messages s) with
    | FindError =>
        (ErrorJSON StatusInternalServerError "Failed to fetch messages", false)
    | DecodeError =>
        (ErrorJSON StatusInternalServerError "Failed to decode messages", false)
    | Docs messages =>
        match reverse_in_place messages with
        | None => (Panic, false)
        | Some messages =>
            (JSON {| mb_messages := messages;
                     mb_pagination := {| pg_page := page; pg_limit := limit |} |},
             true)
        end
    end.

End ChatREST.

(** The goroutine [GetMessages] starts: one [UpdateMany], result dropped. *)
Definition mark_read_task (err : bool) (currentUserID otherUserID : string)
    (s : State) : State :=
  (UpdateMany_read err otherUserID currentUserID s).1.

(** [MarkMessagesRead]; [otherUserID] is [c.Params("user_id")], the body
    of the answer is [messages_updated]. *)
Definition MarkMessagesRead (err : bool) (currentUserID otherUserID : string)
    (s : State) : Reply Z * State :=
  if decide (otherUserID = ""%string)
  then (ErrorJSON StatusBadRequest "user_id parameter is required", s)
  else
    if err
    then (ErrorJSON StatusInternalServerError "Failed to mark messages as read", s)
    else
      let '(s', modified) := UpdateMany_read false otherUserID currentUserID s in
      (JSON modified, s').

(** [GetUnreadCount]; the body of the answer is [unread_count]. *)
Definition GetUnreadCount (err : bool) (currentUserID : string) (s : State)
    : Reply Z :=
  if err
  then ErrorJSON StatusInternalServerError "Failed to get unread count"
  else JSON (count_unread currentUserID s).

(** ** controllers/user.go *)

(** The fields of [models.User] the controllers read and write; the
    document's [_id] is its key in the collection. *)
Module UserDoc.
Record t := Build {
  Username : string;
  Email : string;
  Bio : string;
  Avatar : string;
  Online : bool;
  LastSeen : Time;
  CreatedAt : Time
}.
End UserDoc.

(** [models.UpdateProfileRequest] *)
Module UpdateProfileRequest.
Record t := Build {
  Username : string;
  Bio : string;
  Avatar : string
}.
End UpdateProfileRequest.

(** [config.DB.Collection("users")] with the profile fields. *)
Abbreviation Users := (gmap string UserDoc.t).

(** [CountDocuments(ctx, {username: name, _id: {$ne: userID}})] *)
Definition count_username (name userID : string) (coll : Users) : Z :=
  Z.of_nat (size (filter (λ kv, UserDoc.Username kv.2 = name ∧ kv.1 ≠ userID)
                    coll)).

(** [$set: updateDoc] on one document; [updateDoc] is a [bson.M] whose
    values are strings. *)
Definition apply_set (updateDoc : gmap string string) (u : UserDoc.t)
    : UserDoc.t :=
  {| UserDoc.Username := default (UserDoc.Username u) (updateDoc !! "username"%string);
     UserDoc.Email := UserDoc.Email u;
     UserDoc.Bio := default (UserDoc.Bio u) (updateDoc !! "bio"%string);
     UserDoc.Avatar := default (UserDoc.Avatar u) (updateDoc !! "avatar"%string);
     UserDoc.Online := UserDoc.Online u;
     UserDoc.LastSeen := UserDoc.LastSeen u;
     UserDoc.CreatedAt := UserDoc.CreatedAt u |}.

(** What [UpdateProfile] reads from outside: whether the store's
    [CountDocuments] and [UpdateOne] calls fail. *)
Record ProfileEnv := MkProfileEnv {
  count_err : bool;
  profile_update_err : bool
}.

(** The first half of [UpdateProfile]: from the parsed body to
    [updateDoc], or the answer that ends the handler early. *)
Definition build_updateDoc (e : ProfileEnv) (userID : string)
    (input : UpdateProfileRequest.t) (coll : Users)
    : Reply string + gmap string string :=
  let updateDoc : gmap string string := ∅ in
  let with_username :=
    if decide (UpdateProfileRequest.Username input ≠ ""%string) then
      (* [count, _ := ...]: a failed count is read as 0 *)
      let count := if count_err e then 0%Z
                   else count_username (UpdateProfileRequest.Username input)
                          userID coll in
      if (0 <? count)%Z
      then inl (ErrorJSON StatusConflict "Username already taken")
      else inr (<["username"%string := UpdateProfileRequest.Username input]>
                  updateDoc)
    else inr updateDoc in
  match with_username with
  | inl r => inl r
  | inr updateDoc =>
      let with_bio :=
        if decide (UpdateProfileRequest.Bio input ≠ ""%string) then
          if 500 <? String.length (UpdateProfileRequest.Bio input)
          then inl (ErrorJSON StatusBadRequest
                      "Bio too long (max 500 characters)")
          else inr (<["bio"%string := UpdateProfileRequest.Bio input]> updateDoc)
        else inr updateDoc in
      match with_bio with
      | inl r => inl r
      | inr updateDoc =>
          let updateDoc :=
            if decide (UpdateProfileRequest.Avatar input ≠ ""%string)
            then <["avatar"%string := UpdateProfileRequest.Avatar input]> updateDoc
            else updateDoc in
          if decide (size updateDoc = 0)
          then inl (ErrorJSON StatusBadRequest "No fields to update")
          else inr updateDoc
      end
  end.

(** [UpdateProfile]; [input] is what [c.BodyParser] gave, [None] for its
    error. The body of a 200 answer is its [message]. *)
Definition UpdateProfile (e : ProfileEnv) (userID : string)
    (input : option UpdateProfileRequest.t) (coll : Users)
    : Reply string * Users :=
  match input with
  | None => (ErrorJSON StatusBadRequest "Invalid request format", coll)
  | Some input =>
      match build_updateDoc e userID input coll with
      | inl r => (r, coll)
      | inr updateDoc =>
          if profile_update_err e
          then (ErrorJSON StatusInternalServerError "Failed to update profile",
                coll)
          else (JSON "Profile updated successfully"%string,
                alter (apply_set updateDoc) userID coll)
      end
  end.

(** No two documents carry the same username. *)
Definition usernames_unique (coll : Users) : Prop :=
  ∀ i j u v, coll !! i = Some u → coll !! j = Some v →
    UserDoc.Username u = UserDoc.Username v → i = j.

(** What a field is after [$set] when the request carried [new]. *)
Definition updated (new old : string) : string :=
  if decide (new = ""%string) then old else new.

(** One entry of the [users] array [ListUsers] answers. *)
Record UserItem := MkUserItem {
  ui_id : string;
  ui_username : string;
  ui_bio : string;
  ui_avatar : string;
  ui_online : bool;
  ui_last_seen : Time
}.

(** The filter [ListUsers] builds. *)
Record UsersFilter := MkUsersFilter {
  f_ne_id : string;                 (* [_id: {$ne: currentUserID}] *)
  f_online : bool;                  (* [online: true] is present *)
  f_search : option string          (* the [$or] of the two regexes *)
}.

(** What [ListUsers] hands to [Find]: the filter and the options
    [SetSkip], [SetLimit] and [SetSort]. The sort is the [bson.M] the code
    writes, a Go map: keys with their directions, in no order. *)
Record UsersQuery := MkUsersQuery {
  uq_filter : UsersFilter;
  uq_skip : Z;
  uq_limit : Z;
  uq_sort : gmap string Z
}.

Record UsersBody := MkUsersBody {
  ub_users : list UserItem;
  ub_page : Z;
  ub_limit : Z;
  ub_total : Z;
  ub_total_pages : Z
}.

(** Go's [/] on [int64]: truncated, wrapping, panicking on zero. *)
Definition int64_div (a b : Z) : option Z :=
  if (b =? 0)%Z then None else Some (wrap (a ÷ b)).

Section UserREST.

(** [Find] on the users collection through the driver, at the moment of
    the call: [None] for its error, else the cursor's documents in order,
    each [None] where [cursor.Decode] fails. *)
Variable Find_users : UsersQuery → option (list (option UserItem)).

(** [CountDocuments] on the users collection: the count and whether the
    call failed. *)
Variable Count_users : UsersFilter → Z * bool.

(** [ListUsers]; [online] and [search] are the raw query parameters. *)
Definition ListUsers (currentUserID online search : string) (page limit : Z)
    : Reply UsersBody :=
  let limit := if (100 <? limit)%Z then 100%Z else limit in
  let skip := wrap ((page - 1) * limit) in
  let filter :=
    {| f_ne_id := currentUserID;
       f_online := bool_decide (online = "true"%string);
       f_search := if decide (search ≠ ""%string) then Some search else None |} in
  (* [SetSort(bson.M{"online": -1, "last_seen": -1})] *)
  let sort : gmap string Z :=
    {[ "online"%string := (-1)%Z; "last_seen"%string := (-1)%Z ]} in
  match Find_users {| uq_filter := filter; uq_skip := skip; uq_limit := limit;
                      uq_sort := sort |} with
  | None => ErrorJSON StatusInternalServerError "Failed to fetch users"
  | Some cursor =>
      (* [if err := cursor.Decode(&user); err != nil { continue }] *)
      let users := omap id cursor in
      let total := (Count_users filter).1 in
      match int64_div (wrap (total + limit - 1)) limit with
      | None => Panic
      | Some total_pages =>
          JSON {| ub_users := users; ub_page := page; ub_limit := limit;
                  ub_total := total; ub_total_pages := total_pages |}
      end
  end.

End UserREST.

(** * More examples *)

Module Scenes.

Import Example.

(** Alice (client 0) has written to Bob (client 1) three times; Bob's
    write pump has not run. *)
Definition bob_three : State := state_after (two_online ++ flood 3).

(** Alice, Bob and Carol (client 2) online, and Alice's read pump is
    handing the Hub a message for Bob. *)
Definition three_online : list Event :=
  two_online ++ [Connect (at_ 3) (dial "carol");
                 Inbound 0 (ok_env 7 4) (say "bob" "hi")].
Definition hi_pending : State := state_after three_online.
Definition hi : Message.t :=
  {| Message.ID := 7; Message.SenderID := "alice";
     Message.ReceiverID := "bob"; Message.Content := "hi";
     Message.Type_ := "text"; Message.Read := false;
     Message.CreatedAt := 4 |}.

(** A whole evening: Bob is flooded, evicted, drains a message, loses
    his socket, is unregistered, and Alice writes to him again. *)
Definition evening : list Event :=
  one_more ++ [TakeBroadcast 0] ++ aftermath.

(** Bob's write pump has met a failing socket and returned. *)
Definition bob_gone : State :=
  state_after (two_online ++ flood 3 ++ [Outbound 1 true]).

(** A store for examples: [Find] on the messages collection as the
    handlers use it. A negative skip is refused; a limit of 0 is no
    limit. *)
Definition between (a b : string) (m : Message.t) : bool :=
  (bool_decide (Message.SenderID m = a) && bool_decide (Message.ReceiverID m = b))
  || (bool_decide (Message.SenderID m = b) && bool_decide (Message.ReceiverID m = a)).

Definition newest_first (a b : Message.t) : Prop :=
  (Message.CreatedAt b ≤ Message.CreatedAt a)%Z.

#[global] Instance newest_first_dec a b : Decision (newest_first a b).
Proof. unfold newest_first. apply _. Defined.

Definition Find_messages (q : MessagesQuery) (coll : list Message.t)
    : Found Message.t :=
  if (q_skip q <? 0)%Z then FindError
  else
    let hits := merge_sort newest_first
                  (filter (λ m, between (q_current q) (q_other q) m = true) coll) in
    let rest := drop (Z.to_nat (q_skip q)) hits in
    Docs (if (q_limit q =? 0)%Z then rest
          else take (Z.to_nat (Z.abs (q_limit q))) rest).

Definition note (id : N) (from to : string) (t : Time) (read : bool)
    : Message.t :=
  {| Message.ID := id; Message.SenderID := from; Message.ReceiverID := to;
     Message.Content := "..."; Message.Type_ := "text"; Message.Read := read;
     Message.CreatedAt := t |}.

(** Bob has written to Alice three times and Carol once; Alice has
    answered Bob once and read his first message. *)
Definition inbox : State :=
  set_messages (λ _, [note 1 "bob" "alice" 10 true;
                      note 2 "alice" "bob" 11 false;
                      note 3 "bob" "alice" 12 false;
                      note 4 "carol" "alice" 13 false;
                      note 5 "bob" "alice" 14 false]) both_idle.

(** ... and has then marked Bob's messages as read. *)
Definition inbox_read : State :=
  (MarkMessagesRead false "alice" "bob" inbox).2.

Definition person (name bio : string) : UserDoc.t :=
  {| UserDoc.Username := name; UserDoc.Email := name +:+ "@example.org";
     UserDoc.Bio := bio; UserDoc.Avatar := "";
     UserDoc.Online := false; UserDoc.LastSeen := 0; UserDoc.CreatedAt := 0 |}.

Definition people : Users :=
  {[ "u1"%string := person "alice" "hello";
     "u2"%string := person "bob" "" ]}.

Definition store_up : ProfileEnv :=
  {| count_err := false; profile_update_err := false |}.

Definition new_bio (bio : string) : UpdateProfileRequest.t :=
  {| UpdateProfileRequest.Username := "";
     UpdateProfileRequest.Bio := bio;
     UpdateProfileRequest.Avatar := "" |}.

Definition rename (name : string) : UpdateProfileRequest.t :=
  {| UpdateProfileRequest.Username := name;
     UpdateProfileRequest.Bio := "";
     UpdateProfileRequest.Avatar := "" |}.

(** [u1] has taken the name carol. *)
Definition people_renamed : Users :=
  (UpdateProfile store_up "u1" (Some (rename "carol")) people).2.

(** [u1] has a new bio. *)
Definition people_away : Users :=
  (UpdateProfile store_up "u1" (Some (new_bio "away")) people).2.

Definition item (id : string) (u : UserDoc.t) : UserItem :=
  {| ui_id := id; ui_username := UserDoc.Username u; ui_bio := UserDoc.Bio u;
     ui_avatar := UserDoc.Avatar u; ui_online := UserDoc.Online u;
     ui_last_seen := UserDoc.LastSeen u |}.

(** A users collection of 41 documents seen from [u1], behind a driver
    that, like the Go driver, refuses a sort given as a map of more than
    one key: otherwise [Find] answers the same two documents whatever
    the page, the second of which does not decode; [CountDocuments]
    answers 41. *)
Definition Find_users (q : UsersQuery) : option (list (option UserItem)) :=
  if 1 <? size (uq_sort q) then None
  else if (uq_skip q <? 0)%Z then None
  else Some [Some (item "u2" (person "bob" "")); None].

Definition Count_users (f : UsersFilter) : Z * bool := (41%Z, false).

End Scenes.

(** * Proofs *)

(** ** How the updates act on the components of the state *)

Lemma UpdateOne_Clients err id f s : Clients (UpdateOne err id f s) = Clients s.
Proof. unfold UpdateOne. by destruct err. Qed.

Lemma UpdateOne_heap err id f s : heap (UpdateOne err id f s) = heap s.
Proof. unfold UpdateOne. by destruct err. Qed.

Lemma UpdateOne_messages err id f s : messages (UpdateOne err id f s) = messages s.
Proof. unfold UpdateOne. by destruct err. Qed.

Lemma UpdateOne_dispatched err id f s :
  dispatched (UpdateOne err id f s) = dispatched s.
Proof. unfold UpdateOne. by destruct err. Qed.

Lemma UpdateOne_users err id f s :
  users (UpdateOne err id f s) = if err then users s else alter f id (users s).
Proof. unfold UpdateOne. by destruct err. Qed.

Lemma UpdateOne_other err id f s u :
  u ≠ id → users (UpdateOne err id f s) !! u = users s !! u.
Proof.
  intros Hne. rewrite UpdateOne_users. destruct err; [done|].
  by rewrite lookup_alter_ne.
Qed.

Lemma UpdateOne_last_seen_online err id t s u :
  online_of (UpdateOne err id (set_last_seen t) s) u = online_of s u.
Proof.
  unfold online_of. rewrite UpdateOne_users. destruct err; [done|].
  destruct (decide (id = u)) as [->|Hne].
  - rewrite lookup_alter_eq. by destruct (users s !! u).
  - by rewrite lookup_alter_ne.
Qed.

Create Rewrite HintDb state.
#[local] Hint Rewrite UpdateOne_Clients UpdateOne_heap UpdateOne_messages
  UpdateOne_dispatched : state.

Lemma update_client_Clients p f s : Clients (update_client p f s) = Clients s.
Proof. done. Qed.

Lemma update_client_users p f s : users (update_client p f s) = users s.
Proof. done. Qed.

Lemma update_client_messages p f s : messages (update_client p f s) = messages s.
Proof. done. Qed.

Lemma update_client_dispatched p f s :
  dispatched (update_client p f s) = dispatched s.
Proof. done. Qed.

#[local] Hint Rewrite update_client_Clients update_client_users
  update_client_messages update_client_dispatched : state.

Ltac state_simpl :=
  repeat (progress (autorewrite with state in *; cbn [Clients heap users messages
    dispatched logs set_Clients set_heap set_users set_messages set_dispatched
    log_Printf outcome_state] in * )).

(** A client keeps its identity and its place under [update_client]. *)
Lemma lookup_update_client p f s q :
  heap (update_client p f s) !! q
  = if decide (p = q) then f <$> heap s !! q else heap s !! q.
Proof.
  unfold update_client, set_heap. cbn [heap]. rewrite list_lookup_alter.
  repeat case_decide; by subst.
Qed.

(** ** Channels *)

Lemma close_open ch :
  closed ch = false → close ch = Some (MkChan (buf ch) (cap ch) true).
Proof. unfold close. by intros ->. Qed.

Lemma close_closed ch : closed ch = true → close ch = None.
Proof. unfold close. by intros ->. Qed.

Lemma try_send_room ch m :
  closed ch = false → length (buf ch) < cap ch →
  try_send ch m = Sent (MkChan (buf ch ++ [m]) (cap ch) false).
Proof.
  unfold try_send. intros -> Hlt.
  by rewrite (proj2 (Nat.ltb_lt _ _) Hlt).
Qed.

Lemma try_send_full ch m :
  closed ch = false → cap ch ≤ length (buf ch) → try_send ch m = WouldBlock.
Proof.
  unfold try_send. intros -> Hle.
  by rewrite (proj2 (Nat.ltb_ge _ _) Hle).
Qed.

(** ** One delivery attempt of the Hub *)

Lemma deliver_absent id m s : Clients s !! id = None → deliver id m s = Alive s.
Proof. unfold deliver. by intros ->. Qed.

Lemma deliver_room id m s p cl :
  Clients s !! id = Some p → heap s !! p = Some cl →
  closed (Send cl) = false → length (buf (Send cl)) < cap (Send cl) →
  deliver id m s
  = Alive (update_client p
             (with_Send (MkChan (buf (Send cl) ++ [m]) (cap (Send cl)) false)) s).
Proof.
  intros Hreg Hcl Hopen Hlt. unfold deliver.
  by rewrite Hreg, Hcl, try_send_room.
Qed.

Lemma deliver_full id m s p cl :
  Clients s !! id = Some p → heap s !! p = Some cl →
  closed (Send cl) = false → cap (Send cl) ≤ length (buf (Send cl)) →
  deliver id m s
  = Alive (update_client p
             (with_Send (MkChan (buf (Send cl)) (cap (Send cl)) true))
             (set_Clients (delete id) s)).
Proof.
  intros Hreg Hcl Hopen Hle. unfold deliver.
  by rewrite Hreg, Hcl, try_send_full, close_open.
Qed.

(** ** Preservation of the invariant by the elementary updates *)

(** [inv] reads the registry, the heap and the two message lists only. *)
Lemma inv_frame s s' :
  inv s → Clients s' = Clients s → heap s' = heap s →
  messages s' = messages s → dispatched s' = dispatched s → inv s'.
Proof.
  intros [H1 H2 H3 H4] Hc Hh Hm Hd.
  split; unfold registry_ok, sends_ok; rewrite ?Hc, ?Hh, ?Hm, ?Hd; done.
Qed.

Lemma inv_UpdateOne err id f s : inv s → inv (UpdateOne err id f s).
Proof. intros H. eapply inv_frame; [done|by autorewrite with state..]. Qed.

Lemma inv_log_Printf line s : inv s → inv (log_Printf line s).
Proof. intros H. by eapply inv_frame. Qed.

(** An update in place that keeps the identity, the state of the queue
    (open or closed) and does not invent a pending send. *)
Lemma inv_update_client p f s :
  inv s →
  (∀ cl, heap s !! p = Some cl →
     UserID (f cl) = UserID cl ∧
     closed (Send (f cl)) = closed (Send cl) ∧
     ∀ m, readPump (f cl) = SendingBroadcast m → readPump cl = SendingBroadcast m) →
  inv (update_client p f s).
Proof.
  intros [H1 H2 H3 H4] Hf. split; [| |done|done].
  - intros u q Hu. destruct (H1 u q Hu) as (cl & Hcl & Hid & Hopen).
    rewrite lookup_update_client. case_decide as Hpq; [subst q|by eauto].
    rewrite Hcl. destruct (Hf cl Hcl) as (Hf1 & Hf2 & _).
    exists (f cl). by rewrite Hf1, Hf2.
  - intros q cl' m. rewrite lookup_update_client.
    case_decide as Hpq; [subst q|by apply H2].
    destruct (heap s !! p) as [cl|] eqn:Hcl; [|done].
    intros [= <-] Hpend. destruct (Hf cl eq_refl) as (Hf1 & _ & Hf3).
    rewrite Hf1. eapply H2; eauto.
Qed.

(** Dropping the registry entry of a client's identity licenses any update
    of that client's queue. *)
Lemma inv_drop p cl f s :
  inv s → heap s !! p = Some cl →
  (UserID (f cl) = UserID cl ∧
   ∀ m, readPump (f cl) = SendingBroadcast m → readPump cl = SendingBroadcast m) →
  inv (update_client p f (set_Clients (delete (UserID cl)) s)).
Proof.
  intros [H1 H2 H3 H4] Hcl [Hf1 Hf3]. split; [| |done|done].
  - intros u q. cbn [Clients update_client set_heap set_Clients].
    rewrite lookup_delete_Some. intros [Hne Hu].
    destruct (H1 u q Hu) as (cl' & Hcl' & Hid & Hopen).
    rewrite lookup_update_client. case_decide as Hpq; [|by eauto].
    subst q. congruence.
  - intros q cl' m. rewrite lookup_update_client.
    case_decide as Hpq; [subst q|by apply H2].
    cbn [heap set_Clients]. rewrite Hcl. intros [= <-] Hpend.
    rewrite Hf1. eapply H2; eauto.
Qed.

(** ** The Hub's delivery attempt, case by case *)

Lemma deliver_cases id m s : registry_ok s → deliver_case id m s (deliver id m s).
Proof.
  intros Hreg. destruct (Clients s !! id) as [p|] eqn:Hid.
  - destruct (Hreg id p Hid) as (cl & Hcl & Hu & Hopen).
    destruct (decide (length (buf (Send cl)) < cap (Send cl))) as [Hlt|Hge].
    + rewrite (deliver_room id m s p cl) by done. by eapply deliver_enqueued.
    + rewrite (deliver_full id m s p cl) by (done || lia).
      eapply deliver_evicted; eauto. lia.
  - rewrite deliver_absent by done. by constructor.
Qed.

Lemma deliver_inv id m s :
  inv s → ∃ s', deliver id m s = Alive s' ∧ inv s'
    ∧ users s' = users s ∧ messages s' = messages s
    ∧ dispatched s' = dispatched s ∧ logs s' = logs s.
Proof.
  intros Hinv. destruct (deliver_cases id m s (inv_registry s Hinv))
    as [Hid|p cl Hid Hcl Hu Hopen Hlt|p cl Hid Hcl Hu Hopen Hge].
  - by exists s.
  - eexists; split; [done|]. split; [|done].
    apply inv_update_client; [done|]. intros cl' Hcl'.
    assert (cl' = cl) as -> by congruence. by rewrite Hopen.
  - eexists; split; [done|]. split; [|done].
    rewrite <- Hu. by apply inv_drop.
Qed.

(** ** The three cases of Hub.run *)

Lemma on_Broadcast_inv m s :
  inv s → m ∈ messages s →
  ∃ s', on_Broadcast m s = Alive s' ∧ inv s'
    ∧ users s' = users s ∧ messages s' = messages s
    ∧ dispatched s' = dispatched s ++ [m] ∧ logs s' = logs s.
Proof.
  intros Hinv Hm. unfold on_Broadcast.
  set (s0 := set_dispatched (λ l, l ++ [m]) s).
  assert (inv s0) as Hinv0.
  { destruct Hinv as [H1 H2 H3 H4]. split; [done..|].
    intros m'. cbn. rewrite elem_of_app, list_elem_of_singleton.
    intros [?| ->]; auto. }
  destruct (deliver_inv (Message.ReceiverID m) m s0 Hinv0)
    as (s1 & -> & Hinv1 & Hu1 & Hm1 & Hd1 & Hl1).
  destruct (deliver_inv (Message.SenderID m) m s1 Hinv1)
    as (s2 & -> & Hinv2 & Hu2 & Hm2 & Hd2 & Hl2).
  exists s2. by rewrite Hu2, Hu1, Hm2, Hm1, Hd2, Hd1, Hl2, Hl1.
Qed.

(** An Unregister the Hub skips: the identity has no registry entry. *)
Lemma on_Unregister_skipped e client cl s :
  heap s !! client = Some cl → Clients s !! UserID cl = None →
  on_Unregister e client s = Alive s.
Proof. intros Hcl Hnone. unfold on_Unregister. by rewrite Hcl, Hnone. Qed.

(** An Unregister the Hub carries out. *)
Lemma on_Unregister_done e client cl p s :
  heap s !! client = Some cl → Clients s !! UserID cl = Some p →
  closed (Send cl) = false →
  on_Unregister e client s
  = Alive (log_Printf ("User " +:+ UserID cl +:+ " disconnected")
      (UpdateOne (update_err e) (UserID cl) (set_online false (now e))
        (update_client client
           (with_Send (MkChan (buf (Send cl)) (cap (Send cl)) true))
           (set_Clients (delete (UserID cl)) s)))).
Proof.
  intros Hcl Hreg Hopen. unfold on_Unregister.
  by rewrite Hcl, Hreg, close_open.
Qed.

(** An Unregister that aborts the process: the identity has an entry, and
    the queue of the client being unregistered is already closed. *)
Lemma on_Unregister_double_close e client cl p s :
  heap s !! client = Some cl → Clients s !! UserID cl = Some p →
  closed (Send cl) = true →
  on_Unregister e client s = Crashed (set_Clients (delete (UserID cl)) s).
Proof.
  intros Hcl Hreg Hopen. unfold on_Unregister.
  by rewrite Hcl, Hreg, close_closed.
Qed.

Lemma on_Unregister_inv e client s s' :
  inv s → on_Unregister e client s = Alive s' → inv s'.
Proof.
  intros Hinv. unfold on_Unregister.
  destruct (heap s !! client) as [cl|] eqn:Hcl; [|done].
  destruct (Clients s !! UserID cl) as [p|] eqn:Hreg; [|by intros [= <-]].
  destruct (close (Send cl)) as [ch|]; [|done]. intros [= <-].
  apply inv_log_Printf, inv_UpdateOne. by apply inv_drop.
Qed.

Lemma on_Register_fresh e userID c s :
  on_Register e (length (heap s))
    (set_heap (λ h, h ++ [new_Client c userID]) s)
  = Alive (log_Printf ("User " +:+ userID +:+ " connected")
      (UpdateOne (update_err e) userID (set_online true (now e))
        (set_Clients <[userID := length (heap s)]>
           (set_heap (λ h, h ++ [new_Client c userID]) s)))).
Proof.
  unfold on_Register. cbn [heap set_heap].
  by rewrite lookup_app_r, Nat.sub_diag by lia.
Qed.


(** ** What one delivery attempt does to its target and to everyone else *)

Lemma queue_of_update_client p f s q :
  (∀ cl, Send (f cl) = Send cl) →
  queue_of (update_client p f s) q = queue_of s q.
Proof.
  intros Hf. unfold queue_of. rewrite lookup_update_client.
  case_decide; [|done]. destruct (heap s !! q); cbn; [|done]. by rewrite Hf.
Qed.

Lemma deliver_target id m s s' p t :
  registry_ok s → deliver id m s = Alive s' →
  Clients s !! id = Some p → heap s !! p = Some t →
  (cap (Send t) ≤ length (buf (Send t)) →
     Clients s' !! id = None ∧
     heap s' !! p = Some (with_Send (MkChan (buf (Send t)) (cap (Send t)) true) t)) ∧
  (length (buf (Send t)) < cap (Send t) →
     Clients s' !! id = Some p ∧
     heap s' !! p
     = Some (with_Send (MkChan (buf (Send t) ++ [m]) (cap (Send t)) false) t)).
Proof.
  intros Hreg Hdel Hid Ht.
  destruct (deliver_cases id m s Hreg)
    as [Hnone|p' cl Hid' Hcl Hu Hopen Hlt|p' cl Hid' Hcl Hu Hopen Hge];
    [congruence| |].
  all: assert (p' = p) as -> by congruence.
  all: assert (cl = t) as -> by congruence.
  all: injection Hdel as <-.
  all: split; intros Hsize; [|].
  all: try lia.
  - split; [done|]. rewrite lookup_update_client, decide_True by done.
    by rewrite Ht.
  - split; [apply lookup_delete_eq|].
    rewrite lookup_update_client, decide_True by done. cbn [heap set_Clients].
    by rewrite Ht.
Qed.

Lemma deliver_bystander id m s s' :
  registry_ok s → deliver id m s = Alive s' →
  (∀ id', id' ≠ id → Clients s' !! id' = Clients s !! id') ∧
  (∀ p t, heap s !! p = Some t → UserID t ≠ id → heap s' !! p = Some t).
Proof.
  intros Hreg Hdel.
  destruct (deliver_cases id m s Hreg)
    as [Hnone|p' cl Hid' Hcl Hu Hopen Hlt|p' cl Hid' Hcl Hu Hopen Hge];
    injection Hdel as <-; (split; [intros id' Hne|intros p t Ht Hother]);
    try done.
  - rewrite lookup_update_client. case_decide; [congruence|done].
  - cbn [Clients update_client set_heap set_Clients]. by apply lookup_delete_ne.
  - rewrite lookup_update_client. case_decide; [congruence|done].
Qed.

Lemma deliver_registry_ok id m s s' :
  registry_ok s → deliver id m s = Alive s' → registry_ok s'.
Proof.
  intros Hreg Hdel.
  destruct (deliver_cases id m s Hreg)
    as [Hnone|p' cl Hid' Hcl Hu Hopen Hlt|p' cl Hid' Hcl Hu Hopen Hge];
    injection Hdel as <-; [done| |].
  - intros u q Hu'. destruct (Hreg u q Hu') as (cl' & Hcl' & Hid'' & Ho).
    rewrite lookup_update_client. case_decide; [subst q|by eauto].
    rewrite Hcl'. by eexists.
  - intros u q. cbn [Clients update_client set_heap set_Clients].
    rewrite lookup_delete_Some. intros [Hne Hu'].
    destruct (Hreg u q Hu') as (cl' & Hcl' & Hid'' & Ho).
    rewrite lookup_update_client. case_decide; [subst q|by eauto].
    congruence.
Qed.

(** What a dispatch does to either party of the message, whatever happens
    to the other one. *)
Lemma on_Broadcast_party m s s' id p t :
  registry_ok s → not_self m → on_Broadcast m s = Alive s' →
  id = Message.ReceiverID m ∨ id = Message.SenderID m →
  Clients s !! id = Some p → heap s !! p = Some t →
  (cap (Send t) ≤ length (buf (Send t)) →
     Clients s' !! id = None ∧
     heap s' !! p = Some (with_Send (MkChan (buf (Send t)) (cap (Send t)) true) t)) ∧
  (length (buf (Send t)) < cap (Send t) →
     Clients s' !! id = Some p ∧
     heap s' !! p
     = Some (with_Send (MkChan (buf (Send t) ++ [m]) (cap (Send t)) false) t)).
Proof.
  intros Hreg Hns. unfold on_Broadcast.
  set (s0 := set_dispatched (λ l, l ++ [m]) s).
  assert (registry_ok s0) as Hreg0 by done.
  destruct (deliver (Message.ReceiverID m) m s0) as [s1|] eqn:Hd1; [|done].
  intros Hd2 Hparty Hid Ht.
  assert (registry_ok s1) as Hreg1 by (by eapply deliver_registry_ok).
  destruct (Hreg id p Hid) as (t' & Ht' & Hut & _).
  assert (t' = t) as -> by congruence.
  destruct (deliver_bystander _ m s0 s1 Hreg0 Hd1) as [Hc1 Hh1].
  destruct (deliver_bystander _ m s1 s' Hreg1 Hd2) as [Hc2 Hh2].
  destruct Hparty as [->| ->].
  - destruct (deliver_target _ m s0 s1 p t Hreg0 Hd1 Hid Ht) as [Hfull Hroom].
    split; intros Hsize.
    + destruct (Hfull Hsize) as [Hgone Hq]. split.
      * rewrite Hc2; [done|]. unfold not_self in Hns. congruence.
      * apply Hh2; [done|]. cbn. unfold not_self in Hns. congruence.
    + destruct (Hroom Hsize) as [Hstay Hq]. split.
      * rewrite Hc2; [done|]. unfold not_self in Hns. congruence.
      * apply Hh2; [done|]. cbn. unfold not_self in Hns. congruence.
  - assert (Clients s1 !! Message.SenderID m = Some p) as Hid1.
    { rewrite Hc1; [done|]. done. }
    assert (heap s1 !! p = Some t) as Ht1.
    { apply Hh1; [done|]. unfold not_self in Hns. congruence. }
    exact (deliver_target _ m s1 s' p t Hreg1 Hd2 Hid1 Ht1).
Qed.

(** ** What the Hub never touches, even when it aborts *)

Lemma identity_update_client p f s q t :
  (∀ cl, UserID (f cl) = UserID cl) →
  heap s !! q = Some t →
  ∃ t', heap (update_client p f s) !! q = Some t' ∧ UserID t' = UserID t.
Proof.
  intros Hf Ht. rewrite lookup_update_client. case_decide; [|by eauto].
  rewrite Ht. eexists; split; [done|]. apply Hf.
Qed.

Lemma deliver_quiet id' m s :
  let s1 := outcome_state (deliver id' m s) in
  users s1 = users s ∧
  (∀ id, Clients s !! id = None → Clients s1 !! id = None) ∧
  (∀ q t, heap s !! q = Some t →
     ∃ t', heap s1 !! q = Some t' ∧ UserID t' = UserID t).
Proof.
  unfold deliver.
  destruct (Clients s !! id') as [p|] eqn:Hp; [|by eauto].
  destruct (heap s !! p) as [cl|] eqn:Hcl; [|by eauto].
  destruct (try_send (Send cl) m) as [ch| |]; [| |by eauto].
  - cbn. split; [done|]. split; [done|]. intros q t.
    by apply identity_update_client.
  - assert (∀ id, Clients s !! id = None → delete id' (Clients s) !! id = None)
      as Hdel.
    { intros id Hid. rewrite lookup_delete_None. by right. }
    destruct (close (Send cl)) as [ch|]; cbn; (split; [done|]);
      (split; [done|]); [|by eauto].
    intros q t Ht. by apply identity_update_client.
Qed.

Lemma on_Broadcast_quiet m s :
  let s1 := outcome_state (on_Broadcast m s) in
  users s1 = users s ∧
  (∀ id, Clients s !! id = None → Clients s1 !! id = None) ∧
  (∀ q t, heap s !! q = Some t →
     ∃ t', heap s1 !! q = Some t' ∧ UserID t' = UserID t).
Proof.
  unfold on_Broadcast. set (s0 := set_dispatched (λ l, l ++ [m]) s).
  destruct (deliver_quiet (Message.ReceiverID m) m s0) as (Hu1 & Hc1 & Hh1).
  destruct (deliver (Message.ReceiverID m) m s0) as [s1|s1]; cbn in *;
    [|by eauto].
  destruct (deliver_quiet (Message.SenderID m) m s1) as (Hu2 & Hc2 & Hh2).
  cbn in *. split; [congruence|]. split; [by auto|].
  intros q t Ht. destruct (Hh1 q t Ht) as (t1 & Ht1 & Hid1).
  destruct (Hh2 q t1 Ht1) as (t2 & Ht2 & Hid2). exists t2. split; [done|].
  congruence.
Qed.

Lemma on_Unregister_quiet e client s :
  let s1 := outcome_state (on_Unregister e client s) in
  (∀ id, Clients s !! id = None →
     Clients s1 !! id = None ∧ users s1 !! id = users s !! id) ∧
  (∀ q t, heap s !! q = Some t →
     ∃ t', heap s1 !! q = Some t' ∧ UserID t' = UserID t).
Proof.
  unfold on_Unregister.
  destruct (heap s !! client) as [cl|] eqn:Hcl; [|by eauto].
  destruct (Clients s !! UserID cl) as [p|] eqn:Hp; [|by eauto].
  assert (∀ id, Clients s !! id = None →
            delete (UserID cl) (Clients s) !! id = None) as Hdel.
  { intros id Hid. rewrite lookup_delete_None. by right. }
  destruct (close (Send cl)) as [ch|]; cbn [outcome_state].
  - split.
    + intros id Hid. state_simpl. split; [by auto|].
      rewrite UpdateOne_other by congruence. done.
    + intros q t Ht.
      destruct (identity_update_client client (with_Send ch)
                  (set_Clients (delete (UserID cl)) s) q t) as (t' & Ht' & Hid);
        [done|done|].
      exists t'. by state_simpl.
  - split; [by auto|by eauto].
Qed.

(** Two Unregisters of one client in a row: the second is skipped. *)
Lemma on_Unregister_twice e e' client s s' :
  on_Unregister e client s = Alive s' → on_Unregister e' client s' = Alive s'.
Proof.
  unfold on_Unregister at 1.
  destruct (heap s !! client) as [cl|] eqn:Hcl; [|done].
  destruct (Clients s !! UserID cl) as [p|] eqn:Hreg.
  - destruct (close (Send cl)) as [ch|]; [|done]. intros [= <-].
    unfold on_Unregister. state_simpl.
    unfold update_client, set_heap. cbn [heap set_Clients Clients].
    rewrite list_lookup_alter_eq, Hcl. cbn.
    by rewrite lookup_delete_eq.
  - intros [= <-]. unfold on_Unregister. by rewrite Hcl, Hreg.
Qed.

Section ChatProofs.

Variable Validate : SendMessageRequest.t → list string.
Variable jwt_Parse : string → string → Token * bool.
Variable Getenv : string → string.

Abbreviation WebSocketChat := (WebSocketChat jwt_Parse Getenv).
Abbreviation readPump_body := (readPump_body Validate).
Abbreviation step := (step Validate jwt_Parse Getenv).
Abbreviation run := (run Validate jwt_Parse Getenv).
Abbreviation reachable := (reachable Validate jwt_Parse Getenv).
Abbreviation certifies := (certifies jwt_Parse Getenv).
Abbreviation body_case := (body_case Validate).
Abbreviation never_registered := (never_registered Validate jwt_Parse Getenv).

(** *** The handshake *)

Lemma handler_end_state e c userID s :
  let client := length (heap s) in
  update_client client (with_readPump Reading)
    (update_client client (with_writePump true)
      (log_Printf ("User " +:+ userID +:+ " connected")
        (UpdateOne (update_err e) userID (set_online true (now e))
          (set_Clients <[userID := client]>
             (set_heap (λ h, h ++ [new_Client c userID]) s)))))
  = joined e c userID s.
Proof.
  unfold joined, UpdateOne.
  destruct (update_err e);
    unfold update_client, log_Printf, set_users, set_Clients, set_heap;
    cbn [heap Clients users messages dispatched logs];
    rewrite !(alter_app_r_alt _ (heap s)) by lia;
    by rewrite Nat.sub_diag.
Qed.

Lemma WebSocketChat_accepts e c userID s :
  certifies c userID →
  WebSocketChat e c s = Accepted (Alive (joined e c userID s)).
Proof.
  intros (Htok & token & claims & Hp & Hv & Hc & Hid & Hne).
  unfold WebSocketChat. rewrite decide_False by done.
  rewrite Hp, Hv, Hc, Hid. cbn [orb negb]. rewrite decide_False by done.
  by rewrite on_Register_fresh, handler_end_state.
Qed.

Lemma WebSocketChat_refuses e c s :
  (∀ userID, ¬ certifies c userID) →
  WebSocketChat e c s = Refused (Close c).
Proof.
  intros Hno. unfold WebSocketChat.
  case_decide as Htok; [done|].
  destruct (jwt_Parse _ _) as [token err] eqn:Hp.
  destruct err; [done|]. destruct (Valid token) eqn:Hv; [|done].
  cbn [orb negb].
  destruct (Claims_ token) as [claims|] eqn:Hc; [|done].
  destruct (claims !! "user_id"%string) as [[userID| | |]|] eqn:Hid; try done.
  case_decide as Hne; [done|].
  destruct (Hno userID). split; [done|]. by exists token, claims.
Qed.

Lemma WebSocketChat_cases e c s :
  WebSocketChat e c s = Refused (Close c) ∨
  ∃ userID, certifies c userID ∧
    WebSocketChat e c s = Accepted (Alive (joined e c userID s)).
Proof.
  unfold WebSocketChat at 1.
  case_decide as Htok; [by left|].
  destruct (jwt_Parse _ _) as [token err] eqn:Hp.
  destruct err; [by left|]. destruct (Valid token) eqn:Hv; [|by left].
  cbn [orb negb].
  destruct (Claims_ token) as [claims|] eqn:Hc; [|by left].
  destruct (claims !! "user_id"%string) as [[userID| | |]|] eqn:Hid;
    try by left.
  case_decide as Hne; [by left|].
  right. exists userID.
  assert (certifies c userID) as Hcert.
  { split; [done|]. by exists token, claims. }
  split; [done|]. rewrite <- (WebSocketChat_accepts e c userID s Hcert).
  unfold WebSocketChat. rewrite decide_False by done.
  rewrite Hp, Hv, Hc, Hid. cbn [orb negb]. by rewrite decide_False by done.
Qed.

Lemma joined_inv e c userID s : inv s → inv (joined e c userID s).
Proof.
  intros [H1 H2 H3 H4]. unfold joined.
  apply inv_log_Printf, inv_UpdateOne. split; [| |done|done].
  - intros u p. cbn [Clients heap set_Clients set_heap].
    rewrite lookup_insert_Some. intros [[<- <-]|[Hne Hu]].
    + exists (started c userID).
      by rewrite lookup_app_r, Nat.sub_diag by lia.
    + destruct (H1 u p Hu) as (cl & Hcl & Hid & Hopen).
      exists cl. by rewrite lookup_app_l by (by eapply lookup_lt_Some).
  - intros p cl m. cbn [heap messages set_Clients set_heap].
    rewrite lookup_app_Some. intros [Hcl|[_ Hcl]]; [by eapply H2|].
    apply list_lookup_singleton_Some in Hcl as [_ <-]. done.
Qed.

(** *** The body of the read loop, gate by gate *)

Lemma body_read_error e u s : readPump_body e u ReadError s = (s, Break).
Proof. done. Qed.

Lemma body_invalid e u msgReq s :
  Validate msgReq ≠ [] → readPump_body e u (Decoded msgReq) s = (s, Continue).
Proof.
  intros Hbad. cbn. destruct (Validate msgReq); [done|]. done.
Qed.

Lemma body_self_addressed e u msgReq s :
  SendMessageRequest.ReceiverID msgReq = u →
  readPump_body e u (Decoded msgReq) s = (s, Continue).
Proof.
  intros Hself. cbn. destruct (Validate msgReq); cbn; [|done].
  by rewrite decide_True.
Qed.

Lemma body_insert_failed e u msgReq err s :
  Validate msgReq = [] → SendMessageRequest.ReceiverID msgReq ≠ u →
  insert_err e = Some err →
  readPump_body e u (Decoded msgReq) s
  = (log_Printf ("Failed to save message: " +:+ err) s, Continue).
Proof.
  intros Hok Hother Herr. cbn. rewrite Hok. cbn.
  by rewrite decide_False, Herr.
Qed.

Lemma body_persisted e u msgReq s :
  Validate msgReq = [] → SendMessageRequest.ReceiverID msgReq ≠ u →
  insert_err e = None →
  readPump_body e u (Decoded msgReq) s
  = (UpdateOne (seen_err e) u (set_last_seen (seen_now e))
       (set_messages (λ l, l ++ [message_of e u msgReq]) s),
     ToBroadcast (message_of e u msgReq)).
Proof.
  intros Hok Hother Herr. cbn. rewrite Hok. cbn.
  by rewrite decide_False, Herr.
Qed.

Lemma body_cases e u r s : body_case e u s r (readPump_body e u r s).
Proof.
  destruct r as [|msgReq]; [constructor|].
  destruct (decide (Validate msgReq = [])) as [Hok|Hbad].
  - destruct (decide (SendMessageRequest.ReceiverID msgReq = u)) as [Hs|Hs].
    + rewrite body_self_addressed by done. by apply body_drop_self.
    + destruct (insert_err e) as [err|] eqn:Herr.
      * rewrite (body_insert_failed _ _ _ err) by done.
        by apply body_drop_unsaved.
      * rewrite body_persisted by done. by apply body_saved.
  - rewrite body_invalid by done. by apply body_drop_invalid.
Qed.

(** *** The invariant holds in every reachable state *)

Lemma inv_empty_db U : inv (empty_db U).
Proof.
  split; cbn; done.
Qed.

Lemma Inbound_inv client cl e r s :
  inv s → heap s !! client = Some cl → readPump cl = Reading →
  inv (update_client client
         (with_readPump (after_body (readPump_body e (UserID cl) r s).2))
         (readPump_body e (UserID cl) r s).1).
Proof.
  intros Hinv Hcl Hrd.
  destruct (body_cases e (UserID cl) r s)
    as [|msgReq Hbad|msgReq Hok Hself|msgReq err Hok Hother Herr
        |msgReq Hok Hother Herr]; cbn [fst snd after_body].
  1-3: apply inv_update_client; [done|]; intros cl' _; by cbn.
  - apply inv_update_client; [by apply inv_log_Printf|].
    intros cl' _. by cbn.
  - set (m := message_of e (UserID cl) msgReq).
    destruct Hinv as [H1 H2 H3 H4]. split.
    + intros u p. state_simpl. intros Hu.
      destruct (H1 u p Hu) as (cl' & Hcl' & Hid & Hopen).
      setoid_rewrite lookup_update_client. state_simpl.
      case_decide; [subst p|by eauto].
      rewrite Hcl'. by exists (with_readPump (SendingBroadcast m) cl').
    + intros p cl' m'. rewrite lookup_update_client. state_simpl.
      rewrite elem_of_app, list_elem_of_singleton.
      case_decide; [subst p|].
      * rewrite Hcl. intros [= <-]. cbn. intros [= <-].
        split; [done|]. split; [|by right]. unfold not_self. cbn. congruence.
      * intros Hcl' Hp. destruct (H2 p cl' m' Hcl' Hp) as (?&?&?). auto.
    + state_simpl. apply Forall_app. split; [done|].
      apply Forall_singleton. unfold not_self. cbn. congruence.
    + intros m'. state_simpl. rewrite elem_of_app. auto.
Qed.

Lemma step_inv s ev s' : inv s → step s ev = Alive s' → inv s'.
Proof.
  intros Hinv. destruct ev as [e c|client e r|client|e client|client werr|client werr];
    cbn [step].
  - destruct (WebSocketChat_cases e c s) as [->|(userID & _ & ->)].
    + by intros [= <-].
    + intros [= <-]. by apply joined_inv.
  - destruct (heap s !! client) as [cl|] eqn:Hcl; [|by intros [= <-]].
    destruct (readPump cl) eqn:Hrd; try by intros [= <-].
    pose proof (Inbound_inv client cl e r s Hinv Hcl Hrd) as Hnext.
    destruct (readPump_body e (UserID cl) r s) as [s1 fl].
    by intros [= <-].
  - destruct (heap s !! client) as [cl|] eqn:Hcl; [|by intros [= <-]].
    destruct (readPump cl) as [|m| |] eqn:Hrd; try by intros [= <-].
    destruct (inv_sends s Hinv client cl m Hcl Hrd) as (_ & _ & Hm).
    destruct (on_Broadcast_inv m s Hinv Hm) as (s1 & -> & Hinv1 & _).
    intros [= <-]. apply inv_update_client; [done|]. intros cl' _. by cbn.
  - destruct (heap s !! client) as [cl|] eqn:Hcl; [|by intros [= <-]].
    destruct (readPump cl) eqn:Hrd; try by intros [= <-].
    destruct (on_Unregister e client s) as [s1|s1] eqn:Hun; [|done].
    intros [= <-]. apply on_Unregister_inv in Hun; [|done].
    apply inv_update_client; [apply inv_update_client; [done|]|];
      intros cl' _; by cbn.
  - destruct (heap s !! client) as [cl|] eqn:Hcl; [|by intros [= <-]].
    destruct (writePump cl); intros [= <-]; [|done].
    apply inv_update_client; [done|]. intros cl' _.
    unfold writePump_recv. destruct (buf (Send cl')); cbn.
    + destruct (closed (Send cl')) eqn:Hc; by cbn.
    + by destruct werr.
  - destruct (heap s !! client) as [cl|] eqn:Hcl; [|by intros [= <-]].
    destruct (writePump cl); intros [= <-]; [|done].
    apply inv_update_client; [done|]. intros cl' _.
    unfold writePump_tick. by destruct werr.
Qed.

Lemma run_inv evs s s' : inv s → run s evs = Alive s' → inv s'.
Proof.
  revert s. induction evs as [|ev evs IH]; intros s Hinv; cbn.
  - by intros [= <-].
  - destruct (step s ev) as [s1|s1] eqn:Hstep; [|done].
    apply IH. by eapply step_inv.
Qed.

Lemma reachable_inv U s : reachable U s → inv s.
Proof. intros [evs Hrun]. eapply run_inv; [apply inv_empty_db|done]. Qed.

Lemma reachable_step U s ev s' :
  reachable U s → step s ev = Alive s' → reachable U s'.
Proof.
  intros [evs Hrun] Hstep. exists (evs ++ [ev]).
  revert Hrun. generalize (empty_db U). induction evs as [|ev' evs IH];
    intros s0; cbn.
  - intros [= ->]. by rewrite Hstep.
  - destruct (step s0 ev'); [apply IH|done].
Qed.


(** *** Idle updates *)

Lemma update_client_same p f cl s :
  heap s !! p = Some cl → f cl = cl → update_client p f s = s.
Proof.
  intros Hcl Hf. destruct s as [C h u ms d l]; cbn in *.
  unfold update_client, set_heap; cbn. f_equal.
  apply list_eq. intros i. rewrite list_lookup_alter.
  case_decide; [subst i|done]. by rewrite Hcl; cbn; rewrite Hf.
Qed.

Lemma with_readPump_same cl : with_readPump (readPump cl) cl = cl.
Proof. by destruct cl. Qed.

(** *** Dispatch *)

(** What becomes of either party of a message once the Hub has handled
    it and the sending read pump is back in its loop. *)
Lemma party_after_take m s s1 client id p t :
  registry_ok s → not_self m → on_Broadcast m s = Alive s1 →
  id = Message.ReceiverID m ∨ id = Message.SenderID m →
  Clients s !! id = Some p → heap s !! p = Some t →
  let s' := update_client client (with_readPump Reading) s1 in
  (cap (Send t) ≤ length (buf (Send t)) →
     Clients s' !! id = None ∧
     queue_of s' p = Some (MkChan (buf (Send t)) (cap (Send t)) true)) ∧
  (length (buf (Send t)) < cap (Send t) →
     Clients s' !! id = Some p ∧
     queue_of s' p
     = Some (MkChan (buf (Send t) ++ [m]) (cap (Send t)) false)).
Proof.
  intros Hreg Hns Hs1 Hparty Hid Ht. cbv zeta.
  rewrite queue_of_update_client, update_client_Clients by done.
  destruct (on_Broadcast_party m s s1 id p t Hreg Hns Hs1 Hparty Hid Ht)
    as [Hfull Hroom].
  unfold queue_of. split; intros Hsize.
  - destruct (Hfull Hsize) as [-> ->]. done.
  - destruct (Hroom Hsize) as [-> ->]. done.
Qed.

Lemma TakeBroadcast_step U s client cl m :
  reachable U s →
  heap s !! client = Some cl → readPump cl = SendingBroadcast m →
  ∃ s1, on_Broadcast m s = Alive s1 ∧
    step s (TakeBroadcast client)
    = Alive (update_client client (with_readPump Reading) s1) ∧
    users s1 = users s ∧ messages s1 = messages s ∧
    dispatched s1 = dispatched s ++ [m].
Proof.
  intros Hreach Hcl Hpend. pose proof (reachable_inv U s Hreach) as Hinv.
  destruct (inv_sends s Hinv client cl m Hcl Hpend) as (_ & _ & Hm).
  destruct (on_Broadcast_inv m s Hinv Hm) as (s1 & Hs1 & _ & Hu & Hms & Hd & _).
  exists s1. repeat split; try done.
  cbn [step]. by rewrite Hcl, Hpend, Hs1.
Qed.

(** C2. When the Hub takes a message from a read pump, each party of the
    message (receiver, sender) that has a registry entry is treated on
    its own queue alone: if that queue is full, the entry is removed and
    the queue is closed as it is; if it has room, the message is appended
    and the entry stays, whatever the state of the other party's queue.
    The dispatch itself always completes. *)
Theorem dispatch_overflow_evicts U s client cl m :
  reachable U s →
  heap s !! client = Some cl → readPump cl = SendingBroadcast m →
  ∃ s', step s (TakeBroadcast client) = Alive s' ∧
    ∀ id p t,
      id = Message.ReceiverID m ∨ id = Message.SenderID m →
      Clients s !! id = Some p → heap s !! p = Some t →
      (cap (Send t) ≤ length (buf (Send t)) →
         Clients s' !! id = None ∧
         queue_of s' p = Some (MkChan (buf (Send t)) (cap (Send t)) true)) ∧
      (length (buf (Send t)) < cap (Send t) →
         Clients s' !! id = Some p ∧
         queue_of s' p
         = Some (MkChan (buf (Send t) ++ [m]) (cap (Send t)) false)).
Proof.
  intros Hreach Hcl Hpend. pose proof (reachable_inv U s Hreach) as Hinv.
  destruct (inv_sends s Hinv client cl m Hcl Hpend) as (_ & Hns & Hm).
  destruct (on_Broadcast_inv m s Hinv Hm) as (s1 & Hs1 & _).
  exists (update_client client (with_readPump Reading) s1). split.
  { cbn [step]. by rewrite Hcl, Hpend, Hs1. }
  intros id p t Hparty Hid Ht.
  by apply (party_after_take m s s1 client id p t (inv_registry s Hinv)).
Qed.

(** *** The pipeline *)

Lemma Inbound_step client cl e r s :
  heap s !! client = Some cl → readPump cl = Reading →
  step s (Inbound client e r)
  = Alive (update_client client
             (with_readPump (after_body (readPump_body e (UserID cl) r s).2))
             (readPump_body e (UserID cl) r s).1).
Proof.
  intros Hcl Hrd. cbn [step]. rewrite Hcl, Hrd.
  by destruct (readPump_body e (UserID cl) r s).
Qed.

(** A pass through the loop body that ends in [continue] and changed
    nothing but the log leaves the read pump where it was. *)
Lemma Inbound_continue client cl e r s s1 :
  heap s !! client = Some cl → readPump cl = Reading →
  readPump_body e (UserID cl) r s = (s1, Continue) → heap s1 = heap s →
  step s (Inbound client e r) = Alive s1.
Proof.
  intros Hcl Hrd Hbody Hheap. rewrite (Inbound_step client cl) by done.
  rewrite Hbody. cbn [fst snd after_body]. f_equal.
  apply (update_client_same client _ cl); [by rewrite Hheap|].
  rewrite <- Hrd. apply with_readPump_same.
Qed.

(** C6. A request whose validation yields a non-empty list of failures
    ends the pass through the loop body with [continue] and leaves the
    whole state as it was: nothing inserted, nothing handed to the Hub,
    the read pump still reading and its transport still open. *)
Theorem invalid_request_dropped s client cl e msgReq :
  heap s !! client = Some cl → readPump cl = Reading →
  Validate msgReq ≠ [] →
  readPump_body e (UserID cl) (Decoded msgReq) s = (s, Continue) ∧
  step s (Inbound client e (Decoded msgReq)) = Alive s.
Proof.
  intros Hcl Hrd Hbad.
  pose proof (body_invalid e (UserID cl) msgReq s Hbad) as Hbody.
  split; [done|]. by eapply Inbound_continue.
Qed.

(** C3. In a reachable state, whatever the Hub has dispatched and
    whatever a read pump is handing to the Hub is in the messages
    collection; a pass through the loop body reaches the hand-over only
    with a successful insert, which appended that very message; and when
    the insert of a valid request addressed to someone else fails, the
    step changes the log and nothing else: no hand-over (the pump keeps
    reading), no write to the users collection, no queue or transport
    touched. *)
Theorem persistence_gates_dispatch U s :
  reachable U s →
  (∀ m, m ∈ dispatched s → m ∈ messages s) ∧
  (∀ p cl m, heap s !! p = Some cl → readPump cl = SendingBroadcast m →
     m ∈ messages s) ∧
  (∀ client cl e r m,
     heap s !! client = Some cl → readPump cl = Reading →
     (readPump_body e (UserID cl) r s).2 = ToBroadcast m →
     insert_err e = None ∧
     messages (readPump_body e (UserID cl) r s).1 = messages s ++ [m]) ∧
  (∀ client cl e msgReq err,
     heap s !! client = Some cl → readPump cl = Reading →
     Validate msgReq = [] →
     SendMessageRequest.ReceiverID msgReq ≠ UserID cl →
     insert_err e = Some err →
     step s (Inbound client e (Decoded msgReq))
     = Alive (log_Printf ("Failed to save message: " +:+ err) s)).
Proof.
  intros Hreach. pose proof (reachable_inv U s Hreach) as Hinv.
  split; [apply Hinv|]. split.
  { intros p cl m Hcl Hpend. by eapply (inv_sends s Hinv). }
  split.
  - intros client cl e r m Hcl Hrd.
    destruct (body_cases e (UserID cl) r s); cbn [fst snd]; try done.
    intros [= <-]. by state_simpl.
  - intros client cl e msgReq err Hcl Hrd Hok Hother Herr.
    eapply Inbound_continue; [done|done| |done].
    by apply body_insert_failed.
Qed.

(** C5. In a reachable state no message in the messages collection and
    no message the Hub has dispatched has its sender as its receiver; and
    a request addressed to the identity of the connection it arrives on
    leaves the whole state as it was. *)
Theorem no_self_addressed_message U s :
  reachable U s →
  Forall not_self (messages s) ∧
  Forall not_self (dispatched s) ∧
  (∀ client cl e msgReq,
     heap s !! client = Some cl → readPump cl = Reading →
     SendMessageRequest.ReceiverID msgReq = UserID cl →
     step s (Inbound client e (Decoded msgReq)) = Alive s).
Proof.
  intros Hreach. pose proof (reachable_inv U s Hreach) as Hinv.
  split; [apply Hinv|]. split.
  - apply Forall_forall. intros m Hm.
    apply (inv_dispatched s Hinv) in Hm.
    by apply (proj1 (Forall_forall _ _) (inv_messages s Hinv)).
  - intros client cl e msgReq Hcl Hrd Hself.
    eapply Inbound_continue; [done|done| |done].
    by apply body_self_addressed.
Qed.

(** C4, as the code has it. For a request that passes validation, comes
    in on a connection of identity A and names another identity B, the
    loop body builds one message: the generated id, sender A, receiver B,
    the content and type of the request, read = false, the server's
    clock as creation time.  When the insert succeeds, this message is
    appended to the messages collection and is the one the read pump
    hands to the Hub; and whenever the Hub takes it, it is this message
    that is recorded as dispatched and appended to the queue of each of B
    and A that then has a registry entry with room in its queue. *)
Theorem valid_request_persisted_then_fanned_out U s a cl e msgReq :
  reachable U s →
  heap s !! a = Some cl → readPump cl = Reading →
  Validate msgReq = [] →
  SendMessageRequest.ReceiverID msgReq ≠ UserID cl →
  insert_err e = None →
  let m := {| Message.ID := new_id e;
              Message.SenderID := UserID cl;
              Message.ReceiverID := SendMessageRequest.ReceiverID msgReq;
              Message.Content := SendMessageRequest.Content msgReq;
              Message.Type_ := SendMessageRequest.Type_ msgReq;
              Message.Read := false;
              Message.CreatedAt := created_now e |} in
  (∃ s1, step s (Inbound a e (Decoded msgReq)) = Alive s1 ∧
     reachable U s1 ∧
     messages s1 = messages s ++ [m] ∧
     readPump <$> heap s1 !! a = Some (SendingBroadcast m)) ∧
  (∀ s2 cl2,
     reachable U s2 →
     heap s2 !! a = Some cl2 → readPump cl2 = SendingBroadcast m →
     ∃ s3, step s2 (TakeBroadcast a) = Alive s3 ∧
       dispatched s3 = dispatched s2 ++ [m] ∧
       ∀ id p t,
         id = Message.ReceiverID m ∨ id = Message.SenderID m →
         Clients s2 !! id = Some p → heap s2 !! p = Some t →
         length (buf (Send t)) < cap (Send t) →
         Clients s3 !! id = Some p ∧
         queue_of s3 p
         = Some (MkChan (buf (Send t) ++ [m]) (cap (Send t)) false)).
Proof.
  intros Hreach Hcl Hrd Hok Hother Herr m. split.
  - eexists. split; [by apply (Inbound_step a cl)|].
    rewrite body_persisted by done. cbn [fst snd after_body].
    split; [|split].
    + eapply reachable_step; [done|].
      rewrite (Inbound_step a cl) by done. by rewrite body_persisted.
    + by state_simpl.
    + rewrite lookup_update_client, decide_True by done. state_simpl.
      by rewrite Hcl.
  - intros s2 cl2 Hreach2 Hcl2 Hpend.
    destruct (TakeBroadcast_step U s2 a cl2 m Hreach2 Hcl2 Hpend)
      as (s3 & Hs3 & Hstep & _ & _ & Hd).
    pose proof (reachable_inv U s2 Hreach2) as Hinv2.
    destruct (inv_sends s2 Hinv2 a cl2 m Hcl2 Hpend) as (_ & Hns & _).
    eexists. split; [exact Hstep|]. split; [by state_simpl|].
    intros id p t Hid Hp Ht Hroom.
    by apply (party_after_take m s2 s3 a id p t (inv_registry s2 Hinv2)).
Qed.

(** *** What a step cannot do to an identity without a registry entry *)

Lemma step_absent id s ev :
  Clients s !! id = None →
  let s1 := outcome_state (step s ev) in
  (Clients s1 !! id = None → online_of s1 id = online_of s id) ∧
  (∀ s', step s ev = Crashed s' → Clients s' !! id = None).
Proof.
  intros Hid.
  destruct ev as [e c|client e r|client|e client|client werr|client werr];
    cbn [step].
  - destruct (WebSocketChat_cases e c s) as [->|(userID & _ & ->)];
      cbn [outcome_state]; [done|]. split; [|done].
    unfold joined. state_simpl. rewrite lookup_insert_None.
    intros [_ Hne]. unfold online_of. state_simpl.
    by rewrite UpdateOne_other.
  - destruct (heap s !! client) as [cl|] eqn:Hcl; [|done].
    destruct (readPump cl) eqn:Hrd; try done.
    pose proof (body_cases e (UserID cl) r s) as Hbody.
    destruct (readPump_body e (UserID cl) r s) as [s1 fl].
    cbn [outcome_state]. split; [intros _|done].
    unfold online_of. state_simpl.
    inversion Hbody; subst; try done.
    apply (UpdateOne_last_seen_online _ _ _ (set_messages _ s)).
  - destruct (heap s !! client) as [cl|] eqn:Hcl; [|done].
    destruct (readPump cl) as [|m| |] eqn:Hrd; try done.
    destruct (on_Broadcast_quiet m s) as (Hu & Hc & _).
    destruct (on_Broadcast m s) as [s1|s1]; cbn [outcome_state] in *.
    + split; [intros _|done]. unfold online_of. state_simpl. by rewrite Hu.
    + split; [intros _|intros s' [= <-]; by auto].
      unfold online_of. by rewrite Hu.
  - destruct (heap s !! client) as [cl|] eqn:Hcl; [|done].
    destruct (readPump cl) eqn:Hrd; try done.
    destruct (on_Unregister_quiet e client s) as (Hc & _).
    destruct (Hc id Hid) as [Hc1 Hu1].
    destruct (on_Unregister e client s) as [s1|s1]; cbn [outcome_state] in *.
    + split; [intros _|done]. unfold online_of. state_simpl. by rewrite Hu1.
    + split; [intros _|by intros s' [= <-]].
      unfold online_of. by rewrite Hu1.
  - destruct (heap s !! client) as [cl|] eqn:Hcl; [|done].
    by destruct (writePump cl).
  - destruct (heap s !! client) as [cl|] eqn:Hcl; [|done].
    by destruct (writePump cl).
Qed.

Lemma writePump_recv_identity werr cl : UserID (writePump_recv werr cl) = UserID cl.
Proof.
  unfold writePump_recv. destruct (buf (Send cl)); cbn.
  - by destruct (closed (Send cl)).
  - by destruct werr.
Qed.

Lemma writePump_tick_identity werr cl : UserID (writePump_tick werr cl) = UserID cl.
Proof. unfold writePump_tick. by destruct werr. Qed.

(** A client never changes identity, and the heap never loses one. *)
Lemma step_identity s ev q t :
  heap s !! q = Some t →
  ∃ t', heap (outcome_state (step s ev)) !! q = Some t' ∧ UserID t' = UserID t.
Proof.
  intros Ht.
  destruct ev as [e c|client e r|client|e client|client werr|client werr];
    cbn [step].
  - destruct (WebSocketChat_cases e c s) as [->|(userID & _ & ->)];
      cbn [outcome_state]; [by eauto|].
    exists t. split; [|done]. unfold joined. state_simpl.
    by apply lookup_app_l_Some.
  - destruct (heap s !! client) as [cl|] eqn:Hcl; [|by eauto].
    destruct (readPump cl) eqn:Hrd; try by eauto.
    pose proof (body_cases e (UserID cl) r s) as Hbody.
    destruct (readPump_body e (UserID cl) r s) as [s1 fl].
    cbn [outcome_state]. apply identity_update_client; [done|].
    inversion Hbody; subst; by state_simpl.
  - destruct (heap s !! client) as [cl|] eqn:Hcl; [|by eauto].
    destruct (readPump cl) as [|m| |] eqn:Hrd; try by eauto.
    destruct (on_Broadcast_quiet m s) as (_ & _ & Hh).
    destruct (Hh q t Ht) as (t1 & Ht1 & Hid1).
    destruct (on_Broadcast m s) as [s1|s1]; cbn [outcome_state] in *;
      [|by eauto].
    destruct (identity_update_client client (with_readPump Reading) s1 q t1)
      as (t2 & Ht2 & Hid2); [done|done|].
    exists t2. split; [done|congruence].
  - destruct (heap s !! client) as [cl|] eqn:Hcl; [|by eauto].
    destruct (readPump cl) eqn:Hrd; try by eauto.
    destruct (on_Unregister_quiet e client s) as (_ & Hh).
    destruct (Hh q t Ht) as (t1 & Ht1 & Hid1).
    destruct (on_Unregister e client s) as [s1|s1]; cbn [outcome_state] in *;
      [|by eauto].
    destruct (identity_update_client client (with_readPump Stopped) s1 q t1)
      as (t2 & Ht2 & Hid2); [done|done|].
    destruct (identity_update_client client
                (λ cl, with_Conn (Close (Conn_ cl)) cl)
                (update_client client (with_readPump Stopped) s1) q t2)
      as (t3 & Ht3 & Hid3); [done|done|].
    exists t3. split; [done|congruence].
  - destruct (heap s !! client) as [cl|] eqn:Hcl; [|by eauto].
    destruct (writePump cl); cbn [outcome_state]; [|by eauto].
    apply identity_update_client; [|done]. apply writePump_recv_identity.
  - destruct (heap s !! client) as [cl|] eqn:Hcl; [|by eauto].
    destruct (writePump cl); cbn [outcome_state]; [|by eauto].
    apply identity_update_client; [|done]. apply writePump_tick_identity.
Qed.

(** The same along a run on which the identity is never registered. *)
Lemma run_absent id evs : ∀ s q t,
  Clients s !! id = None → heap s !! q = Some t →
  never_registered id s evs = true →
  let s' := outcome_state (run s evs) in
  Clients s' !! id = None ∧ online_of s' id = online_of s id ∧
  ∃ t', heap s' !! q = Some t' ∧ UserID t' = UserID t.
Proof.
  induction evs as [|ev evs IH]; intros s q t Hid Ht; cbn.
  - by eauto.
  - destruct (step_absent id s ev Hid) as [Hon Hcrash].
    destruct (step_identity s ev q t Ht) as (t1 & Ht1 & Hid1).
    destruct (step s ev) as [s1|s1] eqn:Hstep; cbn [outcome_state] in *.
    + rewrite andb_true_iff, bool_decide_eq_true. intros [Hid' Hrest].
      destruct (IH s1 q t1 Hid' Ht1 Hrest) as (Hc & Ho & t' & Ht' & Hu).
      split; [done|]. split; [by rewrite Ho, Hon|].
      exists t'. split; [done|congruence].
    + intros _. pose proof (Hcrash s1 eq_refl) as Hc.
      split; [done|]. split; [by apply Hon|]. by eauto.
Qed.

(** C10. A connection evicted by dispatch overflow loses its registry
    entry and has its queue closed, with no write to the users
    collection.  From then on, as long as no Register for its identity
    is processed, however the process runs (to any later state, or to an
    abort), the identity has no registry entry, its persisted online
    flag is the one it had at the eviction, and an Unregister of the
    evicted connection is skipped by the Hub altogether. *)
Theorem evicted_stays_online U s client cl m id p t :
  reachable U s →
  heap s !! client = Some cl → readPump cl = SendingBroadcast m →
  id = Message.ReceiverID m ∨ id = Message.SenderID m →
  Clients s !! id = Some p → heap s !! p = Some t →
  cap (Send t) ≤ length (buf (Send t)) →
  ∃ s', step s (TakeBroadcast client) = Alive s' ∧
    Clients s' !! id = None ∧
    queue_of s' p = Some (MkChan (buf (Send t)) (cap (Send t)) true) ∧
    users s' = users s ∧
    ∀ evs, never_registered id s' evs = true →
      let s'' := outcome_state (run s' evs) in
      Clients s'' !! id = None ∧
      online_of s'' id = online_of s id ∧
      ∀ e, Hub_run e (RecvUnregister p) s'' = Alive s''.
Proof.
  intros Hreach Hcl Hpend Hparty Hid Ht Hfull.
  destruct (TakeBroadcast_step U s client cl m Hreach Hcl Hpend)
    as (s1 & Hs1 & Hstep & Hu & _).
  pose proof (reachable_inv U s Hreach) as Hinv.
  destruct (inv_sends s Hinv client cl m Hcl Hpend) as (_ & Hns & _).
  destruct (party_after_take m s s1 client id p t (inv_registry s Hinv)
              Hns Hs1 Hparty Hid Ht) as [Hevict _].
  destruct (Hevict Hfull) as [Hgone Hq].
  set (s' := update_client client (with_readPump Reading) s1) in *.
  assert (users s' = users s) as Husers by (subst s'; by state_simpl).
  exists s'. repeat (split; [done|]).
  intros evs Hnever. cbv zeta.
  destruct (reachable_inv U s Hreach) as [Hreg _ _ _].
  destruct (Hreg id p Hid) as (t0 & Ht0 & Hut & _).
  assert (t0 = t) as -> by congruence.
  unfold queue_of in Hq. destruct (heap s' !! p) as [t'|] eqn:Ht'; [|done].
  destruct (step_identity s (TakeBroadcast client) p t Ht) as (t1 & Ht1 & Hu1).
  rewrite Hstep in Ht1. cbn [outcome_state] in Ht1.
  assert (t1 = t') as -> by congruence.
  destruct (run_absent id evs s' p t' Hgone Ht' Hnever)
    as (Hc & Ho & t'' & Ht'' & Hu'').
  split; [done|]. split.
  { rewrite Ho. unfold online_of. by rewrite Husers. }
  intros e. cbn [Hub_run]. apply (on_Unregister_skipped e p t''); [done|].
  congruence.
Qed.

(** *** Presence *)

(** Presence where the Hub reaches its write. With a store that carries
    out the update on an existing user
    document: Register leaves the identity online with the Hub's clock
    reading as last_seen; an Unregister that finds a registry entry and
    an open queue removes the entry and leaves the identity offline with
    the clock reading as last_seen, and in a reachable state this is so
    for every Unregister of the client the registry maps the identity
    to; processing an accepted inbound
    message changes no online flag and no other user's document, sets
    the sender's last_seen, and its dispatch writes nothing to the users
    collection. *)
Theorem presence_transitions :
  (∀ e client cl d s,
     heap s !! client = Some cl → users s !! UserID cl = Some d →
     update_err e = false →
     ∃ s', Hub_run e (RecvRegister client) s = Alive s' ∧
       users s' !! UserID cl
       = Some {| User.Online := true; User.LastSeen := now e |} ∧
       ∀ u, u ≠ UserID cl → users s' !! u = users s !! u) ∧
  (∀ e client cl d s,
     heap s !! client = Some cl → is_Some (Clients s !! UserID cl) →
     closed (Send cl) = false →
     users s !! UserID cl = Some d → update_err e = false →
     ∃ s', Hub_run e (RecvUnregister client) s = Alive s' ∧
       Clients s' !! UserID cl = None ∧
       users s' !! UserID cl
       = Some {| User.Online := false; User.LastSeen := now e |} ∧
       ∀ u, u ≠ UserID cl → users s' !! u = users s !! u) ∧
  (∀ U e client cl d s,
     reachable U s →
     heap s !! client = Some cl → Clients s !! UserID cl = Some client →
     users s !! UserID cl = Some d → update_err e = false →
     ∃ s', Hub_run e (RecvUnregister client) s = Alive s' ∧
       Clients s' !! UserID cl = None ∧
       users s' !! UserID cl
       = Some {| User.Online := false; User.LastSeen := now e |}) ∧
  (∀ e client cl msgReq s,
     heap s !! client = Some cl → readPump cl = Reading →
     Validate msgReq = [] →
     SendMessageRequest.ReceiverID msgReq ≠ UserID cl →
     insert_err e = None →
     ∃ s', step s (Inbound client e (Decoded msgReq)) = Alive s' ∧
       (∀ u, online_of s' u = online_of s u) ∧
       (∀ u, u ≠ UserID cl → users s' !! u = users s !! u) ∧
       (∀ d, users s !! UserID cl = Some d → seen_err e = false →
          users s' !! UserID cl
          = Some {| User.Online := User.Online d;
                    User.LastSeen := seen_now e |}) ∧
       users (outcome_state (step s' (TakeBroadcast client))) = users s').
Proof.
  assert (∀ e client cl d s,
     heap s !! client = Some cl → is_Some (Clients s !! UserID cl) →
     closed (Send cl) = false →
     users s !! UserID cl = Some d → update_err e = false →
     ∃ s', Hub_run e (RecvUnregister client) s = Alive s' ∧
       Clients s' !! UserID cl = None ∧
       users s' !! UserID cl
       = Some {| User.Online := false; User.LastSeen := now e |} ∧
       ∀ u, u ≠ UserID cl → users s' !! u = users s !! u) as Hunregister.
  { intros e client cl d s Hcl [p Hp] Hopen Hd Hup. eexists. cbn [Hub_run].
    rewrite (on_Unregister_done e client cl p) by done.
    split; [done|]. state_simpl. rewrite UpdateOne_users, Hup. state_simpl.
    split; [apply lookup_delete_eq|]. split.
    + by rewrite lookup_alter_eq, Hd.
    + intros u Hne. by rewrite lookup_alter_ne. }
  split; [|split; [|split]].
  - intros e client cl d s Hcl Hd Hup. eexists. cbn [Hub_run].
    unfold on_Register. rewrite Hcl. split; [done|]. state_simpl.
    rewrite UpdateOne_users, Hup. state_simpl. split.
    + by rewrite lookup_alter_eq, Hd.
    + intros u Hne. by rewrite lookup_alter_ne.
  - exact Hunregister.
  - intros U e client cl d s Hreach Hcl Hown Hd Hup.
    destruct (inv_registry s (reachable_inv U s Hreach) _ _ Hown)
      as (cl' & Hcl' & _ & Hopen).
    assert (cl' = cl) as -> by congruence.
    destruct (Hunregister e client cl d s) as (s' & Hs & Hgone & Hoff & _);
      [done|by eexists|done..|].
    by exists s'.
  - intros e client cl msgReq s Hcl Hrd Hok Hother Herr. eexists.
    split; [by apply (Inbound_step client cl)|].
    rewrite body_persisted by done. cbn [fst snd after_body].
    split; [|split; [|split]].
    + intros u. unfold online_of. state_simpl.
      apply (UpdateOne_last_seen_online _ _ _ (set_messages _ s)).
    + intros u Hne. state_simpl. by rewrite UpdateOne_other.
    + intros d Hd Hup. state_simpl. rewrite UpdateOne_users, Hup. state_simpl.
      by rewrite lookup_alter_eq, Hd.
    + match goal with |- users (outcome_state (step ?s1 _)) = _ =>
        set (s' := s1) end.
      cbn [step]. destruct (heap s' !! client) as [cl'|]; [|done].
      destruct (readPump cl') as [|m| |]; try done.
      destruct (on_Broadcast_quiet m s') as (Hu & _).
      by destruct (on_Broadcast m s').
Qed.

(** *** The handshake *)

(** C9. If the request carries no token, or the token does not parse or
    is not valid, or its claims hold no non-empty string under
    "user_id", the handler closes the transport, having written nothing
    on it, and the state is as before: no client in the heap, no
    registry entry.  The handler accepts only a request whose token
    certifies an identity; it then leaves a new client for that
    transport and identity in the heap, with an open, empty queue of
    capacity 256 and both pumps running, and the registry maps the
    identity to it. *)
Theorem handshake_gate e c s :
  (Query c "token" = ""%string ∨
   (jwt_Parse (Query c "token") (Getenv "JWT_SECRET")).2 = true ∨
   Valid (jwt_Parse (Query c "token") (Getenv "JWT_SECRET")).1 = false ∨
   (∀ claims userID,
      Claims_ (jwt_Parse (Query c "token") (Getenv "JWT_SECRET")).1
      = MapClaims claims →
      claims !! "user_id"%string = Some (VString userID) →
      userID = ""%string) →
   WebSocketChat e c s = Refused (Close c) ∧
   conn_closed (Close c) = true ∧ written (Close c) = written c ∧
   step s (Connect e c) = Alive s) ∧
  (∀ o, WebSocketChat e c s = Accepted o → ∃ userID, certifies c userID) ∧
  (∀ userID, certifies c userID →
     ∃ s', WebSocketChat e c s = Accepted (Alive s') ∧
       step s (Connect e c) = Alive s' ∧
       heap s' = heap s ++ [{| Conn_ := c; UserID := userID;
                               Send := {| buf := []; cap := 256;
                                          closed := false |};
                               readPump := Reading; writePump := true |}] ∧
       Clients s' = <[userID := length (heap s)]> (Clients s)).
Proof.
  split; [|split].
  - intros Hfail.
    assert (WebSocketChat e c s = Refused (Close c)) as Href.
    { apply WebSocketChat_refuses.
      intros userID (Htok & token & claims & Hp & Hv & Hc & Hid & Hne).
      rewrite Hp in Hfail. cbn [fst snd] in Hfail.
      destruct Hfail as [?|[?|[?|Hno]]]; [done|done|congruence|].
      by apply Hne, (Hno claims). }
    split; [done|]. split; [done|]. split; [done|].
    cbn [step]. by rewrite Href.
  - intros o Ho.
    destruct (WebSocketChat_cases e c s) as [Href|(userID & Hcert & _)];
      [congruence|by eauto].
  - intros userID Hcert. exists (joined e c userID s).
    pose proof (WebSocketChat_accepts e c userID s Hcert) as Hacc.
    split; [done|]. split; [cbn [step]; by rewrite Hacc|].
    unfold joined. by state_simpl.
Qed.

End ChatProofs.

(** * More about the Hub and the pumps *)

(** ** Bounded queues *)

Lemma bounded_frame s s' : heap s' = heap s → queues_bounded s → queues_bounded s'.
Proof. intros Hh Hb p cl. rewrite Hh. apply Hb. Qed.

Lemma bounded_update_client p f s :
  queues_bounded s →
  (∀ cl, heap s !! p = Some cl →
     cap (Send cl) = 256 → length (buf (Send cl)) ≤ 256 →
     cap (Send (f cl)) = 256 ∧ length (buf (Send (f cl))) ≤ 256) →
  queues_bounded (update_client p f s).
Proof.
  intros Hb Hf q cl'. rewrite lookup_update_client.
  case_decide; [subst q|by apply Hb].
  destruct (heap s !! p) as [cl|] eqn:Hcl; [|done]. intros [= <-].
  destruct (Hb p cl Hcl). by apply Hf.
Qed.

Lemma deliver_bounded id m s s' :
  queues_bounded s → deliver id m s = Alive s' → queues_bounded s'.
Proof.
  intros Hb. unfold deliver.
  destruct (Clients s !! id) as [p|]; [|by intros [= <-]].
  destruct (heap s !! p) as [cl|] eqn:Hcl; [|done].
  unfold try_send, close. destruct (closed (Send cl)); [done|].
  destruct (length (buf (Send cl)) <? cap (Send cl)) eqn:Hroom; intros [= <-].
  - apply bounded_update_client; [done|]. intros cl' Hcl' Hcap Hlen.
    assert (cl' = cl) as -> by congruence. cbn.
    apply Nat.ltb_lt in Hroom. rewrite length_app. cbn. split; [done|lia].
  - apply bounded_update_client; [by eapply bounded_frame|].
    intros cl' Hcl' Hcap Hlen. cbn in Hcl'.
    assert (cl' = cl) as -> by congruence. by cbn.
Qed.

Lemma on_Broadcast_bounded m s s' :
  queues_bounded s → on_Broadcast m s = Alive s' → queues_bounded s'.
Proof.
  intros Hb. unfold on_Broadcast.
  destruct (deliver (Message.ReceiverID m) m _) as [s1|] eqn:Hd1; [|done].
  intros Hd2. eapply deliver_bounded; [|done].
  eapply deliver_bounded; [|done]. by eapply bounded_frame.
Qed.

Lemma on_Unregister_bounded e client s s' :
  queues_bounded s → on_Unregister e client s = Alive s' → queues_bounded s'.
Proof.
  intros Hb. unfold on_Unregister.
  destruct (heap s !! client) as [cl|] eqn:Hcl; [|done].
  destruct (Clients s !! UserID cl); [|by intros [= <-]].
  unfold close. destruct (closed (Send cl)); [done|]. intros [= <-].
  eapply bounded_frame; [by state_simpl|].
  apply bounded_update_client; [by eapply bounded_frame|].
  intros cl' Hcl' Hcap Hlen. cbn in Hcl'.
  assert (cl' = cl) as -> by congruence. by cbn.
Qed.

Section More.

Variable Validate : SendMessageRequest.t → list string.
Variable jwt_Parse : string → string → Token * bool.
Variable Getenv : string → string.

Abbreviation WebSocketChat := (WebSocketChat jwt_Parse Getenv).
Abbreviation readPump_body := (readPump_body Validate).
Abbreviation step := (step Validate jwt_Parse Getenv).
Abbreviation run := (run Validate jwt_Parse Getenv).
Abbreviation reachable := (reachable Validate jwt_Parse Getenv).
Abbreviation certifies := (certifies jwt_Parse Getenv).
Abbreviation body_case := (body_case Validate).
Abbreviation one_session_each := (one_session_each Validate jwt_Parse Getenv).

Lemma body_heap e u r s : heap (readPump_body e u r s).1 = heap s.
Proof.
  destruct (body_cases Validate e u r s); cbn [fst]; by state_simpl.
Qed.

Lemma step_bounded s ev s' :
  queues_bounded s → step s ev = Alive s' → queues_bounded s'.
Proof.
  intros Hb.
  destruct ev as [e c|client e r|client|e client|client werr|client werr];
    cbn [step].
  - destruct (WebSocketChat_cases jwt_Parse Getenv e c s)
      as [->|(userID & _ & ->)]; intros [= <-]; [done|].
    intros p cl. unfold joined. state_simpl.
    rewrite lookup_app_Some. intros [Hcl|[_ Hcl]]; [by apply (Hb p)|].
    apply list_lookup_singleton_Some in Hcl as [_ <-]. cbn. split; [done|lia].
  - destruct (heap s !! client) as [cl|] eqn:Hcl; [|by intros [= <-]].
    destruct (readPump cl); try by intros [= <-].
    pose proof (body_heap e (UserID cl) r s) as Hh.
    destruct (readPump_body e (UserID cl) r s) as [s1 fl]. intros [= <-].
    apply bounded_update_client; [by eapply bounded_frame|].
    intros cl' _ Hcap Hlen. by cbn.
  - destruct (heap s !! client) as [cl|] eqn:Hcl; [|by intros [= <-]].
    destruct (readPump cl) as [|m| |]; try by intros [= <-].
    destruct (on_Broadcast m s) as [s1|] eqn:Hs1; [|done]. intros [= <-].
    apply bounded_update_client; [by eapply on_Broadcast_bounded|].
    intros cl' _ Hcap Hlen. by cbn.
  - destruct (heap s !! client) as [cl|] eqn:Hcl; [|by intros [= <-]].
    destruct (readPump cl); try by intros [= <-].
    destruct (on_Unregister e client s) as [s1|] eqn:Hs1; [|done]. intros [= <-].
    apply bounded_update_client; [apply bounded_update_client|];
      [by eapply on_Unregister_bounded|..]; intros cl' _ Hcap Hlen; by cbn.
  - destruct (heap s !! client) as [cl|] eqn:Hcl; [|by intros [= <-]].
    destruct (writePump cl); intros [= <-]; [|done].
    apply bounded_update_client; [done|]. intros cl' _ Hcap Hlen.
    unfold writePump_recv. destruct (buf (Send cl')) eqn:Hbuf; cbn.
    + destruct (closed (Send cl')); cbn; rewrite ?Hbuf; cbn; split; (done || lia).
    + cbn in Hlen. destruct werr; cbn; split; (done || lia).
  - destruct (heap s !! client) as [cl|] eqn:Hcl; [|by intros [= <-]].
    destruct (writePump cl); intros [= <-]; [|done].
    apply bounded_update_client; [done|]. intros cl' _ Hcap Hlen.
    unfold writePump_tick. by destruct werr.
Qed.

(** X1. In every reachable state every client's outbound queue has
    capacity 256 and holds at most 256 messages. *)
Theorem queue_never_exceeds_capacity U s p cl :
  reachable U s → heap s !! p = Some cl →
  cap (Send cl) = 256 ∧ length (buf (Send cl)) ≤ 256.
Proof.
  intros [evs Hrun]. revert Hrun.
  assert (queues_bounded (empty_db U)) as Hb by (by intros ??).
  revert Hb. generalize (empty_db U). clear U.
  induction evs as [|ev evs IH]; intros s0 Hb; cbn.
  - intros [= ->]. apply Hb.
  - destruct (step s0 ev) as [s1|] eqn:Hstep; [|done].
    apply IH. by eapply step_bounded.
Qed.

(** ** One session per identity: the process never aborts *)

Lemma NoDup_fmap_filter_lookup {A B} (f : A → B) (P : A → Prop)
    `{!∀ x, Decision (P x)} (l : list A) i j x y :
  NoDup (f <$> filter P l) →
  l !! i = Some x → l !! j = Some y → P x → P y → f x = f y → i = j.
Proof.
  revert i j. induction l as [|a l IH]; intros i j Hnd Hi Hj Px Py Hf; [done|].
  assert (∀ k z, l !! k = Some z → P z → f z ∈ f <$> filter P l) as Hin.
  { intros k z Hk Pz. apply list_elem_of_fmap. exists z. split; [done|].
    apply list_elem_of_filter. split; [done|]. by eapply list_elem_of_lookup_2. }
  rewrite filter_cons in Hnd.
  destruct i as [|i], j as [|j]; cbn in *; [done| | |].
  - injection Hi as ->. rewrite decide_True in Hnd by done.
    rewrite fmap_cons in Hnd. apply NoDup_cons in Hnd as [Hnotin _].
    destruct Hnotin. rewrite Hf. by eapply Hin.
  - injection Hj as ->. rewrite decide_True in Hnd by done.
    rewrite fmap_cons in Hnd. apply NoDup_cons in Hnd as [Hnotin _].
    destruct Hnotin. rewrite <- Hf. by eapply Hin.
  - f_equal. apply IH; try done.
    case_decide; [|done]. rewrite fmap_cons in Hnd.
    by apply NoDup_cons in Hnd as [_ ?].
Qed.

Lemma live_same_identity s i j x y :
  NoDup (live_ids s) →
  heap s !! i = Some x → heap s !! j = Some y →
  live x = true → live y = true → UserID x = UserID y → i = j.
Proof. apply (NoDup_fmap_filter_lookup UserID (λ cl, live cl = true)). Qed.

(** The Hub's delivery attempt adds no registry entry and moves no read
    pump. *)
Lemma deliver_keeps id m s s' :
  deliver id m s = Alive s' →
  (∀ u p, Clients s' !! u = Some p → Clients s !! u = Some p) ∧
  (∀ q cl', heap s' !! q = Some cl' →
     ∃ cl, heap s !! q = Some cl ∧ readPump cl' = readPump cl).
Proof.
  assert (∀ p ch s0 q cl', heap (update_client p (with_Send ch) s0) !! q = Some cl' →
            ∃ cl, heap s0 !! q = Some cl ∧ readPump cl' = readPump cl) as Hupd.
  { intros p ch s0 q cl'. rewrite lookup_update_client.
    case_decide; [|by eauto]. destruct (heap s0 !! q) as [cl|]; [|done].
    intros [= <-]. by exists cl. }
  unfold deliver.
  destruct (Clients s !! id) as [p|]; [|intros [= <-]; by eauto].
  destruct (heap s !! p) as [cl|] eqn:Hcl; [|done].
  destruct (try_send (Send cl) m) as [ch| |]; [| |done].
  - intros [= <-]. split; [done|]. apply Hupd.
  - destruct (close (Send cl)) as [ch|]; [|done]. intros [= <-]. split.
    + intros u q. state_simpl. rewrite lookup_delete_Some. by intros [_ ?].
    + intros q cl' Hq. by apply Hupd in Hq.
Qed.

Lemma on_Broadcast_keeps m s s' :
  on_Broadcast m s = Alive s' →
  (∀ u p, Clients s' !! u = Some p → Clients s !! u = Some p) ∧
  (∀ q cl', heap s' !! q = Some cl' →
     ∃ cl, heap s !! q = Some cl ∧ readPump cl' = readPump cl).
Proof.
  unfold on_Broadcast.
  destruct (deliver (Message.ReceiverID m) m _) as [s1|] eqn:Hd1; [|done].
  intros Hd2. destruct (deliver_keeps _ _ _ _ Hd1) as [Hc1 Hh1].
  destruct (deliver_keeps _ _ _ _ Hd2) as [Hc2 Hh2]. split.
  - intros u p Hu. by apply Hc1, Hc2.
  - intros q cl' Hq. destruct (Hh2 q cl' Hq) as (cl1 & Hq1 & Hr1).
    destruct (Hh1 q cl1 Hq1) as (cl & Hq0 & Hr0). exists cl.
    split; [done|congruence].
Qed.

Lemma body_Clients e u r s : Clients (readPump_body e u r s).1 = Clients s.
Proof.
  destruct (body_cases Validate e u r s); cbn [fst]; by state_simpl.
Qed.

Lemma after_body_live fl cl : live (with_readPump (after_body fl) cl) = true.
Proof. by destruct fl. Qed.

Lemma step_registered_live s ev s' :
  inv s → registered_live s → step s ev = Alive s' → registered_live s'.
Proof.
  intros Hinv HL.
  destruct ev as [e c|client e r|client|e client|client werr|client werr];
    cbn [step].
  - destruct (WebSocketChat_cases jwt_Parse Getenv e c s)
      as [->|(userID & _ & ->)]; intros [= <-]; [done|].
    intros u p cl. unfold joined. state_simpl.
    rewrite lookup_insert_Some, lookup_app_Some.
    intros Hu [Hcl|[_ Hcl]].
    + destruct Hu as [[_ <-]|[_ Hu]]; [|by eapply HL].
      apply lookup_lt_Some in Hcl. lia.
    + by apply list_lookup_singleton_Some in Hcl as [_ <-].
  - destruct (heap s !! client) as [cl|] eqn:Hcl; [|by intros [= <-]].
    destruct (readPump cl); try by intros [= <-].
    pose proof (body_heap e (UserID cl) r s) as Hh.
    pose proof (body_Clients e (UserID cl) r s) as Hc.
    destruct (readPump_body e (UserID cl) r s) as [s1 fl]. intros [= <-].
    cbn [fst] in Hh, Hc.
    intros u p cl'. state_simpl. rewrite lookup_update_client, Hc, Hh.
    intros Hu. case_decide; [|by eapply HL].
    destruct (heap s !! p); [|done]. intros [= <-]. apply after_body_live.
  - destruct (heap s !! client) as [cl|] eqn:Hcl; [|by intros [= <-]].
    destruct (readPump cl) as [|m| |]; try by intros [= <-].
    destruct (on_Broadcast m s) as [s1|] eqn:Hs1; [|done]. intros [= <-].
    destruct (on_Broadcast_keeps _ _ _ Hs1) as [Hc Hh].
    intros u p cl'. state_simpl. rewrite lookup_update_client.
    intros Hu. case_decide.
    + destruct (heap s1 !! p); [|done]. by intros [= <-].
    + intros Hp. destruct (Hh p cl' Hp) as (cl0 & Hp0 & Hr).
      unfold live. rewrite Hr. eapply (HL u p cl0); [by apply Hc|done].
  - destruct (heap s !! client) as [cl|] eqn:Hcl; [|by intros [= <-]].
    destruct (readPump cl); try by intros [= <-].
    destruct (on_Unregister e client s) as [s1|] eqn:Hs1; [|done]. intros [= <-].
    assert (∀ u p, Clients s1 !! u = Some p →
              Clients s !! u = Some p ∧ p ≠ client) as Hc.
    { revert Hs1. unfold on_Unregister. rewrite Hcl.
      destruct (Clients s !! UserID cl) as [q|] eqn:Hq.
      - destruct (close (Send cl)); [|done]. intros [= <-] u p. state_simpl.
        rewrite lookup_delete_Some. intros [Hne Hu]. split; [done|].
        intros ->. destruct (inv_registry s Hinv u client Hu) as (cl' & ? & ? & _).
        congruence.
      - intros [= <-] u p Hu. split; [done|]. intros ->.
        destruct (inv_registry s Hinv u client Hu) as (cl' & ? & ? & _).
        congruence. }
    assert (∀ q cl', q ≠ client → heap s1 !! q = Some cl' → heap s !! q = Some cl')
      as Hh.
    { revert Hs1. unfold on_Unregister. rewrite Hcl.
      destruct (Clients s !! UserID cl); [|by intros [= <-]].
      destruct (close (Send cl)); [|done]. intros [= <-] q cl' Hne. state_simpl.
      rewrite lookup_update_client. by rewrite decide_False. }
    intros u p cl'. state_simpl. intros Hu. destruct (Hc u p Hu) as [Hu0 Hne].
    rewrite !lookup_update_client, !decide_False by done.
    intros Hp. eapply HL; [done|]. by apply Hh.
  - destruct (heap s !! client) as [cl|] eqn:Hcl; [|by intros [= <-]].
    destruct (writePump cl); intros [= <-]; [|done].
    intros u p cl'. state_simpl. rewrite lookup_update_client. intros Hu.
    case_decide; [|by eapply HL]. subst p. rewrite Hcl. intros [= <-].
    assert (readPump (writePump_recv werr cl) = readPump cl) as Hr.
    { unfold writePump_recv. destruct (buf (Send cl)); cbn;
        [by destruct (closed (Send cl))|by destruct werr]. }
    unfold live. rewrite Hr. by eapply (HL u client cl).
  - destruct (heap s !! client) as [cl|] eqn:Hcl; [|by intros [= <-]].
    destruct (writePump cl); intros [= <-]; [|done].
    intros u p cl'. state_simpl. rewrite lookup_update_client. intros Hu.
    case_decide; [|by eapply HL]. subst p. rewrite Hcl. intros [= <-].
    assert (readPump (writePump_tick werr cl) = readPump cl) as Hr.
    { unfold writePump_tick. by destruct werr. }
    unfold live. rewrite Hr. by eapply (HL u client cl).
Qed.

Lemma step_never_aborts s ev :
  inv s → registered_live s → NoDup (live_ids s) →
  ∃ s', step s ev = Alive s'.
Proof.
  intros Hinv HL Hnd.
  destruct ev as [e c|client e r|client|e client|client werr|client werr];
    cbn [step].
  - destruct (WebSocketChat_cases jwt_Parse Getenv e c s)
      as [->|(userID & _ & ->)]; by eauto.
  - destruct (heap s !! client) as [cl|] eqn:Hcl; [|by eauto].
    destruct (readPump cl); try by eauto.
    destruct (readPump_body e (UserID cl) r s). by eauto.
  - destruct (heap s !! client) as [cl|] eqn:Hcl; [|by eauto].
    destruct (readPump cl) as [|m| |] eqn:Hrd; try by eauto.
    destruct (inv_sends s Hinv client cl m Hcl Hrd) as (_ & _ & Hm).
    destruct (on_Broadcast_inv m s Hinv Hm) as (s1 & -> & _). by eauto.
  - destruct (heap s !! client) as [cl|] eqn:Hcl; [|by eauto].
    destruct (readPump cl) eqn:Hrd; try by eauto.
    destruct (Clients s !! UserID cl) as [p|] eqn:Hp.
    + destruct (inv_registry s Hinv _ p Hp) as (cl' & Hcl' & Hid & Hopen).
      assert (p = client) as ->.
      { eapply (live_same_identity s p client cl' cl); try done.
        - by eapply HL.
        - unfold live. by rewrite Hrd. }
      assert (cl' = cl) as -> by congruence.
      rewrite (on_Unregister_done e client cl client) by done. by eauto.
    + rewrite (on_Unregister_skipped e client cl) by done. by eauto.
  - destruct (heap s !! client) as [cl|]; [|by eauto].
    destruct (writePump cl); by eauto.
  - destruct (heap s !! client) as [cl|]; [|by eauto].
    destruct (writePump cl); by eauto.
Qed.

Lemma run_never_aborts evs : ∀ s,
  inv s → registered_live s →
  one_session_each s evs = true → ∃ s', run s evs = Alive s'.
Proof.
  induction evs as [|ev evs IH]; intros s Hinv HL; cbn.
  - by eauto.
  - rewrite andb_true_iff, bool_decide_eq_true. intros [Hnd Hrest].
    destruct (step_never_aborts s ev Hinv HL Hnd) as (s1 & Hstep).
    rewrite Hstep in Hrest |- *. apply IH; [| |done].
    + by eapply (step_inv Validate jwt_Parse Getenv).
    + by eapply step_registered_live.
Qed.

(** X2. A run of the process in which no two clients whose read pump has
    not returned ever share an identity never aborts: it ends in a live
    state, whatever the frames, clock readings and store results. *)
Theorem one_session_each_never_aborts U evs :
  one_session_each (empty_db U) evs = true →
  ∃ s, run (empty_db U) evs = Alive s.
Proof.
  apply run_never_aborts.
  - apply inv_empty_db.
  - intros u p cl. cbn. by rewrite lookup_empty.
Qed.

(** ** Who a dispatch does not touch *)

(** X3. When the Hub takes a message, the users and messages collections
    stay as they are, the registry entry of every identity other than the
    message's sender and receiver stays as it is, and so does every client
    of such an identity: queue, transport and pumps. *)
Theorem dispatch_leaves_third_parties U s client cl m :
  reachable U s →
  heap s !! client = Some cl → readPump cl = SendingBroadcast m →
  ∃ s', step s (TakeBroadcast client) = Alive s' ∧
    users s' = users s ∧ messages s' = messages s ∧
    (∀ u, u ≠ Message.ReceiverID m → u ≠ Message.SenderID m →
       Clients s' !! u = Clients s !! u) ∧
    (∀ p t, heap s !! p = Some t →
       UserID t ≠ Message.ReceiverID m → UserID t ≠ Message.SenderID m →
       heap s' !! p = Some t).
Proof.
  intros Hreach Hcl Hpend.
  pose proof (reachable_inv Validate jwt_Parse Getenv U s Hreach) as Hinv.
  destruct (inv_sends s Hinv client cl m Hcl Hpend) as (Hsender & _ & _).
  destruct (TakeBroadcast_step Validate jwt_Parse Getenv U s client cl m
              Hreach Hcl Hpend) as (s1 & Hs1 & Hstep & Hu & Hm & _).
  eexists. split; [exact Hstep|]. state_simpl. split; [done|]. split; [done|].
  revert Hs1. unfold on_Broadcast.
  set (s0 := set_dispatched (λ l, l ++ [m]) s).
  assert (registry_ok s0) as Hreg0 by apply Hinv.
  destruct (deliver (Message.ReceiverID m) m s0) as [sr|] eqn:Hd1; [|done].
  intros Hd2.
  pose proof (deliver_registry_ok _ _ _ _ Hreg0 Hd1) as Hreg1.
  destruct (deliver_bystander _ m s0 sr Hreg0 Hd1) as [Hc1 Hh1].
  destruct (deliver_bystander _ m sr s1 Hreg1 Hd2) as [Hc2 Hh2].
  split.
  - intros u Hr Hsn. by rewrite Hc2, Hc1.
  - intros p t Ht Hr Hsn. rewrite lookup_update_client.
    rewrite decide_False by (intros ->; congruence).
    apply Hh2; [|done]. by apply Hh1.
Qed.

(** ** A second login *)

(** X4. When an identity that already has a registry entry is accepted
    again, the registry entry moves to the new client, and the displaced
    client is left exactly as it was: its queue open, its transport open,
    its pumps running. *)
Theorem second_login_displaces_without_closing U s e c u p cl :
  reachable U s → certifies c u →
  Clients s !! u = Some p → heap s !! p = Some cl →
  ∃ s', step s (Connect e c) = Alive s' ∧
    Clients s' !! u = Some (length (heap s)) ∧ length (heap s) ≠ p ∧
    heap s' !! p = Some cl ∧ closed (Send cl) = false ∧ live cl = true.
Proof.
  intros Hreach Hcert Hu Hcl.
  pose proof (reachable_inv Validate jwt_Parse Getenv U s Hreach) as Hinv.
  destruct (inv_registry s Hinv u p Hu) as (cl' & Hcl' & _ & Hopen).
  assert (cl' = cl) as -> by congruence.
  assert (registered_live s) as HL.
  { destruct Hreach as [evs Hrun]. revert Hrun.
    assert (registered_live (empty_db U)) as HL0
      by (intros ???; cbn; by rewrite lookup_empty).
    pose proof (inv_empty_db U) as Hinv0.
    revert HL0 Hinv0. generalize (empty_db U).
    induction evs as [|ev evs IH]; intros s0 HL0 Hinv0; cbn.
    - by intros [= ->].
    - destruct (step s0 ev) as [s1|] eqn:Hstep; [|done].
      apply IH; [by eapply step_registered_live|].
      by eapply (step_inv Validate jwt_Parse Getenv). }
  exists (joined e c u s). split.
  { cbn [step]. by rewrite (WebSocketChat_accepts jwt_Parse Getenv e c u s). }
  unfold joined. state_simpl. split; [apply lookup_insert_eq|].
  apply lookup_lt_Some in Hcl as Hlt. split; [lia|].
  split; [by apply lookup_app_l_Some|]. split; [done|].
  by eapply (HL u p cl).
Qed.

(** ** A client without a registry entry *)

Lemma deliver_unregistered id m s s' p t :
  (∀ u, Clients s !! u ≠ Some p) → heap s !! p = Some t →
  deliver id m s = Alive s' → heap s' !! p = Some t.
Proof.
  intros Hno Ht. unfold deliver.
  destruct (Clients s !! id) as [q|] eqn:Hq; [|by intros [= <-]].
  assert (q ≠ p) by (intros ->; by eapply Hno).
  destruct (heap s !! q) as [clq|]; [|done].
  destruct (try_send (Send clq) m); [| |done].
  - intros [= <-]. by rewrite lookup_update_client, decide_False.
  - destruct (close (Send clq)); [|done]. intros [= <-].
    by rewrite lookup_update_client, decide_False.
Qed.

Lemma suffix_update_client p t s q f :
  heap s !! p = Some t →
  (q = p → buf (Send (f t)) `suffix_of` buf (Send t)) →
  ∃ t', heap (update_client q f s) !! p = Some t' ∧
        buf (Send t') `suffix_of` buf (Send t).
Proof.
  intros Ht Hf. rewrite lookup_update_client.
  case_decide; [|by eauto]. rewrite Ht. eexists. split; [done|]. by apply Hf.
Qed.

Lemma writePump_recv_suffix werr cl :
  buf (Send (writePump_recv werr cl)) `suffix_of` buf (Send cl).
Proof.
  unfold writePump_recv. destruct (buf (Send cl)) as [|m rest] eqn:Hbuf.
  - destruct (closed (Send cl)); cbn; by rewrite ?Hbuf.
  - destruct werr; cbn; by apply suffix_cons_r.
Qed.

(** A client no registry entry designates stays so, and its queue can only
    lose messages. *)
Lemma step_unregistered_deaf s ev s' p t :
  (∀ u, Clients s !! u ≠ Some p) → heap s !! p = Some t →
  step s ev = Alive s' →
  (∀ u, Clients s' !! u ≠ Some p) ∧
  ∃ t', heap s' !! p = Some t' ∧ buf (Send t') `suffix_of` buf (Send t).
Proof.
  intros Hno Ht.
  destruct ev as [e c|client e r|client|e client|client werr|client werr];
    cbn [step].
  - destruct (WebSocketChat_cases jwt_Parse Getenv e c s)
      as [->|(userID & _ & ->)]; intros [= <-]; [by eauto|].
    unfold joined. state_simpl. apply lookup_lt_Some in Ht as Hlt. split.
    + intros u. rewrite lookup_insert_Some. intros [[_ ?]|[_ ?]]; [lia|].
      by eapply Hno.
    + exists t. split; [by apply lookup_app_l_Some|done].
  - destruct (heap s !! client) as [cl|] eqn:Hcl; [|intros [= <-]; by eauto].
    destruct (readPump cl); try (intros [= <-]; by eauto).
    pose proof (body_heap e (UserID cl) r s) as Hh.
    pose proof (body_Clients e (UserID cl) r s) as Hc.
    destruct (readPump_body e (UserID cl) r s) as [s1 fl]. intros [= <-].
    cbn [fst] in Hh, Hc. state_simpl. rewrite Hc. split; [done|].
    apply suffix_update_client; [by rewrite Hh|]. by intros _.
  - destruct (heap s !! client) as [cl|] eqn:Hcl; [|intros [= <-]; by eauto].
    destruct (readPump cl) as [|m| |]; try (intros [= <-]; by eauto).
    destruct (on_Broadcast m s) as [s1|] eqn:Hs1; [|done]. intros [= <-].
    destruct (on_Broadcast_keeps _ _ _ Hs1) as [Hc _].
    state_simpl. split; [intros u Hu; by eapply Hno, Hc|].
    apply suffix_update_client; [|by intros _].
    revert Hs1. unfold on_Broadcast.
    destruct (deliver (Message.ReceiverID m) m _) as [sr|] eqn:Hd1; [|done].
    intros Hd2. destruct (deliver_keeps _ _ _ _ Hd1) as [Hcr _].
    eapply deliver_unregistered; [| |exact Hd2].
    + intros u Hu. by eapply Hno, Hcr.
    + by eapply deliver_unregistered; [| |exact Hd1].
  - destruct (heap s !! client) as [cl|] eqn:Hcl; [|intros [= <-]; by eauto].
    destruct (readPump cl); try (intros [= <-]; by eauto).
    assert (∀ s1, (∀ u, Clients s1 !! u ≠ Some p) →
              (∃ t1, heap s1 !! p = Some t1 ∧
                     buf (Send t1) `suffix_of` buf (Send t)) →
              (∀ u, Clients
                      (update_client client (λ cl, with_Conn (Close (Conn_ cl)) cl)
                         (update_client client (with_readPump Stopped) s1))
                    !! u ≠ Some p) ∧
              ∃ t', heap (update_client client
                            (λ cl, with_Conn (Close (Conn_ cl)) cl)
                            (update_client client (with_readPump Stopped) s1))
                      !! p = Some t' ∧
                    buf (Send t') `suffix_of` buf (Send t)) as Hfinish.
    { intros s1 Hno1 (t1 & Ht1 & Hsuf1). split; [done|].
      destruct (suffix_update_client p t1 s1 client (with_readPump Stopped))
        as (t2 & Ht2 & Hsuf2); [done|done|].
      destruct (suffix_update_client p t2
                  (update_client client (with_readPump Stopped) s1) client
                  (λ cl, with_Conn (Close (Conn_ cl)) cl))
        as (t3 & Ht3 & Hsuf3); [done|done|].
      exists t3. split; [done|]. by etrans; [|etrans]. }
    unfold on_Unregister. rewrite Hcl.
    destruct (Clients s !! UserID cl) as [q|] eqn:Hq.
    + unfold close. destruct (closed (Send cl)) eqn:Hopen; [done|].
      intros [= <-]. apply Hfinish.
      * intros u. state_simpl. rewrite lookup_delete_Some. intros [_ ?].
        by eapply Hno.
      * destruct (suffix_update_client p t (set_Clients (delete (UserID cl)) s)
                    client (with_Send {| buf := buf (Send cl);
                                         cap := cap (Send cl); closed := true |}))
          as (t1 & Ht1 & Hs1); [done| |].
        { intros ->. assert (t = cl) as -> by congruence. by cbn. }
        exists t1. split; [|done]. revert Ht1.
        rewrite !lookup_update_client. state_simpl.
        by rewrite lookup_update_client.
    + intros [= <-]. apply Hfinish; [done|by eauto].
  - destruct (heap s !! client) as [cl|] eqn:Hcl; [|intros [= <-]; by eauto].
    destruct (writePump cl); intros [= <-]; [|by eauto].
    split; [done|]. apply suffix_update_client; [done|].
    intros _. apply writePump_recv_suffix.
  - destruct (heap s !! client) as [cl|] eqn:Hcl; [|intros [= <-]; by eauto].
    destruct (writePump cl); intros [= <-]; [|by eauto].
    split; [done|]. apply suffix_update_client; [done|].
    intros _. unfold writePump_tick. by destruct werr.
Qed.

(** X5. A client that no registry entry designates never gets an entry
    again and never receives another message: in every later state of the
    process its queue is a suffix of what it was. This is the lot of an
    evicted, an unregistered and a displaced client alike. *)
Theorem unregistered_client_is_deaf evs : ∀ s s' p t,
  (∀ u, Clients s !! u ≠ Some p) → heap s !! p = Some t →
  run s evs = Alive s' →
  (∀ u, Clients s' !! u ≠ Some p) ∧
  ∃ t', heap s' !! p = Some t' ∧ buf (Send t') `suffix_of` buf (Send t).
Proof.
  induction evs as [|ev evs IH]; intros s s' p t Hno Ht; cbn.
  - intros [= <-]. by eauto.
  - destruct (step s ev) as [s1|] eqn:Hstep; [|done]. intros Hrun.
    destruct (step_unregistered_deaf s ev s1 p t Hno Ht Hstep)
      as (Hno1 & t1 & Ht1 & Hsuf1).
    destruct (IH s1 s' p t1 Hno1 Ht1 Hrun) as (Hno' & t' & Ht' & Hsuf').
    split; [done|]. exists t'. split; [done|]. by etrans.
Qed.

(** ** The write pump *)

Lemma update_client_insert p f cl s :
  heap s !! p = Some cl → update_client p f s = set_heap <[p := f cl]> s.
Proof.
  intros Hcl. unfold update_client, set_heap. f_equal.
  apply list_eq. intros i. rewrite list_lookup_alter.
  destruct (decide (p = i)) as [->|Hne].
  - rewrite Hcl. cbn. symmetry. apply list_lookup_insert_eq.
    by eapply lookup_lt_Some.
  - by rewrite list_lookup_insert_ne.
Qed.

Lemma after_sending_0 cl : after_sending 0 cl = cl.
Proof.
  destruct cl as [[q c w] u [b n cl] r wp]. unfold after_sending. cbn.
  by rewrite app_nil_r.
Qed.

Lemma after_sending_S k cl m rest :
  buf (Send cl) = m :: rest →
  after_sending k (writePump_recv false cl) = after_sending (S k) cl.
Proof.
  intros Hbuf. unfold writePump_recv. rewrite Hbuf.
  unfold after_sending. cbn. rewrite Hbuf. cbn. by rewrite <- app_assoc.
Qed.

Lemma set_heap_insert_twice p x y s :
  set_heap <[p := y]> (set_heap <[p := x]> s) = set_heap <[p := y]> s.
Proof. unfold set_heap. cbn. by rewrite list_insert_insert_eq. Qed.

(** The write pump takes and writes [k] queued messages in a row. *)
Lemma Outbound_repeat client k : ∀ s cl,
  heap s !! client = Some cl → writePump cl = true →
  k ≤ length (buf (Send cl)) →
  run s (replicate k (Outbound client false))
  = Alive (set_heap <[client := after_sending k cl]> s).
Proof.
  induction k as [|k IH]; intros s cl Hcl Hwp Hk; cbn [replicate run].
  - rewrite after_sending_0. f_equal. destruct s. unfold set_heap. cbn.
    f_equal. symmetry. by apply list_insert_id.
  - destruct (buf (Send cl)) as [|m rest] eqn:Hbuf; [cbn in Hk; lia|].
    cbn [step]. rewrite Hcl, Hwp.
    rewrite (update_client_insert client _ cl) by done.
    rewrite (IH _ (writePump_recv false cl)).
    + by rewrite set_heap_insert_twice, (after_sending_S k cl m rest).
    + cbn. apply list_lookup_insert_eq. by eapply lookup_lt_Some.
    + unfold writePump_recv. by rewrite Hbuf.
    + unfold writePump_recv. rewrite Hbuf. cbn in *. lia.
Qed.

(** X6. The write pump sends in queue order: [k] receives in a row, each
    written without error, put the first [k] queued messages on the
    transport, as JSON frames in the order they were queued, and leave the
    rest of the queue; nothing else in the state changes. *)
Theorem write_pump_sends_in_order s client cl k :
  heap s !! client = Some cl → writePump cl = true →
  k ≤ length (buf (Send cl)) →
  ∃ s', run s (replicate k (Outbound client false)) = Alive s' ∧
    written_to s' client
    = Some (written (Conn_ cl) ++ (JSONFrame <$> take k (buf (Send cl)))) ∧
    queue_of s' client
    = Some (MkChan (drop k (buf (Send cl))) (cap (Send cl)) (closed (Send cl))) ∧
    Clients s' = Clients s ∧ users s' = users s ∧ messages s' = messages s ∧
    ∀ q, q ≠ client → heap s' !! q = heap s !! q.
Proof.
  intros Hcl Hwp Hk. eexists. split; [by apply (Outbound_repeat client k s cl)|].
  apply lookup_lt_Some in Hcl as Hlt.
  unfold written_to, queue_of. cbn. rewrite list_lookup_insert_eq by done.
  repeat split; try done. intros q Hne. by rewrite list_lookup_insert_ne.
Qed.

(** X7. A closed queue is drained before the transport is closed: when
    the queue of a client is closed with [n] messages still in it, [n + 1]
    receives of its write pump write these [n] messages in order, then the
    close frame, and the pump returns, closing the transport. *)
Theorem closed_queue_is_drained_then_closed s client cl :
  heap s !! client = Some cl → writePump cl = true →
  closed (Send cl) = true →
  ∃ s', run s (replicate (S (length (buf (Send cl)))) (Outbound client false))
        = Alive s' ∧
    heap s' !! client
    = Some (after_closing (after_sending (length (buf (Send cl))) cl)) ∧
    written_to s' client
    = Some (written (Conn_ cl) ++ (JSONFrame <$> buf (Send cl)) ++ [CloseFrame]) ∧
    (∀ q, q ≠ client → heap s' !! q = heap s !! q).
Proof.
  intros Hcl Hwp Hclosed. set (n := length (buf (Send cl))).
  apply lookup_lt_Some in Hcl as Hlt.
  assert (replicate (S n) (Outbound client false)
          = replicate n (Outbound client false) ++ [Outbound client false]) as ->.
  { by rewrite <- replicate_S_end. }
  assert (∀ l1 l2 s0 s1, run s0 l1 = Alive s1 → run s0 (l1 ++ l2) = run s1 l2)
    as Happ.
  { induction l1 as [|ev l1 IH]; intros l2 s0 s1; cbn; [by intros [= ->]|].
    destruct (step s0 ev); [apply IH|done]. }
  rewrite (Happ _ _ _ _ (Outbound_repeat client n s cl Hcl Hwp (le_n _))).
  cbn [run step]. cbn [heap set_heap].
  rewrite list_lookup_insert_eq by done. cbn [writePump after_sending].
  rewrite Hwp. eexists. split; [done|].
  rewrite (update_client_insert client _ (after_sending n cl))
    by (cbn; by apply list_lookup_insert_eq).
  rewrite set_heap_insert_twice. unfold written_to. cbn [heap set_heap].
  rewrite list_lookup_insert_eq by done.
  assert (writePump_recv false (after_sending n cl)
          = after_closing (after_sending n cl)) as ->.
  { unfold writePump_recv. cbn. subst n. rewrite drop_all, Hclosed. done. }
  split; [done|]. split.
  - cbn. subst n. by rewrite firstn_all, <- app_assoc.
  - intros q Hne. by rewrite list_lookup_insert_ne.
Qed.

(** The Hub touches nobody's transport and nobody's write pump. *)
Lemma deliver_keeps_transport id m s s' :
  deliver id m s = Alive s' →
  ∀ q cl, heap s !! q = Some cl →
    ∃ cl', heap s' !! q = Some cl' ∧
      Conn_ cl' = Conn_ cl ∧ writePump cl' = writePump cl.
Proof.
  assert (∀ p ch s0 q cl, heap s0 !! q = Some cl →
            ∃ cl', heap (update_client p (with_Send ch) s0) !! q = Some cl' ∧
              Conn_ cl' = Conn_ cl ∧ writePump cl' = writePump cl) as Hupd.
  { intros p ch s0 q cl Hq. rewrite lookup_update_client.
    case_decide; [|by eauto]. rewrite Hq. by eexists. }
  unfold deliver.
  destruct (Clients s !! id) as [p|]; [|intros [= <-]; by eauto].
  destruct (heap s !! p) as [cl|] eqn:Hcl; [|done].
  destruct (try_send (Send cl) m) as [ch| |]; [| |done].
  - intros [= <-]. apply Hupd.
  - destruct (close (Send cl)) as [ch|]; [|done]. intros [= <-] q cl0 Hq.
    by apply Hupd.
Qed.

Lemma step_stopped_write_pump s ev s' p cl :
  heap s !! p = Some cl → writePump cl = false →
  step s ev = Alive s' →
  ∃ cl', heap s' !! p = Some cl' ∧ writePump cl' = false ∧
    written (Conn_ cl') = written (Conn_ cl).
Proof.
  intros Hp Hwp.
  assert (∀ s0 q f cl0, heap s0 !! p = Some cl0 →
            writePump cl0 = false → written (Conn_ cl0) = written (Conn_ cl) →
            (writePump (f cl0) = writePump cl0 ∧
             written (Conn_ (f cl0)) = written (Conn_ cl0)) →
            ∃ cl', heap (update_client q f s0) !! p = Some cl' ∧
              writePump cl' = false ∧
              written (Conn_ cl') = written (Conn_ cl)) as Hupd.
  { intros s0 q f cl0 Hq Hw0 Hwr0 [Hf1 Hf2]. rewrite lookup_update_client.
    case_decide; [|by eauto]. rewrite Hq. eexists. split; [done|].
    split; congruence. }
  destruct ev as [e c|client e r|client|e client|client werr|client werr];
    cbn [step].
  - destruct (WebSocketChat_cases jwt_Parse Getenv e c s)
      as [->|(userID & _ & ->)]; intros [= <-]; [by eauto|].
    exists cl. unfold joined. state_simpl.
    split; [by apply lookup_app_l_Some|done].
  - destruct (heap s !! client) as [cl0|] eqn:Hcl; [|intros [= <-]; by eauto].
    destruct (readPump cl0); try (intros [= <-]; by eauto).
    pose proof (body_heap e (UserID cl0) r s) as Hh.
    destruct (readPump_body e (UserID cl0) r s) as [s1 fl]. intros [= <-].
    cbn [fst] in Hh. apply (Hupd _ _ _ cl); [by rewrite Hh|done..].
  - destruct (heap s !! client) as [cl0|] eqn:Hcl; [|intros [= <-]; by eauto].
    destruct (readPump cl0) as [|m| |]; try (intros [= <-]; by eauto).
    unfold on_Broadcast.
    destruct (deliver (Message.ReceiverID m) m _) as [sr|] eqn:Hd1; [|done].
    destruct (deliver (Message.SenderID m) m sr) as [s1|] eqn:Hd2; [|done].
    intros [= <-].
    destruct (deliver_keeps_transport _ _ _ _ Hd1 p cl) as (c1 & Hc1 & Hk1 & Hw1);
      [done|].
    destruct (deliver_keeps_transport _ _ _ _ Hd2 p c1 Hc1) as (c2 & Hc2 & Hk2 & Hw2).
    apply (Hupd _ _ _ c2); [done|congruence|congruence|done].
  - destruct (heap s !! client) as [cl0|] eqn:Hcl; [|intros [= <-]; by eauto].
    destruct (readPump cl0) eqn:Hrd; try (intros [= <-]; by eauto).
    assert (∃ c1, heap (outcome_state (on_Unregister e client s)) !! p = Some c1 ∧
              writePump c1 = false ∧ written (Conn_ c1) = written (Conn_ cl))
      as (c1 & Hc1 & Hw1 & Hk1).
    { unfold on_Unregister. rewrite Hcl.
      destruct (Clients s !! UserID cl0); [|by eauto].
      destruct (close (Send cl0)) as [ch|]; cbn [outcome_state]; [|by eauto].
      state_simpl.
      destruct (Hupd (set_Clients (delete (UserID cl0)) s) client
                  (with_Send ch) cl) as (c1 & Hc1 & ?); [done..|].
      by exists c1. }
    destruct (on_Unregister e client s) as [s1|]; [|done]. intros [= <-].
    cbn [outcome_state] in Hc1.
    destruct (Hupd s1 client (with_readPump Stopped) c1) as (c2 & Hc2 & Hw2 & Hk2);
      [done..|].
    destruct (Hupd (update_client client (with_readPump Stopped) s1) client
                (λ cl, with_Conn (Close (Conn_ cl)) cl) c2) as (c3 & ? & ? & ?);
      [done..|]. by exists c3.
  - destruct (heap s !! client) as [cl0|] eqn:Hcl; [|intros [= <-]; by eauto].
    destruct (writePump cl0) eqn:Hw0; intros [= <-]; [|by eauto].
    exists cl. split; [|done]. rewrite lookup_update_client.
    rewrite decide_False; [done|]. intros ->. congruence.
  - destruct (heap s !! client) as [cl0|] eqn:Hcl; [|intros [= <-]; by eauto].
    destruct (writePump cl0) eqn:Hw0; intros [= <-]; [|by eauto].
    exists cl. split; [|done]. rewrite lookup_update_client.
    rewrite decide_False; [done|]. intros ->. congruence.
Qed.

(** X8. Once the write pump of a client has returned (after a failed
    write or after the close frame), nothing is ever written to that
    client's transport again and the pump is never restarted, however the
    process runs on. *)
Theorem returned_write_pump_writes_nothing evs : ∀ s s' p cl,
  heap s !! p = Some cl → writePump cl = false →
  run s evs = Alive s' →
  ∃ cl', heap s' !! p = Some cl' ∧ writePump cl' = false ∧
    written (Conn_ cl') = written (Conn_ cl).
Proof.
  induction evs as [|ev evs IH]; intros s s' p cl Hp Hwp; cbn.
  - intros [= <-]. by eauto.
  - destruct (step s ev) as [s1|] eqn:Hstep; [|done]. intros Hrun.
    destruct (step_stopped_write_pump s ev s1 p cl Hp Hwp Hstep)
      as (c1 & Hc1 & Hw1 & Hk1).
    destruct (IH s1 s' p c1 Hc1 Hw1 Hrun) as (c2 & Hc2 & Hw2 & Hk2).
    exists c2. split; [done|]. split; [done|congruence].
Qed.

(** ** The Hub takes the Unregister of a client once *)








End More.

(** ** The reversal loop of [GetMessages] *)

Lemma swap_ends {A} (a m b : list A) (x y : A) :
  swap (length a) (length a + 1 + length m) (a ++ [x] ++ m ++ [y] ++ b)
  = Some (a ++ [y] ++ m ++ [x] ++ b).
Proof.
  unfold swap.
  assert (Hx : (a ++ [x] ++ m ++ [y] ++ b) !! length a = Some x).
  { by rewrite lookup_app_r, Nat.sub_diag by lia. }
  assert (Hy : (a ++ [x] ++ m ++ [y] ++ b) !! (length a + 1 + length m)
               = Some y).
  { rewrite lookup_app_r by lia.
    replace (length a + 1 + length m - length a) with (S (length m)) by lia.
    cbn [app lookup list_lookup].
    change (lookup (length m) (m ++ [y] ++ b) = Some y).
    by rewrite lookup_app_r, Nat.sub_diag by lia. }
  rewrite Hx, Hy. f_equal.
  rewrite (insert_app_r_alt a _ (length a) y) by lia.
  rewrite Nat.sub_diag. cbn [app insert list_insert].
  rewrite (insert_app_r_alt a _ _ x) by lia.
  replace (length a + 1 + length m - length a) with (S (length m)) by lia.
  f_equal. cbn [insert list_insert]. f_equal.
  change (<[length m := x]> (m ++ y :: b) = m ++ x :: b).
  rewrite (insert_app_r_alt m _ _ x) by lia. by rewrite Nat.sub_diag.
Qed.

Lemma reverse_loop_spec {A} (k : nat) :
  ∀ a m b : list A, length a = k → length b = k →
    reverse_loop k (a ++ m ++ b) = Some (reverse b ++ m ++ reverse a).
Proof.
  induction k as [|k IH]; intros a m b Ha Hb.
  - destruct a; [|done]. destruct b; [|done]. done.
  - destruct (decide (a = [])) as [->|Hne]; [done|].
    destruct (exists_last Hne) as (a' & x & ->).
    destruct b as [|y b']; [done|].
    rewrite length_app in Ha. cbn in Ha, Hb.
    assert (Ha' : length a' = k) by lia.
    assert (Hb' : length b' = k) by lia.
    cbn [reverse_loop].
    replace (length ((a' ++ [x]) ++ m ++ y :: b') - 1 - k)
      with (length a' + 1 + length m)
      by (rewrite !length_app; cbn [length]; lia).
    rewrite <- Ha' at 1.
    replace ((a' ++ [x]) ++ m ++ y :: b') with (a' ++ [x] ++ m ++ [y] ++ b')
      by (by rewrite <- !app_assoc).
    rewrite swap_ends.
    replace (a' ++ [y] ++ m ++ [x] ++ b') with (a' ++ ([y] ++ m ++ [x]) ++ b')
      by (by rewrite <- !app_assoc).
    rewrite (IH a' _ b' Ha' Hb').
    f_equal. rewrite reverse_cons, reverse_app. cbn.
    by rewrite <- !app_assoc.
Qed.

(** A slice splits into a first part, a middle of at most one element and
    a last part as long as the first: what the loop swaps and what it
    leaves. *)
Lemma halves {A} (l : list A) :
  ∃ a m b, l = a ++ m ++ b ∧ length a = length l / 2
    ∧ length b = length l / 2 ∧ reverse m = m.
Proof.
  set (n := length l). set (k := n / 2).
  assert (Hk : 2 * k ≤ n).
  { subst k. pose proof (Nat.div_mod_eq n 2). lia. }
  assert (Hk' : n - 2 * k ≤ 1).
  { subst k. pose proof (Nat.div_mod_eq n 2).
    pose proof (Nat.mod_upper_bound n 2). lia. }
  exists (take k l), (take (n - 2 * k) (drop k l)), (drop (n - k) l).
  split; [|split; [|split]].
  - rewrite <- (take_drop k l) at 1. f_equal.
    rewrite <- (take_drop (n - 2 * k) (drop k l)) at 1. f_equal.
    rewrite drop_drop. f_equal. lia.
  - rewrite length_take. lia.
  - rewrite length_drop. lia.
  - assert (length (take (n - 2 * k) (drop k l)) ≤ 1)
      by (rewrite length_take; lia).
    destruct (take (n - 2 * k) (drop k l)) as [|? [|]]; cbn in *; try done; lia.
Qed.

(** X9. The loop of [GetMessages] that turns the page around never
    indexes out of range and leaves exactly the reversed slice, for a slice
    of any length, odd or even. *)
Theorem reverse_in_place_reverses {A} (messages : list A) :
  reverse_in_place messages = Some (reverse messages).
Proof.
  unfold reverse_in_place.
  destruct (halves messages) as (a & m & b & Hsplit & Ha & Hb & Hm).
  revert Ha Hb. generalize (length messages / 2). intros k Ha Hb.
  subst messages. rewrite (reverse_loop_spec k a m b Ha Hb).
  f_equal. by rewrite !reverse_app, Hm, <- app_assoc.
Qed.

(** ** Marking messages as read *)

Abbreviation mark sender receiver :=
  (λ m : Message.t, if unread_from sender receiver m then set_read m else m).

Abbreviation unread_for receiver :=
  (λ m : Message.t, Message.ReceiverID m = receiver ∧ Message.Read m = false).

Lemma unread_from_true sender receiver m :
  unread_from sender receiver m = true ↔
  Message.SenderID m = sender ∧ Message.ReceiverID m = receiver
  ∧ Message.Read m = false.
Proof.
  unfold unread_from.
  rewrite !andb_true_iff, !bool_decide_eq_true, negb_true_iff. tauto.
Qed.

Lemma unread_from_mark sender receiver m :
  unread_from sender receiver (mark sender receiver m) = false.
Proof.
  cbn beta. destruct (unread_from sender receiver m) eqn:E; [|done].
  unfold unread_from. cbn. by rewrite andb_false_r.
Qed.

Lemma mark_twice sender receiver (l : list Message.t) :
  mark sender receiver <$> (mark sender receiver <$> l)
  = mark sender receiver <$> l.
Proof.
  rewrite <- list_fmap_compose. apply list_fmap_ext. intros i m _. cbn.
  by rewrite unread_from_mark.
Qed.

Lemma nothing_left_to_mark sender receiver (l : list Message.t) :
  filter (λ m, unread_from sender receiver m = true)
    (mark sender receiver <$> l) = [].
Proof.
  induction l as [|m l IH]; [done|].
  rewrite fmap_cons, filter_cons_False; [done|].
  by rewrite unread_from_mark.
Qed.

Lemma unread_split sender receiver (l : list Message.t) :
  length (filter (unread_for receiver) l)
  = length (filter (unread_for receiver) (mark sender receiver <$> l))
    + length (filter (λ m, unread_from sender receiver m = true) l).
Proof.
  induction l as [|m l IH]; [done|].
  rewrite fmap_cons, !filter_cons.
  destruct (unread_from sender receiver m) eqn:E.
  - apply unread_from_true in E as (_ & Hr & Hu).
    rewrite !decide_True by done.
    rewrite decide_False by (cbn; intros [_ ?]; done).
    rewrite (decide_True (P := true = true)) by done.
    cbn [length]. lia.
  - rewrite (decide_False (P := false = true)) by done.
    destruct (decide (unread_for receiver m)); cbn [length]; lia.
Qed.

Lemma unread_elsewhere sender receiver third (l : list Message.t) :
  third ≠ receiver →
  filter (unread_for third) (mark sender receiver <$> l)
  = filter (unread_for third) l.
Proof.
  intros Hne. induction l as [|m l IH]; [done|].
  rewrite fmap_cons, !filter_cons, IH.
  destruct (unread_from sender receiver m) eqn:E; [|done].
  apply unread_from_true in E as (_ & Hr & _).
  rewrite !decide_False; [done| |]; cbn; intros [? _]; congruence.
Qed.

Lemma MarkMessagesRead_ok err cur other s n s' :
  MarkMessagesRead err cur other s = (JSON n, s') →
  other ≠ ""%string ∧ err = false ∧
  s' = set_messages (fmap (mark other cur)) s ∧
  n = Z.of_nat (length (filter (λ m, unread_from other cur m = true)
                          (messages s))).
Proof.
  unfold MarkMessagesRead, UpdateMany_read.
  destruct (decide (other = ""%string)); [done|].
  destruct err; [done|]. intros [= <- <-]. done.
Qed.

(** X11. When [MarkMessagesRead] answers 200, the [messages_updated] it
    reports is exactly the amount by which the caller's [GetUnreadCount]
    drops, and nobody else's unread count changes. *)
Theorem mark_read_accounts_for_unread cur other s n s' :
  MarkMessagesRead false cur other s = (JSON n, s') →
  (0 ≤ n)%Z
  ∧ GetUnreadCount false cur s' = JSON (count_unread cur s - n)%Z
  ∧ ∀ third, third ≠ cur →
      GetUnreadCount false third s' = GetUnreadCount false third s.
Proof.
  intros (_ & _ & -> & ->)%MarkMessagesRead_ok. split; [lia|].
  unfold GetUnreadCount, count_unread. cbn [messages set_messages].
  split.
  - f_equal. rewrite (unread_split other cur (messages s)). lia.
  - intros third Hne. by rewrite unread_elsewhere.
Qed.

(** X12. [MarkMessagesRead] is idempotent and touches nothing but read
    flags: a second call right after a successful one reports 0 and leaves
    the store as it is; the first leaves the Hub's state and the users
    alone, keeps every message in place with its id, parties, content, type
    and creation time, and sets the read flag of exactly the messages from
    the other user to the caller. *)
Theorem mark_read_twice_changes_nothing cur other s n s' :
  MarkMessagesRead false cur other s = (JSON n, s') →
  MarkMessagesRead false cur other s' = (JSON 0%Z, s')
  ∧ Clients s' = Clients s ∧ heap s' = heap s ∧ users s' = users s
  ∧ length (messages s') = length (messages s)
  ∧ ∀ i m, messages s !! i = Some m →
      ∃ m', messages s' !! i = Some m'
        ∧ Message.ID m' = Message.ID m
        ∧ Message.SenderID m' = Message.SenderID m
        ∧ Message.ReceiverID m' = Message.ReceiverID m
        ∧ Message.Content m' = Message.Content m
        ∧ Message.Type_ m' = Message.Type_ m
        ∧ Message.CreatedAt m' = Message.CreatedAt m
        ∧ Message.Read m' =
            Message.Read m
            || (bool_decide (Message.SenderID m = other)
                && bool_decide (Message.ReceiverID m = cur)).
Proof.
  intros (Ho & _ & -> & ->)%MarkMessagesRead_ok.
  split; [|split; [done|split; [done|split; [done|split]]]].
  - unfold MarkMessagesRead, UpdateMany_read.
    rewrite decide_False by done. cbn [messages set_messages].
    rewrite nothing_left_to_mark. cbn [length]. f_equal.
    destruct s; unfold set_messages; cbn. f_equal. apply mark_twice.
  - cbn [messages set_messages]. by rewrite length_fmap.
  - intros i m Hi. cbn [messages set_messages].
    rewrite list_lookup_fmap, Hi. cbn [fmap option_fmap option_map].
    eexists; split; [done|].
    unfold unread_from.
    destruct (bool_decide (Message.SenderID m = other)),
      (bool_decide (Message.ReceiverID m = cur)), (Message.Read m) eqn:Er;
      cbn; rewrite ?Er; done.
Qed.

Section ChatRESTProofs.

Variable Find_messages : MessagesQuery → list Message.t → Found Message.t.

Abbreviation GetMessages := (GetMessages Find_messages).

Lemma clamp limit :
  (if (100 <? limit)%Z then 100%Z else limit) = Z.min limit 100.
Proof. destruct (Z.ltb_spec 100 limit); lia. Qed.

Lemma GetMessages_found cur other page limit s docs :
  other ≠ ""%string →
  Find_messages {| q_current := cur; q_other := other;
                   q_skip := wrap ((page - 1) * Z.min limit 100);
                   q_limit := Z.min limit 100 |} (messages s) = Docs docs →
  GetMessages cur other page limit s
  = (JSON {| mb_messages := reverse docs;
             mb_pagination := {| pg_page := page;
                                 pg_limit := Z.min limit 100 |} |}, true).
Proof.
  intros Ho Hf. unfold GetMessages. rewrite decide_False by done.
  rewrite clamp, Hf. unfold reverse_in_place.
  destruct (halves docs) as (a & m & b & Hsplit & Ha & Hb & Hm).
  revert Ha Hb. generalize (length docs / 2). intros k Ha Hb.
  subst docs. rewrite (reverse_loop_spec k a m b Ha Hb).
  by rewrite !reverse_app, Hm, <- app_assoc.
Qed.

Lemma GetMessages_cases cur other page limit s :
  (∃ st err, GetMessages cur other page limit s = (ErrorJSON st err, false))
  ∨ ∃ docs, GetMessages cur other page limit s
      = (JSON {| mb_messages := reverse docs;
                 mb_pagination := {| pg_page := page;
                                     pg_limit := Z.min limit 100 |} |}, true).
Proof.
  destruct (decide (other = ""%string)) as [Ho|Ho].
  { left. unfold GetMessages. rewrite decide_True by done. by do 2 eexists. }
  destruct (Find_messages
              {| q_current := cur; q_other := other;
                 q_skip := wrap ((page - 1) * Z.min limit 100);
                 q_limit := Z.min limit 100 |} (messages s)) as [| |docs] eqn:Hf.
  - left. unfold GetMessages. rewrite decide_False by done.
    rewrite clamp, Hf. by do 2 eexists.
  - left. unfold GetMessages. rewrite decide_False by done.
    rewrite clamp, Hf. by do 2 eexists.
  - right. exists docs. by apply GetMessages_found.
Qed.

(** X10. [GetMessages] asks the store for [min(limit, 100)] documents,
    skipping [(page - 1) * min(limit, 100)], and answers what the store
    returned in the opposite order, with the page and the clamped limit
    echoed and the mark-as-read goroutine started; as the store returns
    newest first, the answer is oldest first. *)
Theorem GetMessages_serves_clamped_page_oldest_first
    cur other page limit s docs :
  other ≠ ""%string →
  Find_messages {| q_current := cur; q_other := other;
                   q_skip := wrap ((page - 1) * Z.min limit 100);
                   q_limit := Z.min limit 100 |} (messages s) = Docs docs →
  GetMessages cur other page limit s
  = (JSON {| mb_messages := reverse docs;
             mb_pagination := {| pg_page := page;
                                 pg_limit := Z.min limit 100 |} |}, true)
  ∧ (Sorted (λ a b, (Message.CreatedAt b ≤ Message.CreatedAt a)%Z) docs →
     Sorted (λ a b, (Message.CreatedAt a ≤ Message.CreatedAt b)%Z)
       (reverse docs)).
Proof.
  intros Ho Hf. split.
  - by apply GetMessages_found.
  - intros Hs. by apply Sorted_reverse in Hs.
Qed.

(** X14. Reading any one page of a conversation marks the whole
    conversation as read: once the update of the goroutine [GetMessages]
    starts has gone through, every message from the other user to the
    caller is read, whatever page and limit were asked for. *)
Theorem reading_a_page_marks_the_whole_conversation
    cur other page limit s body started :
  GetMessages cur other page limit s = (JSON body, started) →
  started = true
  ∧ ∀ m, m ∈ messages (mark_read_task false cur other s) →
      Message.SenderID m = other → Message.ReceiverID m = cur →
      Message.Read m = true.
Proof.
  intros H. split.
  - destruct (GetMessages_cases cur other page limit s)
      as [(st & err & Hc)|(docs & Hc)]; rewrite Hc in H; by injection H.
  - intros m Hm Hs Hr.
    unfold mark_read_task, UpdateMany_read in Hm.
    cbn [fst messages set_messages] in Hm.
    apply list_elem_of_fmap in Hm as (m0 & -> & _).
    cbn beta in Hs, Hr |- *.
    destruct (unread_from other cur m0) eqn:E; [done|].
    destruct (Message.Read m0) eqn:Er; [done|].
    assert (unread_from other cur m0 = true); [|congruence].
    by apply unread_from_true.
Qed.

End ChatRESTProofs.

(** ** [UpdateProfile] *)

Lemma build_updateDoc_inr e userID inp coll d :
  build_updateDoc e userID inp coll = inr d →
  (∀ u, apply_set d u =
     {| UserDoc.Username :=
          updated (UpdateProfileRequest.Username inp) (UserDoc.Username u);
        UserDoc.Email := UserDoc.Email u;
        UserDoc.Bio := updated (UpdateProfileRequest.Bio inp) (UserDoc.Bio u);
        UserDoc.Avatar :=
          updated (UpdateProfileRequest.Avatar inp) (UserDoc.Avatar u);
        UserDoc.Online := UserDoc.Online u;
        UserDoc.LastSeen := UserDoc.LastSeen u;
        UserDoc.CreatedAt := UserDoc.CreatedAt u |})
  ∧ String.length (UpdateProfileRequest.Bio inp) ≤ 500
  ∧ (UpdateProfileRequest.Username inp ≠ ""%string → count_err e = false →
     count_username (UpdateProfileRequest.Username inp) userID coll = 0%Z)
  ∧ ¬ (UpdateProfileRequest.Username inp = ""%string
       ∧ UpdateProfileRequest.Bio inp = ""%string
       ∧ UpdateProfileRequest.Avatar inp = ""%string).
Proof.
  unfold build_updateDoc, apply_set, updated.
  destruct inp as [n b a]. cbn [UpdateProfileRequest.Username
    UpdateProfileRequest.Bio UpdateProfileRequest.Avatar].
  intros H.
  assert (Hcount : n ≠ ""%string → count_err e = false →
                   count_username n userID coll = 0%Z).
  { intros Hn He. rewrite decide_True in H by done. rewrite He in H.
    destruct (Z.ltb_spec 0 (count_username n userID coll)); [done|].
    unfold count_username in *. lia. }
  assert (Hbio : String.length b ≤ 500).
  { destruct (decide (n ≠ ""%string)) as [Hn|Hn] in H;
      [destruct (0 <? _)%Z in H; [done|]|];
      (destruct (decide (b ≠ ""%string)) as [Hb|Hb] in H;
        [destruct (Nat.ltb_spec 500 (String.length b)); [done|lia]
        |apply dec_stable in Hb; subst b; cbn; lia]). }
  split; [|split; [done|split; [done|]]].
  - intros u.
    destruct (decide (n ≠ ""%string)) as [Hn|Hn] in H;
      [destruct (0 <? _)%Z in H; [done|]|apply dec_stable in Hn];
      (destruct (decide (b ≠ ""%string)) as [Hb|Hb] in H;
        [destruct (500 <? String.length b) in H; [done|]|apply dec_stable in Hb]);
      (destruct (decide (a ≠ ""%string)) as [Ha|Ha] in H;
        [|apply dec_stable in Ha]);
      (destruct (decide (size _ = 0)) in H; [done|]);
      injection H as <-;
      rewrite ?decide_True, ?decide_False by done;
      by simplify_map_eq.
  - intros (-> & -> & ->). cbn in H. done.
Qed.

Lemma build_updateDoc_inl e userID inp coll r :
  build_updateDoc e userID inp coll = inl r →
  ∃ st err, r = ErrorJSON st err.
Proof.
  unfold build_updateDoc. intros H.
  destruct (decide (UpdateProfileRequest.Username inp ≠ ""%string)) in H;
    [destruct (0 <? _)%Z in H;
       [injection H as <-; by do 2 eexists|]|];
    (destruct (decide (UpdateProfileRequest.Bio inp ≠ ""%string)) in H;
      [destruct (500 <? _) in H; [injection H as <-; by do 2 eexists|]|]);
    (destruct (decide (size _ = 0)) in H; [|done]);
    injection H as <-; by do 2 eexists.
Qed.

Lemma UpdateProfile_cases e userID input coll :
  (∃ st err, UpdateProfile e userID input coll = (ErrorJSON st err, coll))
  ∨ ∃ inp d, input = Some inp
      ∧ build_updateDoc e userID inp coll = inr d
      ∧ profile_update_err e = false
      ∧ UpdateProfile e userID input coll
        = (JSON "Profile updated successfully"%string,
           alter (apply_set d) userID coll).
Proof.
  unfold UpdateProfile. destruct input as [inp|]; [|left; by do 2 eexists].
  destruct (build_updateDoc e userID inp coll) as [r|d] eqn:Hb.
  - left. apply build_updateDoc_inl in Hb as (st & err & ->).
    by do 2 eexists.
  - destruct (profile_update_err e) eqn:He; [left; by do 2 eexists|].
    right. by exists inp, d.
Qed.

(** X15. [UpdateProfile] changes at most the caller's own document, and
    in it only username, bio and avatar: each becomes the request's value
    when that is not empty and stays as it was otherwise (so no field can be
    cleared); email, presence and creation time stay; every answer other
    than 200 leaves the collection as it is; no document is created. *)
Theorem UpdateProfile_changes_only_named_fields e userID input coll r coll' :
  UpdateProfile e userID input coll = (r, coll') →
  (∀ id, id ≠ userID → coll' !! id = coll !! id)
  ∧ (coll !! userID = None → coll' !! userID = None)
  ∧ ((∀ msg, r ≠ JSON msg) → coll' = coll)
  ∧ ∀ msg u, r = JSON msg → coll !! userID = Some u →
      ∃ inp, input = Some inp ∧
        coll' !! userID = Some
          {| UserDoc.Username :=
               updated (UpdateProfileRequest.Username inp) (UserDoc.Username u);
             UserDoc.Email := UserDoc.Email u;
             UserDoc.Bio :=
               updated (UpdateProfileRequest.Bio inp) (UserDoc.Bio u);
             UserDoc.Avatar :=
               updated (UpdateProfileRequest.Avatar inp) (UserDoc.Avatar u);
             UserDoc.Online := UserDoc.Online u;
             UserDoc.LastSeen := UserDoc.LastSeen u;
             UserDoc.CreatedAt := UserDoc.CreatedAt u |}.
Proof.
  intros H.
  destruct (UpdateProfile_cases e userID input coll)
    as [(st & err & Hc)|(inp & d & -> & Hb & He & Hc)];
    rewrite Hc in H; injection H as <- <-.
  - repeat split; try done.
  - apply build_updateDoc_inr in Hb as (Hset & _).
    split; [|split; [|split]].
    + intros id Hne. by rewrite lookup_alter_ne.
    + intros Hn. by rewrite lookup_alter_eq, Hn.
    + intros Hno. by destruct (Hno "Profile updated successfully"%string).
    + intros msg u _ Hu. exists inp. split; [done|].
      by rewrite lookup_alter_eq, Hu, <- Hset.
Qed.

(** X16. [UpdateProfile] keeps every bio within 500 bytes. *)
Theorem UpdateProfile_keeps_bios_short e userID input coll r coll' :
  (∀ id u, coll !! id = Some u → String.length (UserDoc.Bio u) ≤ 500) →
  UpdateProfile e userID input coll = (r, coll') →
  ∀ id u, coll' !! id = Some u → String.length (UserDoc.Bio u) ≤ 500.
Proof.
  intros Hinv H id u' Hu'.
  destruct (UpdateProfile_cases e userID input coll)
    as [(st & err & Hc)|(inp & d & -> & Hb & He & Hc)];
    rewrite Hc in H; injection H as <- <-.
  - by apply (Hinv id).
  - apply build_updateDoc_inr in Hb as (Hset & Hlen & _).
    destruct (decide (id = userID)) as [->|Hne].
    + rewrite lookup_alter_eq in Hu'.
      destruct (coll !! userID) as [u|] eqn:Hu; [|done].
      cbn in Hu'. injection Hu' as <-. rewrite Hset. cbn. unfold updated.
      case_decide; [by apply (Hinv userID)|done].
    + rewrite lookup_alter_ne in Hu' by done. by apply (Hinv id).
Qed.

(** X17. As long as the store answers the count, [UpdateProfile] keeps
    usernames unique. *)
Theorem UpdateProfile_keeps_usernames_unique e userID input coll r coll' :
  count_err e = false →
  usernames_unique coll →
  UpdateProfile e userID input coll = (r, coll') →
  usernames_unique coll'.
Proof.
  intros Hce Huniq H.
  destruct (UpdateProfile_cases e userID input coll)
    as [(st & err & Hc)|(inp & d & -> & Hb & He & Hc)];
    rewrite Hc in H; injection H as <- <-; [done|].
  apply build_updateDoc_inr in Hb as (Hset & _ & Hcount & _).
  assert (Hfree : ∀ j v, UpdateProfileRequest.Username inp ≠ ""%string →
            j ≠ userID → coll !! j = Some v →
            UserDoc.Username v ≠ UpdateProfileRequest.Username inp).
  { intros j v Hn Hj Hv Heq. specialize (Hcount Hn Hce).
    unfold count_username in Hcount.
    assert (Hsz : size (filter (λ kv : string * UserDoc.t,
              UserDoc.Username kv.2 = UpdateProfileRequest.Username inp
              ∧ kv.1 ≠ userID) coll) = 0) by lia.
    apply map_size_empty_iff in Hsz.
    by eapply (map_filter_empty_not_lookup _ _ j v Hsz). }
  assert (Hname : ∀ u, UserDoc.Username (apply_set d u)
            = updated (UpdateProfileRequest.Username inp) (UserDoc.Username u)).
  { intros u. by rewrite Hset. }
  intros i j u' v' Hi Hj Heq.
  destruct (decide (i = j)) as [|Hij]; [done|exfalso].
  destruct (decide (i = userID)) as [->|Hi'];
    [|destruct (decide (j = userID)) as [->|Hj']].
  - rewrite lookup_alter_eq in Hi. rewrite lookup_alter_ne in Hj by done.
    destruct (coll !! userID) as [u|] eqn:Hu; [|done].
    cbn in Hi. injection Hi as <-. rewrite Hname in Heq. unfold updated in Heq.
    case_decide.
    + by apply Hij, (Huniq _ _ _ _ Hu Hj).
    + by eapply (Hfree j v').
  - rewrite lookup_alter_ne in Hi by done. rewrite lookup_alter_eq in Hj.
    destruct (coll !! userID) as [v|] eqn:Hv; [|done].
    cbn in Hj. injection Hj as <-. rewrite Hname in Heq. unfold updated in Heq.
    case_decide.
    + by apply Hij, (Huniq _ _ _ _ Hi Hv).
    + by eapply (Hfree i u').
  - rewrite lookup_alter_ne in Hi, Hj by done.
    by apply Hij, (Huniq _ _ _ _ Hi Hj).
Qed.

(** X18. [UpdateProfile] answers 200 for a request that passes its checks
    even when the caller has no document: nothing is updated and nothing
    created. *)
Theorem UpdateProfile_reports_success_without_document
    e userID inp coll d :
  coll !! userID = None →
  build_updateDoc e userID inp coll = inr d →
  profile_update_err e = false →
  UpdateProfile e userID (Some inp) coll
  = (JSON "Profile updated successfully"%string, coll).
Proof.
  intros Hn Hb He. unfold UpdateProfile. rewrite Hb, He. f_equal.
  apply map_eq. intros id. destruct (decide (id = userID)) as [->|Hne].
  - by rewrite lookup_alter_eq, Hn.
  - by rewrite lookup_alter_ne.
Qed.

(** ** [ListUsers] *)

Section UserRESTProofs.

Variable Find_users : UsersQuery → option (list (option UserItem)).
Variable Count_users : UsersFilter → Z * bool.

Abbreviation ListUsers := (ListUsers Find_users Count_users).

(** X19. Behind a driver that refuses a sort given as a map of more than
    one key (a Go map has no order; the Go driver returns an error before
    it sends anything), [ListUsers] answers 500 "Failed to fetch users"
    to every request, whatever the caller, the filters, the page and the
    limit: the sort it passes is a map of two keys. It lists nobody and
    never reaches its pagination arithmetic. *)
Theorem ListUsers_fails_on_its_sort_map cur online search page limit :
  (∀ q, 1 < size (uq_sort q) → Find_users q = None) →
  ListUsers cur online search page limit
  = ErrorJSON StatusInternalServerError "Failed to fetch users".
Proof.
  intros Hdriver. unfold ListUsers.
  rewrite Hdriver; [done|]. cbn [uq_sort].
  rewrite map_size_insert_None, map_size_singleton; [lia|].
  by rewrite lookup_singleton_ne.
Qed.

End UserRESTProofs.

Import Example.

(** * The model run on examples *)

(** C2 on an example: Bob's queue holds 256 messages, Alice's is empty,
    and Alice's read pump is handing the Hub one more message for Bob. *)
Lemma dispatch_overflow_evicts_witness :
  ∃ s', Example.step bob_full_pending (TakeBroadcast 0) = Alive s' ∧
    ∀ id p t,
      id = Message.ReceiverID last_straw ∨ id = Message.SenderID last_straw →
      Clients bob_full_pending !! id = Some p →
      heap bob_full_pending !! p = Some t →
      (cap (Send t) ≤ length (buf (Send t)) →
         Clients s' !! id = None ∧
         queue_of s' p = Some (MkChan (buf (Send t)) (cap (Send t)) true)) ∧
      (length (buf (Send t)) < cap (Send t) →
         Clients s' !! id = Some p ∧
         queue_of s' p
         = Some (MkChan (buf (Send t) ++ [last_straw]) (cap (Send t)) false)).
Proof.
  eapply (dispatch_overflow_evicts Validate jwt_Parse Getenv U
            bob_full_pending 0 _ last_straw).
  - exists one_more. vm_compute. reflexivity.
  - vm_compute. reflexivity.
  - reflexivity.
Defined.

Lemma Alive_inj s1 s2 : Alive s1 = Alive s2 → s1 = s2.
Proof. by intros [= ->]. Qed.

(** Alice and Bob online with empty queues: a reachable state. *)
Lemma both_idle_reachable :
  reachable Validate jwt_Parse Getenv U both_idle.
Proof. exists two_online. vm_compute. reflexivity. Defined.

Lemma alice_idle : heap both_idle !! 0 = Some (started (dial "alice") "alice").
Proof. vm_compute. reflexivity. Defined.

Lemma bob_idle : heap both_idle !! 1 = Some (started (dial "bob") "bob").
Proof. vm_compute. reflexivity. Defined.

(** C6 on an example: Alice sends Bob an empty content. *)
Lemma invalid_request_dropped_witness :
  readPump_body Validate (ok_env 7 3) "alice" (say "bob" "") both_idle
  = (both_idle, Continue) ∧
  Example.step both_idle (Inbound 0 (ok_env 7 3) (say "bob" "")) = Alive both_idle.
Proof.
  apply (invalid_request_dropped Validate jwt_Parse Getenv both_idle 0
           (started (dial "alice") "alice")).
  - exact alice_idle.
  - reflexivity.
  - vm_compute. discriminate.
Defined.

(** C3 on an example: the store refuses the insert of Alice's message. *)
Lemma persistence_gates_dispatch_witness :
  Example.step both_idle (Inbound 0 broken_store (say "bob" "hi"))
  = Alive (log_Printf "Failed to save message: connection reset" both_idle).
Proof.
  refine (proj2 (proj2 (proj2
    (persistence_gates_dispatch Validate jwt_Parse Getenv U both_idle
       both_idle_reachable)))
    0 (started (dial "alice") "alice") broken_store _ "connection reset"%string
    alice_idle _ _ _ _).
  - reflexivity.
  - vm_compute. reflexivity.
  - vm_compute. discriminate.
  - reflexivity.
Defined.

(** C5 on an example: the state after 257 messages from Alice to Bob. *)
Lemma no_self_addressed_message_witness :
  Forall not_self (messages bob_evicted) ∧
  Forall not_self (dispatched bob_evicted) ∧
  (∀ client cl e msgReq,
     heap bob_evicted !! client = Some cl → readPump cl = Reading →
     SendMessageRequest.ReceiverID msgReq = UserID cl →
     Example.step bob_evicted (Inbound client e (Decoded msgReq))
     = Alive bob_evicted).
Proof.
  apply (no_self_addressed_message Validate jwt_Parse Getenv U bob_evicted).
  exists (one_more ++ [TakeBroadcast 0]). vm_compute. reflexivity.
Defined.

(** C4 (as the code has it) on an example: scenario 1 of the spec. *)
Lemma valid_request_persisted_then_fanned_out_witness :
  ∃ s1 s3,
    Example.step both_idle (Inbound 0 (ok_env 7 3) (say "bob" "hi")) = Alive s1 ∧
    Example.step s1 (TakeBroadcast 0) = Alive s3 ∧
    messages s1
    = [{| Message.ID := 7; Message.SenderID := "alice";
          Message.ReceiverID := "bob"; Message.Content := "hi";
          Message.Type_ := "text"; Message.Read := false;
          Message.CreatedAt := 3 |}] ∧
    dispatched s3 = messages s1 ∧
    (buf <$> queue_of s3 1) = Some (messages s1) ∧
    (buf <$> queue_of s3 0) = Some (messages s1).
Proof.
  destruct (valid_request_persisted_then_fanned_out Validate jwt_Parse Getenv
              U both_idle 0 (started (dial "alice") "alice") (ok_env 7 3)
              {| SendMessageRequest.ReceiverID := "bob";
                 SendMessageRequest.Content := "hi";
                 SendMessageRequest.Type_ := "text" |})
    as [(s1 & Hs1 & Hreach1 & Hm1 & Hp1) Hfan].
  - exact both_idle_reachable.
  - exact alice_idle.
  - reflexivity.
  - vm_compute. reflexivity.
  - vm_compute. discriminate.
  - reflexivity.
  - destruct (heap s1 !! 0) as [cl1|] eqn:Hcl1; [|discriminate Hp1].
    injection Hp1 as Hp1.
    destruct (Hfan s1 cl1 Hreach1 Hcl1 Hp1) as (s3 & Hs3 & Hd3 & Hq).
    assert (Example.step both_idle (Inbound 0 (ok_env 7 3) (say "bob" "hi"))
            = Alive (state_after (two_online ++
                       [Inbound 0 (ok_env 7 3) (say "bob" "hi")]))) as Hs1'
      by (vm_compute; reflexivity).
    assert (s1 = state_after (two_online ++
                       [Inbound 0 (ok_env 7 3) (say "bob" "hi")])) as ->
      by (unfold Example.step, say in Hs1'; rewrite Hs1 in Hs1';
          exact (Alive_inj _ _ Hs1')).
    assert (Example.step (state_after (two_online ++
                       [Inbound 0 (ok_env 7 3) (say "bob" "hi")]))
              (TakeBroadcast 0)
            = Alive (state_after (two_online ++
                       [Inbound 0 (ok_env 7 3) (say "bob" "hi");
                        TakeBroadcast 0]))) as Hs3'
      by (vm_compute; reflexivity).
    assert (s3 = state_after (two_online ++
                       [Inbound 0 (ok_env 7 3) (say "bob" "hi");
                        TakeBroadcast 0])) as ->
      by (unfold Example.step in Hs3'; rewrite Hs3 in Hs3';
          exact (Alive_inj _ _ Hs3')).
    eexists _, _. split; [exact Hs1|]. split; [exact Hs3|].
    vm_compute. repeat split; reflexivity.
Defined.

(** Presence on examples: a Register of Alice's client, an Unregister of Bob's
    client, a message from Alice to Bob, all with Alice and Bob online. *)
Lemma presence_transitions_witness :
  (∃ s', Hub_run (at_ 3) (RecvRegister 0) both_idle = Alive s' ∧
     users s' !! "alice"%string
     = Some {| User.Online := true; User.LastSeen := 3 |}) ∧
  (∃ s', Hub_run (at_ 3) (RecvUnregister 1) both_idle = Alive s' ∧
     Clients s' !! "bob"%string = None ∧
     users s' !! "bob"%string
     = Some {| User.Online := false; User.LastSeen := 3 |}) ∧
  (∃ s', Hub_run (at_ 4) (RecvUnregister 0) both_idle = Alive s' ∧
     Clients s' !! "alice"%string = None ∧
     users s' !! "alice"%string
     = Some {| User.Online := false; User.LastSeen := 4 |}) ∧
  (∃ s', Example.step both_idle (Inbound 0 (ok_env 7 3) (say "bob" "hi"))
         = Alive s' ∧
     (∀ u, online_of s' u = online_of both_idle u) ∧
     users s' !! "alice"%string
     = Some {| User.Online := true; User.LastSeen := 3 |}).
Proof.
  destruct (presence_transitions Validate jwt_Parse Getenv)
    as (Hreg & Hunreg & Hown & Hin).
  split; [|split; [|split]].
  - destruct (Hreg (at_ 3) 0 (started (dial "alice") "alice")
                {| User.Online := true; User.LastSeen := 1 |} both_idle)
      as (s' & Hs & Hu & _).
    + exact alice_idle.
    + vm_compute. reflexivity.
    + reflexivity.
    + exists s'. split; [exact Hs|exact Hu].
  - destruct (Hunreg (at_ 3) 1 (started (dial "bob") "bob")
                {| User.Online := true; User.LastSeen := 2 |} both_idle)
      as (s' & Hs & Hgone & Hu & _).
    + exact bob_idle.
    + exists 1. vm_compute. reflexivity.
    + reflexivity.
    + vm_compute. reflexivity.
    + reflexivity.
    + exists s'. split; [exact Hs|]. split; [exact Hgone|exact Hu].
  - destruct (Hown U (at_ 4) 0 (started (dial "alice") "alice")
                {| User.Online := true; User.LastSeen := 1 |} both_idle)
      as (s' & Hs & Hgone & Hu).
    + exact both_idle_reachable.
    + exact alice_idle.
    + vm_compute. reflexivity.
    + vm_compute. reflexivity.
    + reflexivity.
    + exists s'. split; [exact Hs|]. split; [exact Hgone|exact Hu].
  - destruct (Hin (ok_env 7 3) 0 (started (dial "alice") "alice")
                {| SendMessageRequest.ReceiverID := "bob";
                   SendMessageRequest.Content := "hi";
                   SendMessageRequest.Type_ := "text" |} both_idle)
      as (s' & Hs & Hon & _ & Hseen & _).
    + exact alice_idle.
    + reflexivity.
    + vm_compute. reflexivity.
    + vm_compute. discriminate.
    + reflexivity.
    + exists s'. split; [exact Hs|]. split; [exact Hon|].
      apply (Hseen {| User.Online := true; User.LastSeen := 1 |}).
      * vm_compute. reflexivity.
      * reflexivity.
Defined.

Lemma alice_certified : certifies jwt_Parse Getenv (dial "alice") "alice".
Proof.
  split; [vm_compute; discriminate|].
  exists (MkToken true (MapClaims {[ "user_id"%string := VString "alice" ]})),
         {[ "user_id"%string := VString "alice" ]}.
  split; [vm_compute; reflexivity|]. split; [reflexivity|].
  split; [reflexivity|]. split; [vm_compute; reflexivity|discriminate].
Defined.

(** C9 on examples: a request without a token, and Alice's request. *)
Lemma handshake_gate_witness :
  (WebSocketChat jwt_Parse Getenv (at_ 1) anonymous (empty_db U)
   = Refused (Close anonymous) ∧
   Example.step (empty_db U) (Connect (at_ 1) anonymous) = Alive (empty_db U)) ∧
  (∃ s', Example.step (empty_db U) (Connect (at_ 1) (dial "alice")) = Alive s' ∧
     heap s' = [started (dial "alice") "alice"] ∧
     Clients s' = {[ "alice"%string := 0 ]}).
Proof.
  split.
  - destruct (proj1 (handshake_gate Validate jwt_Parse Getenv (at_ 1) anonymous
                       (empty_db U))) as (Href & _ & _ & Hstep).
    + left. reflexivity.
    + split; [exact Href|exact Hstep].
  - destruct (proj2 (proj2 (handshake_gate Validate jwt_Parse Getenv (at_ 1)
                              (dial "alice") (empty_db U)))
                "alice"%string alice_certified) as (s' & _ & Hstep & Hheap & Hreg).
    exists s'. split; [exact Hstep|]. split; [exact Hheap|exact Hreg].
Defined.

(** C10 on an example: Bob is evicted; afterwards his write pump drains
    a message, his socket fails, the Hub takes his Unregister, and Alice
    writes to him again. He is still persisted as online. *)
Lemma evicted_stays_online_witness :
  ∃ s', Example.step bob_full_pending (TakeBroadcast 0) = Alive s' ∧
    Clients s' !! "bob"%string = None ∧
    users s' = users bob_full_pending ∧
    Clients (outcome_state (Example.run s' aftermath)) !! "bob"%string = None ∧
    online_of (outcome_state (Example.run s' aftermath)) "bob" = Some true ∧
    Hub_run (at_ 9) (RecvUnregister 1) (outcome_state (Example.run s' aftermath))
    = Alive (outcome_state (Example.run s' aftermath)).
Proof.
  edestruct (evicted_stays_online Validate jwt_Parse Getenv U bob_full_pending 0)
    with (m := last_straw) (id := "bob"%string) (p := 1)
    as (s' & Hs & Hgone & _ & Hu & Hrest).
  - exists one_more. vm_compute. reflexivity.
  - vm_compute. reflexivity.
  - reflexivity.
  - left. reflexivity.
  - vm_compute. reflexivity.
  - vm_compute. reflexivity.
  - vm_compute. apply le_n.
  - assert (Example.step bob_full_pending (TakeBroadcast 0) = Alive bob_evicted)
      as Hs' by (vm_compute; reflexivity).
    assert (s' = bob_evicted) as ->
      by (unfold Example.step in Hs'; rewrite Hs in Hs';
          exact (Alive_inj _ _ Hs')).
    destruct (Hrest aftermath) as (Hc & Ho & Hskip).
    + vm_compute. reflexivity.
    + exists bob_evicted. split; [exact Hs|]. split; [exact Hgone|].
      split; [exact Hu|]. split; [exact Hc|]. split.
      * unfold Example.run. rewrite Ho. vm_compute. reflexivity.
      * apply Hskip.
Defined.

(** C4, as stated, fails in two places. Where Bob's queue is full: Alice
    and Bob are both registered, Alice's request is valid and its insert
    succeeds, yet the message is not appended to Bob's queue; Bob's entry
    is removed and his queue is closed with the 256 messages it held.
    Where the insert fails: both are registered with empty queues, the
    request is valid, and nothing is inserted, dispatched or enqueued. *)
Lemma valid_request_not_enqueued_when_queue_full :
  (Clients bob_full !! "alice"%string = Some 0 ∧
   Clients bob_full !! "bob"%string = Some 1 ∧
   Validate {| SendMessageRequest.ReceiverID := "bob";
               SendMessageRequest.Content := "one more";
               SendMessageRequest.Type_ := "text" |} = [] ∧
   Example.run bob_full
     [Inbound 0 (ok_env 9 5) (say "bob" "one more"); TakeBroadcast 0]
   = Alive bob_evicted ∧
   last (messages bob_evicted) = Some last_straw ∧
   (buf <$> queue_of bob_evicted 0) = Some [last_straw] ∧
   bool_decide (last_straw ∈ default [] (buf <$> queue_of bob_evicted 1)) = false ∧
   (closed <$> queue_of bob_evicted 1) = Some true ∧
   Clients bob_evicted !! "bob"%string = None) ∧
  (Clients both_idle !! "alice"%string = Some 0 ∧
   Clients both_idle !! "bob"%string = Some 1 ∧
   Validate {| SendMessageRequest.ReceiverID := "bob";
               SendMessageRequest.Content := "hi";
               SendMessageRequest.Type_ := "text" |} = [] ∧
   ∃ s', Example.run both_idle
           [Inbound 0 broken_store (say "bob" "hi"); TakeBroadcast 0]
         = Alive s' ∧
     messages s' = [] ∧ dispatched s' = [] ∧
     (buf <$> queue_of s' 0) = Some [] ∧ (buf <$> queue_of s' 1) = Some []).
Proof.
  split.
  - vm_compute. repeat split; reflexivity.
  - vm_compute. repeat split; try reflexivity.
    eexists. repeat split; reflexivity.
Qed.

(** C1 on the code. Alice has two sessions, client 0 and then client 1,
    and the registry maps her identity to client 1. When the Hub takes the
    Unregister of client 0, it removes that entry and writes her offline,
    while client 1 stays as it was: reading, writing, its queue open and
    its transport open, but no longer registered. *)
Lemma stale_unregister_removes_newer_entry :
  Example.run (empty_db U) second_login = Alive stale_leaving ∧
  Clients stale_leaving !! "alice"%string = Some 1 ∧
  (readPump <$> heap stale_leaving !! 0) = Some SendingUnregister ∧
  online_of stale_leaving "alice" = Some true ∧
  ∃ s', Example.step stale_leaving (TakeUnregister (at_ 9) 0) = Alive s' ∧
    Clients s' !! "alice"%string = None ∧
    users s' !! "alice"%string
    = Some {| User.Online := false; User.LastSeen := 9 |} ∧
    heap s' !! 1 = Some (started (dial "alice") "alice") ∧
    queue_of s' 0 = Some (MkChan [] 256 true).
Proof.
  vm_compute. repeat split; try reflexivity.
  eexists. repeat split; reflexivity.
Qed.

(** The guard of C1 seen from the Unregister case of [Hub.run] alone, on an
    input the process never hands it (the read pump of client 0 has
    returned). Client 0 has been unregistered once (its queue is closed,
    Alice was written offline) and Alice is registered again as client 1.
    Handed client 0 once more, the case would remove the entry of client 1
    and abort on closing the closed queue. *)
Lemma second_unregister_removes_entry_and_aborts :
  (closed <$> queue_of back_again 0) = Some true ∧
  Clients back_again !! "alice"%string = Some 1 ∧
  Hub_run (at_ 6) (RecvUnregister 0) back_again
  = Crashed (set_Clients (delete "alice"%string) back_again) ∧
  Clients (set_Clients (delete "alice"%string) back_again) !! "alice"%string = None.
Proof. vm_compute. repeat split; reflexivity. Qed.


(** C8 on the code. Bob's session 1 was evicted for a full queue (its queue
    is closed), Bob is registered again as client 2 and written online, and
    the read pump of session 1 sends its Unregister. The Hub finds an entry
    for Bob, removes it, and aborts on closing the closed queue before it
    reaches the presence write: the entry is gone and Bob is still
    persisted online. *)
Lemma unregister_removes_entry_without_presence_write :
  Example.run (empty_db U) bob_returns = Alive bob_twice ∧
  Clients bob_twice !! "bob"%string = Some 2 ∧
  (readPump <$> heap bob_twice !! 1) = Some SendingUnregister ∧
  online_of bob_twice "bob" = Some true ∧
  ∃ s', Example.step bob_twice (TakeUnregister (at_ 8) 1) = Crashed s' ∧
    Clients s' !! "bob"%string = None ∧
    users s' = users bob_twice ∧
    online_of s' "bob" = Some true.
Proof.
  vm_compute. repeat split; try reflexivity.
  eexists. repeat split; reflexivity.
Qed.

(** The same defect in a run of the whole process: Bob's session 1 was
    evicted for a full queue, Bob is registered again as client 2, and the
    read pump of session 1 sends its Unregister. The Hub removes the entry
    of client 2 and aborts on closing the queue the eviction had closed. *)
Lemma unregister_after_eviction_aborts :
  Example.run (empty_db U) bob_returns = Alive bob_twice ∧
  Clients bob_twice !! "bob"%string = Some 2 ∧
  (closed <$> queue_of bob_twice 1) = Some true ∧
  Example.step bob_twice (TakeUnregister (at_ 8) 1)
  = Crashed (set_Clients (delete "bob"%string) bob_twice).
Proof. vm_compute. repeat split; reflexivity. Qed.

Import Scenes.

(** * The rest of the controllers on examples *)

(** X1 on an example: Bob's queue after 256 messages nobody drained. *)
Lemma queue_never_exceeds_capacity_witness :
  ∃ cl, heap bob_full !! 1 = Some cl ∧
    cap (Send cl) = 256 ∧ length (buf (Send cl)) ≤ 256.
Proof.
  destruct (heap bob_full !! 1) as [cl|] eqn:H;
    [|vm_compute in H; discriminate H].
  exists cl. split; [reflexivity|].
  apply (queue_never_exceeds_capacity Validate jwt_Parse Getenv U bob_full 1 cl);
    [|exact H].
  exists (two_online ++ flood 256). vm_compute. reflexivity.
Defined.

(** X2 on an example: the evening of Bob's eviction. *)
Lemma one_session_each_never_aborts_witness :
  ∃ s, Example.run (empty_db U) evening = Alive s.
Proof.
  apply (one_session_each_never_aborts Validate jwt_Parse Getenv U evening).
  vm_compute. reflexivity.
Defined.

(** X3 on an example: Carol while the Hub dispatches Alice's message to
    Bob. *)
Lemma dispatch_leaves_third_parties_witness :
  ∃ s', Example.step hi_pending (TakeBroadcast 0) = Alive s' ∧
    users s' = users hi_pending ∧ messages s' = messages hi_pending ∧
    (∀ u, u ≠ Message.ReceiverID hi → u ≠ Message.SenderID hi →
       Clients s' !! u = Clients hi_pending !! u) ∧
    (∀ p t, heap hi_pending !! p = Some t →
       UserID t ≠ Message.ReceiverID hi → UserID t ≠ Message.SenderID hi →
       heap s' !! p = Some t).
Proof.
  destruct (heap hi_pending !! 0) as [cl|] eqn:H;
    [|vm_compute in H; discriminate H].
  apply (dispatch_leaves_third_parties Validate jwt_Parse Getenv U
           hi_pending 0 cl hi).
  - exists three_online. vm_compute. reflexivity.
  - exact H.
  - vm_compute in H. injection H as <-. reflexivity.
Defined.

(** X4 on an example: Alice logs in again while her first session is
    idle. *)
Lemma second_login_displaces_without_closing_witness :
  ∃ s', Example.step both_idle (Connect (at_ 3) (dial "alice")) = Alive s' ∧
    Clients s' !! "alice"%string = Some (length (heap both_idle)) ∧
    length (heap both_idle) ≠ 0 ∧
    heap s' !! 0 = Some (started (dial "alice") "alice") ∧
    closed (Send (started (dial "alice") "alice")) = false ∧
    live (started (dial "alice") "alice") = true.
Proof.
  apply (second_login_displaces_without_closing Validate jwt_Parse Getenv U
           both_idle (at_ 3) (dial "alice") "alice" 0
           (started (dial "alice") "alice")).
  - exact both_idle_reachable.
  - exact alice_certified.
  - vm_compute. reflexivity.
  - exact alice_idle.
Defined.

Lemma bob_evicted_unregistered u : Clients bob_evicted !! u ≠ Some 1.
Proof.
  assert (Clients bob_evicted = {[ "alice"%string := 0 ]}) as ->
    by (vm_compute; reflexivity).
  destruct (decide (u = "alice"%string)) as [->|Hne].
  - by rewrite lookup_singleton_eq.
  - by rewrite lookup_singleton_ne.
Qed.

(** X5 on an example: Bob's evicted client through what follows. *)
Lemma unregistered_client_is_deaf_witness :
  ∃ t, heap bob_evicted !! 1 = Some t ∧
    (∀ u, Clients (state_after evening) !! u ≠ Some 1) ∧
    ∃ t', heap (state_after evening) !! 1 = Some t' ∧
      buf (Send t') `suffix_of` buf (Send t).
Proof.
  destruct (heap bob_evicted !! 1) as [t|] eqn:H;
    [|vm_compute in H; discriminate H].
  exists t. split; [reflexivity|].
  apply (unregistered_client_is_deaf Validate jwt_Parse Getenv aftermath
           bob_evicted (state_after evening) 1 t).
  - exact bob_evicted_unregistered.
  - exact H.
  - vm_compute. reflexivity.
Defined.

Lemma bob_three_pump : writePump <$> heap bob_three !! 1 = Some true.
Proof. vm_compute. reflexivity. Qed.

Lemma bob_three_queue :
  (λ cl, length (buf (Send cl))) <$> heap bob_three !! 1 = Some 3.
Proof. vm_compute. reflexivity. Qed.

(** X6 on an example: Bob's write pump takes two of his three messages. *)
Lemma write_pump_sends_in_order_witness :
  ∃ cl s', heap bob_three !! 1 = Some cl ∧
    Example.run bob_three (replicate 2 (Outbound 1 false)) = Alive s' ∧
    written_to s' 1
    = Some (written (Conn_ cl) ++ (JSONFrame <$> take 2 (buf (Send cl)))) ∧
    queue_of s' 1
    = Some (MkChan (drop 2 (buf (Send cl))) (cap (Send cl)) (closed (Send cl))) ∧
    Clients s' = Clients bob_three ∧ users s' = users bob_three ∧
    messages s' = messages bob_three ∧
    ∀ q, q ≠ 1 → heap s' !! q = heap bob_three !! q.
Proof.
  pose proof bob_three_pump as Hp. pose proof bob_three_queue as Hq.
  destruct (heap bob_three !! 1) as [cl|] eqn:H; [|discriminate Hp].
  cbn in Hp, Hq. injection Hp as Hp. injection Hq as Hq.
  destruct (write_pump_sends_in_order Validate jwt_Parse Getenv
              bob_three 1 cl 2) as (s' & Hs').
  - exact H.
  - exact Hp.
  - rewrite Hq. lia.
  - exists cl, s'. split; [reflexivity|]. exact Hs'.
Defined.

Lemma bob_evicted_pump :
  (λ cl, (writePump cl, closed (Send cl))) <$> heap bob_evicted !! 1
  = Some (true, true).
Proof. vm_compute. reflexivity. Qed.

(** X7 on an example: Bob's write pump after his eviction. *)
Lemma closed_queue_is_drained_then_closed_witness :
  ∃ cl s', heap bob_evicted !! 1 = Some cl ∧
    Example.run bob_evicted
      (replicate (S (length (buf (Send cl)))) (Outbound 1 false)) = Alive s' ∧
    heap s' !! 1
    = Some (after_closing (after_sending (length (buf (Send cl))) cl)) ∧
    written_to s' 1
    = Some (written (Conn_ cl) ++ (JSONFrame <$> buf (Send cl)) ++ [CloseFrame]) ∧
    (∀ q, q ≠ 1 → heap s' !! q = heap bob_evicted !! q).
Proof.
  pose proof bob_evicted_pump as Hp.
  destruct (heap bob_evicted !! 1) as [cl|] eqn:H; [|discriminate Hp].
  cbn in Hp. injection Hp as Hp Hc.
  destruct (closed_queue_is_drained_then_closed Validate jwt_Parse Getenv
              bob_evicted 1 cl) as (s' & Hs').
  - exact H.
  - exact Hp.
  - exact Hc.
  - exists cl, s'. split; [reflexivity|]. exact Hs'.
Defined.

Lemma bob_gone_pump : writePump <$> heap bob_gone !! 1 = Some false.
Proof. vm_compute. reflexivity. Qed.

(** X8 on an example: Bob's write pump has returned on a failed write with
    two messages still queued; Alice writes again. *)
Lemma returned_write_pump_writes_nothing_witness :
  ∃ cl cl', heap bob_gone !! 1 = Some cl ∧
    heap (state_after (two_online ++ flood 3 ++ [Outbound 1 true] ++ flood 1
                       ++ [Outbound 1 false; Tick 1 false])) !! 1 = Some cl' ∧
    writePump cl' = false ∧ written (Conn_ cl') = written (Conn_ cl).
Proof.
  pose proof bob_gone_pump as Hp.
  destruct (heap bob_gone !! 1) as [cl|] eqn:H; [|discriminate Hp].
  cbn in Hp. injection Hp as Hp.
  destruct (returned_write_pump_writes_nothing Validate jwt_Parse Getenv
              (flood 1 ++ [Outbound 1 false; Tick 1 false]) bob_gone
              (state_after (two_online ++ flood 3 ++ [Outbound 1 true]
                            ++ flood 1 ++ [Outbound 1 false; Tick 1 false]))
              1 cl) as (cl' & Hcl').
  - exact H.
  - exact Hp.
  - vm_compute. reflexivity.
  - exists cl, cl'. split; [reflexivity|]. exact Hcl'.
Defined.

(** X10 on an example: Alice asks for 500 messages of her conversation
    with Bob. *)
Lemma GetMessages_serves_clamped_page_oldest_first_witness :
  GetMessages Find_messages "alice" "bob" 1 500 inbox
  = (JSON {| mb_messages := [note 1 "bob" "alice" 10 true;
                             note 2 "alice" "bob" 11 false;
                             note 3 "bob" "alice" 12 false;
                             note 5 "bob" "alice" 14 false];
             mb_pagination := {| pg_page := 1; pg_limit := 100 |} |}, true).
Proof.
  refine (proj1 (GetMessages_serves_clamped_page_oldest_first Find_messages
            "alice" "bob" 1 500 inbox
            [note 5 "bob" "alice" 14 false; note 3 "bob" "alice" 12 false;
             note 2 "alice" "bob" 11 false; note 1 "bob" "alice" 10 true]
            _ _)).
  - discriminate.
  - vm_compute. reflexivity.
Defined.

(** X11 on an example: Alice marks Bob's messages as read. *)
Lemma mark_read_accounts_for_unread_witness :
  (0 ≤ 2)%Z
  ∧ GetUnreadCount false "alice" inbox_read
    = JSON (count_unread "alice" inbox - 2)%Z
  ∧ ∀ third, third ≠ "alice"%string →
      GetUnreadCount false third inbox_read = GetUnreadCount false third inbox.
Proof.
  apply (mark_read_accounts_for_unread "alice" "bob" inbox 2 inbox_read).
  vm_compute. reflexivity.
Defined.

(** X12 on an example: ... and marks them again. *)
Lemma mark_read_twice_changes_nothing_witness :
  MarkMessagesRead false "alice" "bob" inbox_read = (JSON 0%Z, inbox_read).
Proof.
  refine (proj1 (mark_read_twice_changes_nothing "alice" "bob" inbox 2
                   inbox_read _)).
  vm_compute. reflexivity.
Defined.

(** X14 on an example: Alice reads the two newest messages of her
    conversation with Bob. *)
Lemma reading_a_page_marks_the_whole_conversation_witness :
  true = true
  ∧ ∀ m, m ∈ messages (mark_read_task false "alice" "bob" inbox) →
      Message.SenderID m = "bob"%string →
      Message.ReceiverID m = "alice"%string →
      Message.Read m = true.
Proof.
  apply (reading_a_page_marks_the_whole_conversation Find_messages
           "alice" "bob" 1 2 inbox
           {| mb_messages := [note 3 "bob" "alice" 12 false;
                              note 5 "bob" "alice" 14 false];
              mb_pagination := {| pg_page := 1; pg_limit := 2 |} |} true).
  vm_compute. reflexivity.
Defined.

(** X15 on an example: [u1] sets a new bio. *)
Lemma UpdateProfile_changes_only_named_fields_witness :
  people_away !! "u2"%string = people !! "u2"%string
  ∧ people_away !! "u1"%string
    = Some {| UserDoc.Username := "alice";
              UserDoc.Email := "alice@example.org";
              UserDoc.Bio := "away"; UserDoc.Avatar := "";
              UserDoc.Online := false; UserDoc.LastSeen := 0;
              UserDoc.CreatedAt := 0 |}.
Proof.
  destruct (UpdateProfile_changes_only_named_fields store_up "u1"
              (Some (new_bio "away")) people
              (JSON "Profile updated successfully"%string) people_away)
    as (Hothers & _ & _ & Hmine).
  - vm_compute. reflexivity.
  - split; [by apply Hothers|].
    destruct (Hmine "Profile updated successfully"%string
                (person "alice" "hello") eq_refl) as (inp & Hinp & ->).
    + vm_compute. reflexivity.
    + injection Hinp as <-. reflexivity.
Defined.

Lemma people_bios_short id u :
  people !! id = Some u → String.length (UserDoc.Bio u) ≤ 500.
Proof.
  revert id u.
  apply (bool_decide_unpack
           (map_Forall (λ _ u, String.length (UserDoc.Bio u) ≤ 500) people)).
  vm_compute. exact I.
Qed.

(** X16 on an example: after [u1]'s new bio. *)
Lemma UpdateProfile_keeps_bios_short_witness :
  map_Forall (λ _ u, String.length (UserDoc.Bio u) ≤ 500) people_away.
Proof.
  refine (UpdateProfile_keeps_bios_short store_up "u1"
            (Some (new_bio "away")) people
            (JSON "Profile updated successfully"%string) people_away _ _).
  - exact people_bios_short.
  - vm_compute. reflexivity.
Defined.

Lemma people_unique : usernames_unique people.
Proof.
  intros i j u v Hi Hj.
  revert j v Hj. revert i u Hi.
  apply (bool_decide_unpack
           (map_Forall (λ i u, map_Forall (λ j v,
              UserDoc.Username u = UserDoc.Username v → i = j) people) people)).
  vm_compute. exact I.
Qed.

(** X17 on an example: after [u1] has taken a free name. *)
Lemma UpdateProfile_keeps_usernames_unique_witness :
  usernames_unique people_renamed.
Proof.
  apply (UpdateProfile_keeps_usernames_unique store_up "u1"
           (Some (rename "carol")) people
           (JSON "Profile updated successfully"%string) people_renamed).
  - reflexivity.
  - exact people_unique.
  - vm_compute. reflexivity.
Defined.

(** X18 on an example: nobody has the id [u9]. *)
Lemma UpdateProfile_reports_success_without_document_witness :
  UpdateProfile store_up "u9" (Some (new_bio "ghost")) people
  = (JSON "Profile updated successfully"%string, people).
Proof.
  apply (UpdateProfile_reports_success_without_document store_up "u9"
           (new_bio "ghost") people {[ "bio"%string := "ghost"%string ]}).
  - vm_compute. reflexivity.
  - vm_compute. reflexivity.
  - reflexivity.
Defined.

Lemma Find_users_refuses q : 1 < size (uq_sort q) → Find_users q = None.
Proof.
  intros Hq. unfold Find_users.
  destruct (Nat.ltb_spec 1 (size (uq_sort q))); [done|lia].
Qed.

(** X19 on an example: [u1] asks for the first 20 users. *)
Lemma ListUsers_fails_on_its_sort_map_witness :
  ListUsers Find_users Count_users "u1" "" "" 1 20
  = ErrorJSON StatusInternalServerError "Failed to fetch users".
Proof.
  apply (ListUsers_fails_on_its_sort_map Find_users Count_users
           "u1" "" "" 1 20).
  exact Find_users_refuses.
Defined.
